(** * Sermon metadata pipeline: a shallow embedding and its properties

    The development follows the JavaScript modules of the repository:
    [llm-metadata-generator.js] (provider calls with retry, reply extraction,
    metadata merge, printing, per-file and per-directory processing),
    [yaml-generator.js] (header validation and completion, the plain header
    rewrite and the rewrite of the "Radar Analysis" section) and
    [openrouter-client.js] (model identifiers and the request payload).

    Conventions.
    - A JavaScript string is a sequence of UTF-16 code units, here a list of
      [N]; literals are written [str "..."].
    - A JavaScript number is represented by the decimal that JavaScript prints
      for it (a rational), or one of NaN and the two infinities.
    - An object is an association list in insertion order with unique keys.
    - What the program obtains from outside (the model's reply, the clock,
      [JSON.parse], js-yaml and the YAML loader of gray-matter) is an explicit
      argument of the functions that use it. *)

From Stdlib Require Import List NArith ZArith QArith Bool String Ascii Lia Sorted
  Permutation.
From Equations Require Import Equations.
Import ListNotations.

Set Implicit Arguments.
Set Warnings "-register-all".
Local Open Scope N_scope.
Local Open Scope list_scope.

(* ===================================================================== *)
(** ** Text: code units, whitespace, search *)
(* ===================================================================== *)

Module Text.

Abbreviation code_unit := N (only parsing).
Abbreviation text := (list N) (only parsing).

Definition str (s : string) : text :=
  List.map N_of_ascii (list_ascii_of_string s).
Arguments str s%_string.

Fixpoint text_eqb (a b : text) : bool :=
  match a, b with
  | [], [] => true
  | x :: a', y :: b' => (x =? y) && text_eqb a' b'
  | _, _ => false
  end.

(** ECMAScript LineTerminator: LF, CR, LS, PS. *)
Definition isLineTerminator (c : code_unit) : bool :=
  (c =? 10) || (c =? 13) || (c =? 8232) || (c =? 8233).

(** ECMAScript WhiteSpace and LineTerminator: what [\s] matches and what
    [String.prototype.trim] strips. *)
Definition isWhiteSpace (c : code_unit) : bool :=
  ((9 <=? c) && (c <=? 13)) || (c =? 32) || (c =? 160) || (c =? 5760)
  || ((8192 <=? c) && (c <=? 8202)) || (c =? 8232) || (c =? 8233)
  || (c =? 8239) || (c =? 8287) || (c =? 12288) || (c =? 65279).

Definition isDigit (c : code_unit) : bool := (48 <=? c) && (c <=? 57).

Fixpoint dropWhile (p : code_unit -> bool) (s : text) : text :=
  match s with
  | [] => []
  | c :: r => if p c then dropWhile p r else s
  end.

Fixpoint takeWhile (p : code_unit -> bool) (s : text) : text :=
  match s with
  | [] => []
  | c :: r => if p c then c :: takeWhile p r else []
  end.

Definition trimStart (s : text) : text := dropWhile isWhiteSpace s.
Definition trimEnd (s : text) : text := rev (dropWhile isWhiteSpace (rev s)).
Definition trim (s : text) : text := trimEnd (trimStart s).

(** [startsWith p s]: the literal [p] is read at the head of [s]; the result
    is what follows it. *)
Fixpoint startsWith (p s : text) : option text :=
  match p, s with
  | [], _ => Some s
  | x :: p', y :: s' => if x =? y then startsWith p' s' else None
  | _ :: _, [] => None
  end.

(** Case-insensitive comparison of the [i] flag without the [u] flag, for a
    pattern of ASCII units: a unit above 127 never canonicalises to one
    below 128, so only ASCII letters fold. *)
Definition asciiUpper (c : code_unit) : code_unit :=
  if (97 <=? c) && (c <=? 122) then c - 32 else c.

Fixpoint startsWith_ci (p s : text) : option text :=
  match p, s with
  | [], _ => Some s
  | x :: p', y :: s' =>
      if (y <? 128) && (asciiUpper x =? asciiUpper y)
      then startsWith_ci p' s' else None
  | _ :: _, [] => None
  end.

(** The regular expression driver: a pattern is tried at each index from the
    left; [prev] is the code unit before the index ([None] at index 0), which
    is what [^] looks at.  The result is the text before the match and the
    pattern's own result. *)
Fixpoint search {A : Type} (try : option code_unit -> text -> option A)
    (prev : option code_unit) (s : text) : option (text * A) :=
  match try prev s with
  | Some a => Some ([], a)
  | None =>
      match s with
      | [] => None
      | c :: r =>
          match search try (Some c) r with
          | Some (before, a) => Some (c :: before, a)
          | None => None
          end
      end
  end.

(** [[\s\S]*?] followed by a lookahead: the shortest run of code units after
    which the lookahead holds; the result is the run and what follows it. *)
Fixpoint lazyUntil (stop : option code_unit -> text -> bool)
    (prev : option code_unit) (s : text) : option (text * text) :=
  if stop prev s then Some ([], s)
  else match s with
       | [] => None
       | c :: r =>
           match lazyUntil stop (Some c) r with
           | Some (m, rest) => Some (c :: m, rest)
           | None => None
           end
       end.

(** [\s*] followed by the rest of a pattern [k]: the longest run of white
    space is tried first and given back one unit at a time. *)
Fixpoint greedySpaces {A : Type} (k : text -> option A) (s : text) : option A :=
  match s with
  | c :: r =>
      if isWhiteSpace c then
        match greedySpaces k r with
        | Some a => Some a
        | None => k s
        end
      else k s
  | [] => k s
  end.

(** [indexOf]-style split at the first occurrence of a literal. *)
Definition splitAt (p : text) (s : text) : option (text * text) :=
  search (fun _ t => startsWith p t) None s.

Definition includes (p s : text) : bool :=
  match splitAt p s with Some _ => true | None => false end.

(** Decimal digits of a natural number, most significant first. *)
Fixpoint digits_fuel (fuel : nat) (n : N) (acc : text) : text :=
  match fuel with
  | O => acc
  | S f =>
      let acc' := (48 + n mod 10) :: acc in
      if n / 10 =? 0 then acc' else digits_fuel f (n / 10) acc'
  end.

Definition N_to_text (n : N) : text := digits_fuel (S (N.to_nat (N.log2 n))) n [].

End Text.

Import Text.

(* ===================================================================== *)
(** ** JavaScript values, objects and thrown errors *)
(* ===================================================================== *)

Module JS.

Inductive number :=
| Fin (q : Q)
| NaN
| PosInf
| NegInf.

Inductive value :=
| VUndef
| VNull
| VBool (b : bool)
| VNum (n : number)
| VStr (s : text)
| VArr (xs : list value)
| VObj (fields : list (text * value)).

Definition object := list (text * value).

Definition num (z : Z) : value := VNum (Fin (inject_Z z)).

(** ToBoolean. *)
Definition truthy (v : value) : bool :=
  match v with
  | VUndef | VNull => false
  | VBool b => b
  | VNum (Fin q) => negb (Qeq_bool q 0)
  | VNum NaN => false
  | VNum _ => true
  | VStr s => match s with [] => false | _ => true end
  | VArr _ | VObj _ => true
  end.

Definition isUndefined (v : value) : bool :=
  match v with VUndef => true | _ => false end.

(** [a || b] *)
Definition or_else (a b : value) : value := if truthy a then a else b.

Fixpoint lookup (k : text) (o : object) : option value :=
  match o with
  | [] => None
  | (k', v) :: r => if text_eqb k k' then Some v else lookup k r
  end.

(** [o[k]] on an object, for an own key. *)
Definition get (o : object) (k : text) : value :=
  match lookup k o with Some v => v | None => VUndef end.

(** [v[k]] on a value that is neither null nor undefined, for a key that is
    not an index, [length] or an inherited name: only objects have it. *)
Definition getv (v : value) (k : text) : value :=
  match v with VObj o => get o k | _ => VUndef end.

(** [o[k] = v]: an existing key keeps its place, a new key goes last. *)
Fixpoint set (k : text) (v : value) (o : object) : object :=
  match o with
  | [] => [(k, v)]
  | (k', v') :: r => if text_eqb k k' then (k, v) :: r else (k', v') :: set k v r
  end.

Fixpoint remove (k : text) (o : object) : object :=
  match o with
  | [] => []
  | (k', v') :: r => if text_eqb k k' then remove k r else (k', v') :: remove k r
  end.

Fixpoint indexed (i : N) (xs : list value) : object :=
  match xs with
  | [] => []
  | x :: r => (N_to_text i, x) :: indexed (N.succ i) r
  end.

(** Own enumerable properties, as a spread [...v] copies them. *)
Definition ownProps (v : value) : object :=
  match v with
  | VObj o => o
  | VArr xs => indexed 0 xs
  | VStr s => indexed 0 (List.map (fun c => VStr [c]) s)
  | _ => []
  end.

(** [{...target, ...v}]: for each own key of [v] in order, [target[key] =
    v[key]]. *)
Definition spread (target : object) (v : value) : object :=
  fold_left (fun acc kv => set (fst kv) (get (ownProps v) (fst kv)) acc)
            (ownProps v) target.

(** Number::toString for the decimals of this model (no exponent form). *)
Fixpoint fracDigits (fuel : nat) (r d : N) : text :=
  match fuel with
  | O => []
  | S f =>
      if r =? 0 then []
      else (48 + (r * 10) / d)%N :: fracDigits f ((r * 10) mod d) d
  end.

Definition showQ (q : Q) : text :=
  let q := Qred q in
  let a := Z.to_N (Z.abs (Qnum q)) in
  let d := Npos (Qden q) in
  (if (Qnum q <? 0)%Z then str "-" else [])
    ++ N_to_text (a / d)
    ++ (if a mod d =? 0 then [] else str "." ++ fracDigits 20 (a mod d) d).

Definition showNumber (n : number) : text :=
  match n with
  | Fin q => showQ q
  | NaN => str "NaN"
  | PosInf => str "Infinity"
  | NegInf => str "-Infinity"
  end.

Fixpoint join (sep : text) (l : list text) : text :=
  match l with
  | [] => []
  | [x] => x
  | x :: r => x ++ sep ++ join sep r
  end.

(** ToString, as a template literal applies it. *)
Fixpoint toString (v : value) : text :=
  match v with
  | VUndef => str "undefined"
  | VNull => str "null"
  | VBool true => str "true"
  | VBool false => str "false"
  | VNum n => showNumber n
  | VStr s => s
  | VArr xs =>
      join (str ",")
        (List.map (fun x => match x with
                            | VUndef | VNull => []
                            | _ => toString x
                            end) xs)
  | VObj _ => str "[object Object]"
  end.

(** What [parseFloat] returns on a numeral [\d+] or [\d+\.\d+]: the number
    the numeral denotes.  The code has the double nearest to it, which is
    that number for an integer up to 2^53 and prints as the numeral for a
    numeral of up to 15 significant digits. *)
Definition digitsValue (s : text) : N :=
  fold_left (fun acc c => acc * 10 + (c - 48)) s 0.

Definition parseDecimal (intPart fracPart : text) : number :=
  Fin (Qred (Z.of_N (digitsValue (intPart ++ fracPart))
             # Z.to_pos (10 ^ Z.of_nat (List.length fracPart)))).

(** A thrown error: its [message], and the fields the retry policy reads. *)
Record exn := mkExn {
  message : text;
  status : option N;
  code : option text;
  x_should_retry : bool
}.

Definition Error (msg : text) : exn := mkExn msg None None false.

Inductive completion (A : Type) :=
| Normal (a : A)
| Throw (e : exn).
Arguments Normal {A} a.
Arguments Throw {A} e.

End JS.

Import JS.

(* ===================================================================== *)
(** ** The document store and gray-matter's split *)
(* ===================================================================== *)

Module Store.

Definition filesystem := text -> option text.

Definition readFileSync (path : text) (fs : filesystem) : completion text :=
  match fs path with
  | Some t => Normal t
  | None => Throw (Error (str "ENOENT: no such file or directory"))
  end.

Definition writeFileSync (path data : text) (fs : filesystem) : filesystem :=
  fun p => if text_eqb p path then Some data else fs p.

Definition stripBom (s : text) : text :=
  match s with
  | 65279 :: r => r
  | _ => s
  end.

(** The index [str.search(/\r?\n/)] cuts at: the text before the first line
    break; without a line break [slice(0, -1)] drops the last unit. *)
Fixpoint firstLine (s : text) : option text :=
  match s with
  | [] => None
  | 10 :: _ => Some []
  | 13 :: 10 :: _ => Some []
  | c :: r => match firstLine r with Some l => Some (c :: l) | None => None end
  end.

Definition languageRaw (s : text) : text :=
  match firstLine s with
  | Some l => l
  | None => removelast s
  end.

Section Matter.

(** What gray-matter makes of the front matter block: the object its YAML
    engine loads (the empty object for an empty block); it throws on a block
    that is not YAML. *)
Variable load : text -> completion object.

(** [matter(input)] with default options: [data] and [content].  A document
    opens its header with [---] (not followed by a fourth dash) and closes it
    at the first [\n---]; one line break after the closing delimiter is not
    part of the content.

    gray-matter keeps what it made of a text (the text without its byte order
    mark) and gives the kept file, with the same [data] object, to every
    later call on an equal text; a header that does not parse throws on the
    first call only.  [matter] is the call on a text that is seen for the
    first time, or seen again by the run that saw it first: statements about
    several documents assume that their texts differ ([distinctTexts]). *)
Definition matter (input : text) : completion (object * text) :=
  let s := stripBom input in
  match startsWith (str "---") s with
  | None => Normal ([], s)
  | Some (45 :: _) => Normal ([], s)
  | Some r =>
      let lang := languageRaw r in
      let r := match trim lang with
               | [] => r
               | _ => skipn (List.length lang) r
               end in
      let '(block, content) :=
        match splitAt (10 :: str "---") r with
        | None => (r, [])
        | Some (block, after) =>
            let after := match after with 13 :: t => t | _ => after end in
            (block, match after with 10 :: t => t | _ => after end)
        end in
      match load block with
      | Normal data => Normal (data, content)
      | Throw e => Throw e
      end
  end.

End Matter.

End Store.

Import Store.

(* ===================================================================== *)
(** ** yaml-generator.js: validation and the Radar Analysis rewrite *)
(* ===================================================================== *)

Module YamlGenerator.

(** The category list written out in [validateSermonYAML] ([scoreFields]) and
    again in [updateFileWithRadarSection] ([categories]). *)
Definition scoreFields : list text :=
  [ str "theological_cohesion"; str "scriptural_integration";
    str "structural_clarity"; str "liturgical_harmony"; str "voice_fidelity";
    str "emotional_presence"; str "metaphorical_resonance";
    str "closing_force"; str "improvisational_trust" ].

Definition categories : list text := scoreFields.

Record validation := mkValidation { valid : bool; errors : list text }.

(** [typeof score !== 'number' || score < 0 || score > 10] *)
Definition invalidScore (score : value) : bool :=
  match score with
  | VNum (Fin q) =>
      match q ?= 0 with Lt => true | _ => false end
      || match q ?= 10 with Gt => true | _ => false end
  | VNum NaN => false
  | VNum _ => true
  | _ => true
  end%Q.

Definition validateSermonYAML (sermonYAML : object) : validation :=
  let missing :=
    flat_map (fun field =>
                if truthy (get sermonYAML field) then []
                else [str "Missing required field: " ++ field])
             [str "sermon_title"] in
  let radar := get sermonYAML (str "radar_score") in
  let scores :=
    if truthy radar then
      flat_map (fun field =>
                  let score := getv radar field in
                  if negb (isUndefined score) && invalidScore score
                  then [str "Invalid radar score for " ++ field
                          ++ str ". Must be a number between 0 and 10."]
                  else [])
               scoreFields
    else [] in
  let errors := missing ++ scores in
  mkValidation (match errors with [] => true | _ => false end) errors.

(** *** The removal pattern
    [/(^## Radar Analysis[\s\S]*?)(?=^# |\n*$)/m], used once by [replace]. *)

Definition heading : text := str "## Radar Analysis".

(** [^] under the [m] flag. *)
Definition lineStart (prev : option code_unit) : bool :=
  match prev with
  | None => true
  | Some c => isLineTerminator c
  end.

(** [$] under the [m] flag. *)
Definition lineEnd (s : text) : bool :=
  match s with
  | [] => true
  | c :: _ => isLineTerminator c
  end.

(** [\n*$]: some number of line feeds, then [$]. *)
Fixpoint newlinesThenEnd (s : text) : bool :=
  lineEnd s
  || match s with
     | 10 :: r => newlinesThenEnd r
     | _ => false
     end.

(** The lookahead [(?=^# |\n*$)]. *)
Definition sectionEnd (prev : option code_unit) (s : text) : bool :=
  (lineStart prev && match startsWith (str "# ") s with Some _ => true | None => false end)
  || newlinesThenEnd s.

(** The pattern at one index: the matched text and what follows it. *)
Definition radarPattern (prev : option code_unit) (s : text) : option (text * text) :=
  if lineStart prev then
    match startsWith heading s with
    | Some r =>
        match lazyUntil sectionEnd (Some (last heading 0)) r with
        | Some (m, rest) => Some (heading ++ m, rest)
        | None => None
        end
    | None => None
    end
  else None.

(** [content.replace(pattern, '')] *)
Definition removeRadar (content : text) : text :=
  match search radarPattern None content with
  | Some (before, (_, rest)) => before ++ rest
  | None => content
  end.

(** *** The rendered section *)

Fixpoint splitOn (sep : code_unit) (s : text) : list text :=
  match s with
  | [] => [[]]
  | c :: r =>
      if c =? sep then [] :: splitOn sep r
      else match splitOn sep r with
           | w :: ws => (c :: w) :: ws
           | [] => [[c]]
           end
  end.

(** [word.charAt(0).toUpperCase() + word.slice(1)] on the ASCII names of
    [categories]. *)
Definition capitalize (word : text) : text :=
  match word with
  | [] => []
  | c :: r => asciiUpper c :: r
  end.

Definition formattedName (category : text) : text :=
  join (str " ") (List.map capitalize (splitOn 95 category)).

Definition radarLine (yamlData justifications : object) (category : text) : text :=
  let radar := get yamlData (str "radar_score") in
  if truthy radar && negb (isUndefined (getv radar category)) then
    let score := getv radar category in
    let justification := or_else (get justifications category) (VStr []) in
    str "- **" ++ formattedName category ++ str " (" ++ toString score
      ++ str "/10)**: " ++ toString justification ++ [10]
  else [].

Definition radarSection (timestamp modelName : text)
    (yamlData justifications : object) : text :=
  str "## Radar Analysis" ++ [10]
    ++ (str "_Generated by model: " ++ modelName ++ str " | " ++ timestamp
          ++ str "_" ++ [10; 10])
    ++ List.concat (List.map (radarLine yamlData justifications) categories)
    ++ [10].

Section Rewrite.

Variable load : text -> completion object.
(** [yaml.dump]; it throws on a value it cannot represent. *)
Variable dump : object -> completion text.

(** The text [updateFileWithRadarSection] assembles from the content that
    follows the header. *)
Definition newContent (timestamp modelName newYaml : text)
    (yamlData justifications : object) (content : text) : text :=
  str "---" ++ [10] ++ newYaml ++ str "---" ++ [10; 10]
    ++ radarSection timestamp modelName yamlData justifications
    ++ trim (removeRadar content).

(** [updateFileWithRadarSection(filePath, yamlData, justifications,
    modelName)], with the clock reading as [timestamp].  The result is the
    success flag, [yamlData] as the call leaves it for the caller (it gains
    [radar_info]) and the store. *)
Definition updateFileWithRadarSection (timestamp filePath : text)
    (yamlData justifications : object) (modelName : text) (fs : filesystem)
  : bool * object * filesystem :=
  match readFileSync filePath fs with
  | Throw _ => (false, yamlData, fs)
  | Normal fileContent =>
      match matter load fileContent with
      | Throw _ => (false, yamlData, fs)
      | Normal (_, content) =>
          let yamlData' :=
            set (str "radar_info")
                (VStr (str "Model: " ++ modelName ++ str " | Generated: " ++ timestamp))
                yamlData in
          match dump (JS.remove (str "radar_justifications") yamlData') with
          | Throw _ => (false, yamlData', fs)
          | Normal newYaml =>
              (true, yamlData',
               writeFileSync filePath
                 (newContent timestamp modelName newYaml yamlData justifications content)
                 fs)
          end
      end
  end.

End Rewrite.

End YamlGenerator.

Import YamlGenerator.

(* ===================================================================== *)
(** ** llm-metadata-generator.js: reply extraction and metadata merge *)
(* ===================================================================== *)

Module Extractor.

Definition RADAR_CATEGORIES : list text :=
  [ str "theological_cohesion"; str "scriptural_integration";
    str "structural_clarity"; str "liturgical_harmony"; str "voice_fidelity";
    str "emotional_presence"; str "metaphorical_resonance";
    str "closing_force"; str "embodied_authority" ].

Definition noEvaluation : text := str "No evaluation provided.".

(** [parseFloat] on a text that starts with the numeral of the score pattern
    (digits, then possibly a point and digits); NaN without a leading digit. *)
Definition parseFloat (s : text) : number :=
  match takeWhile isDigit s with
  | [] => NaN
  | intPart =>
      match dropWhile isDigit s with
      | 46 :: t => parseDecimal intPart (takeWhile isDigit t)
      | _ => parseDecimal intPart []
      end
  end.

Definition isNaN (n : number) : bool :=
  match n with NaN => true | _ => false end.

(** [SCORE ${category}:\s*(\d+(?:\.\d+)?)] with flag [i]; the result is
    group 1. *)
Definition scorePattern (category : text) (_ : option code_unit) (s : text)
  : option text :=
  match startsWith_ci (str "SCORE " ++ category ++ str ":") s with
  | None => None
  | Some r =>
      greedySpaces
        (fun t =>
           match takeWhile isDigit t with
           | [] => None
           | intPart =>
               match dropWhile isDigit t with
               | 46 :: u =>
                   match takeWhile isDigit u with
                   | [] => Some intPart
                   | fracPart => Some (intPart ++ [46] ++ fracPart)
                   end
               | _ => Some intPart
               end
           end) r
  end.

(** The lookahead [(?=\n\s*SCORE|\n\s*JUSTIFICATION|$)] with flags [is]:
    [$] is the end of the reply only. *)
Definition justificationEnd (_ : option code_unit) (s : text) : bool :=
  match s with
  | [] => true
  | 10 :: r =>
      match greedySpaces (startsWith_ci (str "SCORE")) r with
      | Some _ => true
      | None =>
          match greedySpaces (startsWith_ci (str "JUSTIFICATION")) r with
          | Some _ => true
          | None => false
          end
      end
  | _ => false
  end.

(** [JUSTIFICATION ${category}:\s*(.+?)(?=...)] with flags [is]; the result
    is group 1, which has at least one code unit. *)
Definition justificationPattern (category : text) (_ : option code_unit)
    (s : text) : option text :=
  match startsWith_ci (str "JUSTIFICATION " ++ category ++ str ":") s with
  | None => None
  | Some r =>
      greedySpaces
        (fun t =>
           match t with
           | [] => None
           | c :: u =>
               match lazyUntil justificationEnd (Some c) u with
               | Some (m, _) => Some (c :: m)
               | None => None
               end
           end) r
  end.

(** [llmResponse.match(pattern)]: group 1 of the leftmost match. *)
Definition matchGroup (pattern : option code_unit -> text -> option text)
    (llmResponse : text) : option text :=
  match search pattern None llmResponse with
  | Some (_, g) => Some g
  | None => None
  end.

(** One round of the first [forEach]: the score and the justification of one
    category, each set only when its pattern matched. *)
Definition extractCategory (llmResponse : text) (acc : object * object)
    (category : text) : object * object :=
  let '(radar_score, justifications) := acc in
  let radar_score :=
    match matchGroup (scorePattern category) llmResponse with
    | Some ((_ :: _) as g) =>
        let score := parseFloat g in
        if negb (isNaN score) then set category (VNum score) radar_score
        else radar_score
    | _ => radar_score
    end in
  let justifications :=
    match matchGroup (justificationPattern category) llmResponse with
    | Some ((_ :: _) as g) => set category (VStr (trim g)) justifications
    | _ => justifications
    end in
  (radar_score, justifications).

Definition extractLabeled (llmResponse : text) : object * object :=
  fold_left (extractCategory llmResponse) RADAR_CATEGORIES ([], []).

(** One round of the second [forEach] ("Fallback: ensure all domains are
    present"). *)
Definition fillCategory (acc : object * object) (category : text)
  : object * object :=
  let '(radar_score, justifications) := acc in
  if isUndefined (get radar_score category) then
    (set category (num 0) radar_score,
     set category (VStr noEvaluation) justifications)
  else acc.

Definition fillDefaults (acc : object * object) : object * object :=
  fold_left fillCategory RADAR_CATEGORIES acc.

(** What [generateRadarScores] returns once the reply is at hand:
    [{ radar_score, justifications }]. *)
Definition radarScoresOfReply (llmResponse : text) : object * object :=
  fillDefaults (extractLabeled llmResponse).

(** *** Structured-object mode *)

(** [/```(?:json)?\s*([\s\S]*?)```/]; the result is group 1. *)
Definition fencePattern (_ : option code_unit) (s : text) : option text :=
  match startsWith (str "```") s with
  | None => None
  | Some r =>
      let rest t :=
        greedySpaces
          (fun u => match splitAt (str "```") u with
                    | Some (g, _) => Some g
                    | None => None
                    end) t in
      match startsWith (str "json") r with
      | Some r' =>
          match rest r' with
          | Some g => Some g
          | None => rest r
          end
      | None => rest r
      end
  end.

(** [/{[\s\S]*?}/]; the result is the whole match. *)
Definition bracePattern (_ : option code_unit) (s : text) : option text :=
  match startsWith (str "{") s with
  | None => None
  | Some r =>
      match splitAt (str "}") r with
      | Some (inner, _) => Some (str "{" ++ inner ++ str "}")
      | None => None
      end
  end.

(** The text handed to [JSON.parse], if any. *)
Definition jsonCandidate (llmResponse : text) : option text :=
  match matchGroup fencePattern llmResponse with
  | Some ((_ :: _) as g) => Some (trim g)
  | _ => matchGroup bracePattern llmResponse
  end.

Section Parse.

(** [JSON.parse]; it throws a SyntaxError on a text that is not JSON and
    never returns [undefined]. *)
Variable JSON_parse : text -> completion value.

(** The inner [try] of [generateSermonMetadata]. *)
Definition parseMetadata (llmResponse : text) : completion value :=
  match jsonCandidate llmResponse with
  | Some t => JSON_parse t
  | None => Throw (Error (str "No JSON found in response"))
  end.

End Parse.

(** The object literal [mergedMetadata]. *)
Definition mergedMetadata (metadata : value) (existingMetadata : object) : object :=
  let m := spread (spread [] metadata) (VObj existingMetadata) in
  let m := set (str "bolt")
             (or_else (getv metadata (str "bolt")) (get existingMetadata (str "bolt"))) m in
  let m := set (str "themes")
             (or_else (getv metadata (str "themes")) (get existingMetadata (str "themes"))) m in
  let m := set (str "metaphors")
             (or_else (getv metadata (str "metaphors"))
                      (get existingMetadata (str "metaphors"))) m in
  let m := set (str "radar_score")
             (VObj (spread
                      (spread [] (or_else (get existingMetadata (str "radar_score")) (VObj [])))
                      (or_else (getv metadata (str "radar_score")) (VObj [])))) m in
  set (str "radar_justifications")
      (or_else (get existingMetadata (str "radar_justifications")) (VObj [])) m.

End Extractor.

Import Extractor.

(* ===================================================================== *)
(** ** llm-metadata-generator.js: [callClaudeWithRetry] *)
(* ===================================================================== *)

Module Retry.

(** What one logical call leaves behind: the requests made to the provider
    and the waits slept between them, in order. *)
Record trace := mkTrace {
  attempts : nat;
  waits : list N
}.

Section Call.

(** [shouldUseOpenRouter(options)]. *)
Variable useOpenRouter : bool.
(** Whether the Anthropic client was constructed ([ANTHROPIC_API_KEY]). *)
Variable anthropicConfigured : bool.
(** [openRouter.createChatCompletion(...)] for this call. *)
Variable openRouterCall : completion text.
(** [anthropic.messages.create(...)]: the outcome of the provider's n-th
    request of this call, counted from 0. *)
Variable create : nat -> completion text.

Variable maxRetries : nat.

(** The three retrying branches of the [catch]: the wait of the branch the
    error falls in, given that [retries < maxRetries]. *)
Definition backoff (error : exn) (retries : nat) : option N :=
  match status error with
  | Some 429 => Some (2000 * 2 ^ N.of_nat retries)
  | Some 529 => Some (5000 * 2 ^ N.of_nat retries)
  | _ =>
      if x_should_retry error then Some (3000 * 2 ^ N.of_nat retries)
      else None
  end.

(** The [while (true)] loop, from the state [retries] and the trace so far.
    An iteration either returns, throws, or runs the loop again with
    [retries + 1 <= maxRetries]. *)
Equations? loop (retries : nat) (tr : trace) : completion text * trace
  by wf (maxRetries - retries)%nat lt :=
  loop retries tr with create (attempts tr) := {
    | Normal response => (Normal response, mkTrace (S (attempts tr)) (waits tr))
    | Throw error with lt_dec retries maxRetries := {
        | right _ => (Throw error, mkTrace (S (attempts tr)) (waits tr))
        | left _ with backoff error retries := {
            | None => (Throw error, mkTrace (S (attempts tr)) (waits tr))
            | Some waitTime =>
                loop (S retries) (mkTrace (S (attempts tr)) (waits tr ++ [waitTime]))
          }
      }
  }.
Proof. lia. Qed.

Definition callClaudeWithRetry : completion text * trace :=
  if useOpenRouter then
    (openRouterCall, mkTrace 0 [])
  else if negb anthropicConfigured then
    (Throw (Error (str "Anthropic API key not configured and OpenRouter not enabled")),
     mkTrace 0 [])
  else loop 0 (mkTrace 0 []).

End Call.

End Retry.

(* ===================================================================== *)
(** ** llm-metadata-generator.js: generation, per-file and per-directory runs *)
(* ===================================================================== *)

Module Generator.

(** The two call wrappers: [callClaudeWithRetry] and [callOpenAIWithRetry]. *)
Inductive api := ClaudeCall | OpenAICall.
Inductive task := MetadataTask | RadarTask.

(** The options the two generators read. *)
Record llmOptions := mkOptions {
  useClaude : bool;
  useOpenRouter : bool;
  model : option text
}.

(** One call of a wrapper, as the provider side sees it. *)
Record request := mkRequest {
  req_task : task;
  req_api : api;
  req_options : llmOptions;
  req_content : text;
  req_existing : object
}.

(** What a run threads through its steps: the document store and the calls
    made to the provider so far, oldest first. *)
Record world := mkWorld {
  files : filesystem;
  calls : list request
}.

(** [options.model && (options.model.includes('claude') ||
    options.model.startsWith('anthropic/'))] *)
Definition isClaudeModel (m : option text) : bool :=
  match m with
  | Some ((_ :: _) as name) =>
      includes (str "claude") name
      || match startsWith (str "anthropic/") name with Some _ => true | None => false end
  | _ => false
  end.

Definition isArray (v : value) : bool :=
  match v with VArr _ => true | _ => false end.

(** [{ radar_score, justifications }] *)
Record radarResult := mkRadar {
  radar_score : value;
  justifications : object
}.

(** The options of [processSermonFile], with the defaults of its
    destructuring for the fields a caller leaves out. *)
Record fileOptions := mkFileOptions {
  generateMissing : bool;
  updateExisting : bool;
  scoreOnly : bool;
  dryRun : bool;
  opt_useClaude : bool;
  opt_useOpenRouter : bool;
  opt_model : option text;
  fallbackModel : bool;
  modelForMetadata : option text;
  modelForRadar : option text
}.

(** What [processSermonFile] returns: the record of a processed file, or
    [{ path, error, updated: false }]. *)
Inductive fileResult :=
| Processed (path : text) (metadata : object) (justifications : object)
    (validation : YamlGenerator.validation) (updated : bool)
| Failed (path : text) (error : text).

Definition resultPath (r : fileResult) : text :=
  match r with
  | Processed p _ _ _ _ => p
  | Failed p _ => p
  end.

Definition isFailed (r : fileResult) : bool :=
  match r with Failed _ _ => true | _ => false end.

(** The identifier [llmOptions] that the fallback branch of
    [processSermonFile] spreads has no binding in that function or at module
    level (its one declaration is local to a [case] of [main]): evaluating it
    throws a ReferenceError. *)
Definition llmOptions_unbound : completion llmOptions :=
  Throw (Error (str "llmOptions is not defined")).

Section Pipeline.

Variable load : text -> completion object.
Variable dump : object -> completion text.
Variable JSON_parse : text -> completion value.
(** The reply a call wrapper returns, or the error it throws, for a request
    and the requests made before it. *)
Variable llm : request -> list request -> completion text.
(** [new Date().toISOString()] *)
Variable now : text.

Definition call (rq : request) (w : world) : completion text * world :=
  (llm rq (calls w), mkWorld (files w) (calls w ++ [rq])).

(** [generateSermonMetadata(content, existingMetadata, options)]: every path
    through its [try] returns an object. *)
Definition generateSermonMetadata (content : text) (existingMetadata : object)
    (options : llmOptions) (w : world) : object * world :=
  match dump existingMetadata with
  | Throw _ => (existingMetadata, w)
  | Normal _ =>
      let rq := mkRequest MetadataTask
                  (if isClaudeModel (model options) then ClaudeCall else OpenAICall)
                  options (firstn (N.to_nat 15000) content) existingMetadata in
      let '(r, w) := call rq w in
      match r with
      | Throw _ => (existingMetadata, w)
      | Normal llmResponse =>
          match parseMetadata JSON_parse llmResponse with
          | Throw _ => (existingMetadata, w)
          | Normal (VNull | VUndef) => (existingMetadata, w)
          | Normal metadata => (mergedMetadata metadata existingMetadata, w)
          end
      end
  end.

(** [generateRadarScores(content, existingMetadata, options)]. *)
Definition generateRadarScores (content : text) (existingMetadata : object)
    (options : llmOptions) (w : world) : completion radarResult * world :=
  let caught :=
    Normal (mkRadar (or_else (get existingMetadata (str "radar_score")) (VObj [])) []) in
  let texts := get existingMetadata (str "texts") in
  if truthy texts && negb (isArray texts) then (caught, w)
  else
    let rq := mkRequest RadarTask
                (if isClaudeModel (model options) || useClaude options
                 then ClaudeCall else OpenAICall)
                options (firstn (N.to_nat 25000) content) existingMetadata in
    let '(r, w) := call rq w in
    match r with
    | Throw _ => (caught, w)
    | Normal llmResponse =>
        let '(radar_score, justifications) := radarScoresOfReply llmResponse in
        (Normal (mkRadar (VObj radar_score) justifications), w)
    end.

Definition emptyList (v : value) : bool :=
  match v with VArr [] => true | _ => false end.

Definition fallbackModelName (options : fileOptions) : text :=
  match opt_model options with
  | Some ((_ :: _) as originalModel) =>
      if includes (str "claude-3-7") originalModel then str "claude-3-5-sonnet-20240620"
      else if includes (str "gpt-4") originalModel then str "gpt-3.5-turbo"
      else if opt_useClaude options then str "claude-3-5-sonnet-20240620"
           else str "gpt-3.5-turbo"
  | _ => if opt_useClaude options then str "claude-3-5-sonnet-20240620"
         else str "gpt-3.5-turbo"
  end.

(** [options.modelForRadar || options.model || 'default model'] *)
Definition modelLabel (options : fileOptions) : text :=
  match modelForRadar options with
  | Some ((_ :: _) as m) => m
  | _ => match opt_model options with
         | Some ((_ :: _) as m) => m
         | _ => str "default model"
         end
  end.

(** The [try] block of [processSermonFile]. *)
Definition processSermonFile_body (filePath : text) (options : fileOptions)
    (w : world) : completion fileResult * world :=
  match readFileSync filePath (files w) with
  | Throw e => (Throw e, w)
  | Normal fileContent =>
  match matter load fileContent with
  | Throw e => (Throw e, w)
  | Normal (existingMetadata, content) =>
      let em := get existingMetadata in
      let needsFullMetadata :=
        generateMissing options
        && (negb (truthy (em (str "sermon_title"))) || negb (truthy (em (str "bolt")))
            || negb (truthy (em (str "themes"))) || emptyList (em (str "themes"))
            || negb (truthy (em (str "metaphors"))) || emptyList (em (str "metaphors"))) in
      let needsRadarScores :=
        (generateMissing options || scoreOnly options)
        && (negb (truthy (em (str "radar_score")))
            || match ownProps (or_else (em (str "radar_score")) (VObj [])) with
               | [] => true
               | _ => false
               end) in
      let needsFullMetadata :=
        if updateExisting options then negb (scoreOnly options) else needsFullMetadata in
      let needsRadarScores :=
        if updateExisting options then true else needsRadarScores in
      let metadataOptions :=
        mkOptions (opt_useClaude options) (opt_useOpenRouter options)
                  (modelForMetadata options) in
      let radarOptions :=
        mkOptions (opt_useClaude options) (opt_useOpenRouter options)
                  (modelForRadar options) in
      let '(newMetadata, w) :=
        if needsFullMetadata
        then generateSermonMetadata content existingMetadata metadataOptions w
        else (spread [] (VObj existingMetadata), w) in
      let merged := spread (spread [] (VObj existingMetadata)) (VObj newMetadata) in
      let '(scored, w) :=
        if needsRadarScores then
          let '(r, w) := generateRadarScores content merged radarOptions w in
          match r with
          | Normal res =>
              (Normal (set (str "radar_score") (radar_score res) newMetadata,
                       justifications res), w)
          | Throw error =>
              if fallbackModel options && truthy (VStr (message error)) then
                match llmOptions_unbound with
                | Throw fallbackError => (Throw fallbackError, w)
                | Normal o =>
                    let '(r, w) :=
                      generateRadarScores content merged
                        (mkOptions (useClaude o) (useOpenRouter o)
                                   (Some (fallbackModelName options))) w in
                    match r with
                    | Normal res =>
                        (Normal (set (str "radar_score") (radar_score res) newMetadata,
                                 justifications res), w)
                    | Throw fallbackError => (Throw fallbackError, w)
                    end
                end
              else (Throw error, w)
          end
        else (Normal (newMetadata, []), w) in
      match scored with
      | Throw e => (Throw e, w)
      | Normal (newMetadata, justifications) =>
          let validation := validateSermonYAML newMetadata in
          let updated := negb (dryRun options) && (needsFullMetadata || needsRadarScores) in
          if updated then
            let '(_, newMetadata, fs) :=
              updateFileWithRadarSection load dump now filePath newMetadata
                justifications (modelLabel options) (files w) in
            (Normal (Processed filePath newMetadata justifications validation updated),
             mkWorld fs (calls w))
          else
            (Normal (Processed filePath newMetadata justifications validation updated), w)
      end
  end
  end.

(** [processSermonFile(filePath, options)]: the [catch] turns whatever the
    body throws into the failure record of this file. *)
Definition processSermonFile (filePath : text) (options : fileOptions)
    (w : world) : fileResult * world :=
  match processSermonFile_body filePath options w with
  | (Normal r, w) => (r, w)
  | (Throw error, w) => (Failed filePath (message error), w)
  end.

(** [Promise.all(batch.map(file => processSermonFile(file, options)))]: the
    results in the order of [batch].  The calls of one group touch one file
    each; they are run here in that order. *)
Fixpoint processBatch (batch : list text) (options : fileOptions) (w : world)
  : list fileResult * world :=
  match batch with
  | [] => ([], w)
  | file :: rest =>
      let '(r, w) := processSermonFile file options w in
      let '(rs, w) := processBatch rest options w in
      (r :: rs, w)
  end.

Definition batchSize : nat := 5.

(** The [for] loop of [processSermonDirectory] over the files found, from
    index [i = 0] in steps of [batchSize]; [files] is what remains from [i]. *)
Equations? processGroups (remaining : list text) (options : fileOptions)
    (w : world) : list fileResult * world by wf (List.length remaining) lt :=
  processGroups [] options w := ([], w);
  processGroups (f :: fs) options w :=
    let '(batchResults, w) := processBatch (firstn batchSize (f :: fs)) options w in
    let '(results, w) := processGroups (skipn batchSize (f :: fs)) options w in
    (batchResults ++ results, w).
Proof. change (Datatypes.length (skipn 4 fs) < S (Datatypes.length fs))%nat.
  rewrite length_skipn. lia. Qed.

(** [processSermonDirectory(directoryPath, options)], given the markdown
    files that [findMarkdownFiles] lists under the directory. *)
Definition processSermonDirectory (found : list text) (options : fileOptions)
    (w : world) : list fileResult * world :=
  processGroups found options w.

End Pipeline.

End Generator.

Import Generator.

(* ===================================================================== *)
(** ** Stand-ins for the libraries, used by the worked examples *)
(* ===================================================================== *)

Module Fixtures.

(** Line feed joins the lines of a document. *)
Definition lines (l : list text) : text := join [10] l.

(** A YAML engine given by its answers on the header blocks of the examples;
    any other block is refused as not being YAML. *)
Definition loadFrom (table : list (text * object)) (block : text) : completion object :=
  match lookup block (List.map (fun kv => (fst kv, VObj (snd kv))) table) with
  | Some (VObj o) => Normal o
  | _ => Throw (Error (str "YAMLException"))
  end.

(** js-yaml writes a string plain unless it could be misread; of its rules
    the examples need the one on [": "]. *)
Definition dumpString (s : text) : text :=
  if includes (str ": ") s then str "'" ++ s ++ str "'" else s.

(** js-yaml's block style on a header whose values are numbers, strings and
    one level of maps of those, which is what the examples use; anything else
    is refused. *)
Definition dumpScalar (v : value) : option text :=
  match v with
  | VNum n => Some (showNumber n)
  | VStr s => Some (dumpString s)
  | _ => None
  end.

Fixpoint dumpFields (indent : text) (o : object) : option text :=
  match o with
  | [] => Some []
  | (k, v) :: r =>
      match dumpScalar v, dumpFields indent r with
      | Some t, Some rest => Some (indent ++ k ++ str ": " ++ t ++ [10] ++ rest)
      | _, _ => None
      end
  end.

Fixpoint dumpBlock (o : object) : completion text :=
  match o with
  | [] => Normal []
  | (k, v) :: r =>
      let entry :=
        match v with
        | VObj ((_ :: _) as inner) =>
            match dumpFields (str "  ") inner with
            | Some t => Some (k ++ str ":" ++ [10] ++ t)
            | None => None
            end
        | VObj [] => Some (k ++ str ": {}" ++ [10])
        | _ =>
            match dumpScalar v with
            | Some t => Some (k ++ str ": " ++ t ++ [10])
            | None => None
            end
        end in
      match entry, dumpBlock r with
      | Some t, Normal rest => Normal (t ++ rest)
      | _, _ => Throw (Error (str "unacceptable kind of an object to dump"))
      end
  end.

(** A JSON parser given by its answers on the candidates of the examples. *)
Definition parseFrom (table : list (text * value)) (t : text) : completion value :=
  match lookup t table with
  | Some v => Normal v
  | None => Throw (Error (str "SyntaxError"))
  end.

(** A provider that is overloaded on every request. *)
Definition overloaded : exn := mkExn (str "Overloaded") (Some 529) None false.

Definition alwaysOverloaded (_ : request) (_ : list request) : completion text :=
  Throw overloaded.

End Fixtures.

Import Fixtures.


(* ===================================================================== *)
(** ** Worked examples and the vocabulary of the statements *)
(* ===================================================================== *)

Module Scenarios.

(** *** One sermon, scored once

    A document with a header and a top-level heading; the header after
    scoring, the justification, the model name and one clock reading. *)
Definition sermonPath : text := str "sermon.md".

Definition clockReading : text := str "2025-03-27T12:34:56.789Z".

Definition sermonHeader : object := [(str "sermon_title", VStr (str "Grace"))].

Definition scoredHeader : object :=
  [ (str "sermon_title", VStr (str "Grace"));
    (str "radar_score", VObj [(str "theological_cohesion", num 7)]) ].

Definition sermonJustifications : object :=
  [(str "theological_cohesion", VStr (str "Clear."))].

Definition originalDocument : text :=
  lines [ str "---"; str "sermon_title: Grace"; str "---"; str "";
          str "# Grace"; str "Text." ].

(** The lines of the header block that the rewrite emits for [scoredHeader]. *)
Definition rewrittenHeader : list text :=
  [ str "---"; str "sermon_title: Grace"; str "radar_score:";
    str "  theological_cohesion: 7";
    str "radar_info: 'Model: gpt-4 | Generated: 2025-03-27T12:34:56.789Z'";
    str "---"; str "" ].

(** The lines of the rendered section below its marker line. *)
Definition sectionLines : list text :=
  [ str "_Generated by model: gpt-4 | 2025-03-27T12:34:56.789Z_"; str "";
    str "- **Theological Cohesion (7/10)**: Clear."; str "" ].

(** The document after one rewrite, and after a second one. *)
Definition rewrittenOnce : text :=
  lines (rewrittenHeader ++ [str "## Radar Analysis"] ++ sectionLines
           ++ [str "# Grace"; str "Text."]).

Definition rewrittenTwice : text :=
  lines (rewrittenHeader ++ [str "## Radar Analysis"] ++ sectionLines ++ sectionLines
           ++ [str "# Grace"; str "Text."]).

(** The YAML engine on the two header blocks of the example. *)
Definition yamlEngine : text -> completion object :=
  loadFrom [ ([10] ++ str "sermon_title: Grace", sermonHeader);
             (lines (str "" :: removelast (removelast (tl rewrittenHeader))), scoredHeader) ].

Definition storeWith (content : text) : filesystem :=
  fun p => if text_eqb p sermonPath then Some content else None.

(** One application of the rewrite with the inputs of the example. *)
Definition rewriteSermon (fs : filesystem) : bool * object * filesystem :=
  updateFileWithRadarSection yamlEngine dumpBlock clockReading sermonPath scoredHeader
    sermonJustifications (str "gpt-4") fs.

(** *** A directory of five sermons

    The header of the third is not YAML; the provider answers every radar
    request with a score and a justification for the first category. *)
Definition sermon (title : text) : text :=
  lines [ str "---"; str "sermon_title: " ++ title; str "---"; str "";
          str "# " ++ title; str "Text." ].

Definition directory : list (text * text) :=
  [ (str "a.md", sermon (str "A")); (str "b.md", sermon (str "B"));
    (str "c.md", sermon (str "[C")); (str "d.md", sermon (str "D"));
    (str "e.md", sermon (str "E")) ].

Definition directoryStore : filesystem :=
  fold_right (fun kv fs => writeFileSync (fst kv) (snd kv) fs) (fun _ => None) directory.

Definition directoryEngine : text -> completion object :=
  loadFrom (List.map (fun title => ([10] ++ str "sermon_title: " ++ title,
                                    [(str "sermon_title", VStr title)]))
                     [str "A"; str "B"; str "D"; str "E"]).

Definition scoringProvider (rq : request) (_ : list request) : completion text :=
  match req_task rq with
  | RadarTask =>
      Normal (lines [ str "SCORE theological_cohesion: 7";
                      str "JUSTIFICATION theological_cohesion: Clear." ])
  | MetadataTask => Throw overloaded
  end.

(** [--score-only] with the model [gpt-4]. *)
Definition scoreOnlyOptions : fileOptions :=
  mkFileOptions false false true false false false (Some (str "gpt-4")) false
    None (Some (str "gpt-4")).

(** *** Vocabulary of the statements *)

(** The specification's wording of the second search of the structured-object
    mode, "the first balanced brace-delimited substring": from the first
    opening brace that has a matching closing brace, through that brace. *)
Fixpoint balancedRest (depth : nat) (s : text) : option text :=
  match s with
  | [] => None
  | c :: r =>
      if c =? 123 then option_map (cons c) (balancedRest (S depth) r)
      else if c =? 125 then
        match depth with
        | O => Some [c]
        | S d => option_map (cons c) (balancedRest d r)
        end
      else option_map (cons c) (balancedRest depth r)
  end.

Definition balancedPattern (_ : option code_unit) (s : text) : option text :=
  match s with
  | 123 :: r => option_map (cons 123) (balancedRest 0 r)
  | _ => None
  end.

Definition firstBalancedBraces (llmResponse : text) : option text :=
  matchGroup balancedPattern llmResponse.

(** No code unit of the text is a line terminator. *)
Definition oneLine (t : text) : bool := forallb (fun c => negb (isLineTerminator c)) t.

(** The category score the first pass records, if any. *)
Definition extractedScore (llmResponse category : text) : option number :=
  match matchGroup (scorePattern category) llmResponse with
  | Some ((_ :: _) as g) =>
      if negb (isNaN (parseFloat g)) then Some (parseFloat g) else None
  | _ => None
  end.

(** The category justification the first pass records, if any. *)
Definition extractedJustification (llmResponse category : text) : option text :=
  match matchGroup (justificationPattern category) llmResponse with
  | Some ((_ :: _) as g) => Some (trim g)
  | _ => None
  end.

(** A reply that scores the first category 15 and says nothing else. *)
Definition fifteen : text := str "SCORE theological_cohesion: 15".

(** A reply that gives the first category an explicit zero, with the very
    words of the default justification. *)
Definition explicitZero : text :=
  lines [ str "SCORE theological_cohesion: 0";
          str "JUSTIFICATION theological_cohesion: No evaluation provided." ].

(** The two names on which the category lists differ, and the header key of
    the score map. *)
Definition embodied_authority : text := str "embodied_authority".

Definition improvisational_trust : text := str "improvisational_trust".

Definition radar_score_key : text := str "radar_score".

(** The keys the object literal [mergedMetadata] writes after the two
    spreads. *)
Definition overridden : list text :=
  [ str "bolt"; str "themes"; str "metaphors"; str "radar_score";
    str "radar_justifications" ].

(** The example of the specification. *)
Definition existingExample : object :=
  [ (str "title", VStr (str "A")); (str "themes", VArr [VStr (str "x")]) ].

Definition extractedExample : value :=
  VObj [ (str "title", VStr (str "B")); (str "themes", VArr [VStr (str "y")]);
         (str "scores", VObj [(str "cat1", num 7)]) ].

(** A text between double quotes. *)
Definition quoted (s : text) : text := [34] ++ s ++ [34].

(** A reply that is one JSON object with an object inside. *)
Definition nested : text :=
  str "{" ++ quoted (str "a") ++ str ":{" ++ quoted (str "b") ++ str ":1}}".

(** The wait before retry number [k] (counted from 0) after an overload. *)
Definition overloadWait (k : nat) : N := 5000 * 2 ^ N.of_nat k.

(** [options] with the flag [fallbackModel] set to [b]. *)
Definition withFallback (b : bool) (o : fileOptions) : fileOptions :=
  mkFileOptions (generateMissing o) (updateExisting o) (scoreOnly o) (dryRun o)
    (opt_useClaude o) (opt_useOpenRouter o) (opt_model o) b
    (modelForMetadata o) (modelForRadar o).

(** Score-only options with the fallback switched on. *)
Definition scoreOnlyWithFallback : fileOptions :=
  mkFileOptions false false true false false false (Some (str "gpt-4")) true
    None (Some (str "gpt-4")).

(** The provider's answer to a request does not depend on the requests made
    before it. *)
Definition historyFree (llm : request -> list request -> completion text) : Prop :=
  forall rq h h', llm rq h = llm rq h'.

End Scenarios.

Import Scenarios.

(* ===================================================================== *)
(** ** openrouter-client.js: model identifiers and the request payload *)
(* ===================================================================== *)

Module OpenRouterClient.

(** [s.startsWith(p)] *)
Definition startsWithb (p s : text) : bool :=
  match startsWith p s with Some _ => true | None => false end.

Definition isOpenAIModel (model : text) : bool :=
  startsWithb (str "openai/") model
  || includes (str "gpt") model
  || startsWithb (str "text-") model
  || startsWithb (str "davinci") model.

Definition isClaudeModel (model : text) : bool :=
  startsWithb (str "anthropic/") model || includes (str "claude") model.

Definition formatModelId (modelId : text) : text :=
  if includes (str "/") modelId then modelId
  else if includes (str "claude") modelId then str "anthropic/" ++ modelId
  else if includes (str "gpt") modelId || includes (str "text-davinci") modelId
       then str "openai/" ++ modelId
       else modelId.

(** The object literal [payload] of [createChatCompletion]. *)
Definition payload (model messages : value) (options : object) : object :=
  spread
    [ (str "model", model);
      (str "messages", messages);
      (str "temperature",
       or_else (get options (str "temperature")) (VNum (Fin (3 # 10))));
      (str "max_tokens", or_else (get options (str "max_tokens")) (num 1500)) ]
    (VObj options).

(** The third argument both call wrappers hand to [createChatCompletion]. *)
Definition wrapperOptions (options : object) : object :=
  [ (str "temperature",
     or_else (get options (str "temperature")) (VNum (Fin (3 # 10))));
    (str "max_tokens", or_else (get options (str "max_tokens")) (num 1500)) ].

End OpenRouterClient.

(* ===================================================================== *)
(** ** llm-metadata-generator.js: [callOpenAIWithRetry] *)
(* ===================================================================== *)

Module OpenAIRetry.

(** The two fields of a provider error that the [catch] reads. *)
Record apiError := mkApiError {
  err_code : value;
  err_headers : value
}.

Inductive thrown :=
| Provider (e : apiError)
| Raised (e : exn).

Inductive outcome :=
| Returned (response : text)
| Threw (t : thrown).

Record trace := mkTrace {
  attempts : nat;
  waits : list number
}.

Definition decimalDigit (c : code_unit) : option N :=
  if isDigit c then Some (c - 48) else None.

Definition hexDigit (c : code_unit) : option N :=
  if isDigit c then Some (c - 48)
  else if (97 <=? c) && (c <=? 102) then Some (c - 87)
  else if (65 <=? c) && (c <=? 70) then Some (c - 55)
  else None.

(** The value of the longest prefix of digits, if there is a digit. *)
Fixpoint digitsPrefix (digit : code_unit -> option N) (radix : N) (s : text)
    (acc : option N) : option N :=
  match s with
  | [] => acc
  | c :: r =>
      match digit c with
      | Some d =>
          digitsPrefix digit radix r
            (Some (match acc with Some a => a * radix + d | None => d end))
      | None => acc
      end
  end.

(** The double nearest to a natural number, ties to even: the number itself
    up to 2^53, the number rounded to 53 significant bits beyond that, and
    [Infinity] when the rounded number reaches 2^1024. *)
Definition nearestDouble (n : N) : number :=
  if n <=? 2 ^ 53 then Fin (inject_Z (Z.of_N n))
  else
    let e := N.log2 n - 52 in
    let q := N.shiftr n e in
    let r := n - N.shiftl q e in
    let half := N.shiftl 1 (e - 1) in
    let q := if (half <? r) || ((r =? half) && N.odd q) then q + 1 else q in
    if 2 ^ 1024 <=? N.shiftl q e then PosInf
    else Fin (inject_Z (Z.of_N (N.shiftl q e))).

Definition negate (n : number) : number :=
  match n with
  | Fin q => Fin (- q)
  | PosInf => NegInf
  | NegInf => PosInf
  | NaN => NaN
  end.

(** [parseInt(v)] without a radix: ToString, leading white space, a sign, a
    [0x] prefix, then the digits; the result is the double nearest to the
    integer read. *)
Definition parseInt (v : value) : number :=
  let s := trimStart (toString v) in
  let '(negative, s) :=
    match s with
    | c :: r =>
        if c =? 45 then (true, r)
        else if c =? 43 then (false, r)
        else (false, s)
    | [] => (false, s)
    end in
  let parsed :=
    match s with
    | a :: b :: r =>
        if (a =? 48) && ((b =? 120) || (b =? 88))
        then digitsPrefix hexDigit 16 r None
        else digitsPrefix decimalDigit 10 s None
    | _ => digitsPrefix decimalDigit 10 s None
    end in
  match parsed with
  | None => NaN
  | Some n => if negative then negate (nearestDouble n) else nearestDouble n
  end.

(** [n * 1000] for what [parseInt] gave, which is [NaN], an infinity or an
    integer: the double nearest to the product. *)
Definition seconds (n : number) : number :=
  match n with
  | Fin q =>
      let product := nearestDouble (Z.abs_N (Qnum q * 1000 / Zpos (Qden q))) in
      if (Qnum q <? 0)%Z then negate product else product
  | _ => n
  end.

(** [error.code === 'rate_limit_exceeded'] *)
Definition rateLimited (error : apiError) : bool :=
  match err_code error with
  | VStr s => text_eqb s (str "rate_limit_exceeded")
  | _ => false
  end.

(** The TypeError of a property read on [undefined] or [null]. *)
Definition headersTypeError : exn :=
  Error (str "Cannot read properties of undefined (reading 'retry-after-ms')").

(** [parseInt(error.headers['retry-after-ms']) ||
     (parseInt(error.headers['retry-after']) * 1000) || 2000] *)
Definition waitTime (error : apiError) : completion number :=
  match err_headers error with
  | VUndef | VNull => Throw headersTypeError
  | headers =>
      let ms := parseInt (getv headers (str "retry-after-ms")) in
      if truthy (VNum ms) then Normal ms
      else
        let s := seconds (parseInt (getv headers (str "retry-after"))) in
        if truthy (VNum s) then Normal s else Normal (Fin 2000)
  end.

Section Call.

Variable useOpenRouter : bool.
(** Whether the OpenAI client was constructed ([OPENAI_API_KEY]). *)
Variable openaiConfigured : bool.
(** [openRouter.createChatCompletion(...)] for this call. *)
Variable openRouterCall : outcome.
(** [openai.chat.completions.create(...)]: the outcome of the provider's n-th
    request of this call, counted from 0. *)
Variable create : nat -> text + apiError.

Variable maxRetries : nat.

(** The [while (true)] loop, from the state [retries] and the trace so far. *)
Equations? rateLimitLoop (retries : nat) (tr : trace) : outcome * trace
  by wf (maxRetries - retries)%nat lt :=
  rateLimitLoop retries tr with create (attempts tr) := {
    | inl response => (Returned response, mkTrace (S (attempts tr)) (waits tr))
    | inr error with rateLimited error := {
        | false => (Threw (Provider error), mkTrace (S (attempts tr)) (waits tr))
        | true with lt_dec retries maxRetries := {
            | right _ =>
                (Threw (Provider error), mkTrace (S (attempts tr)) (waits tr))
            | left _ with waitTime error := {
                | Throw typeError =>
                    (Threw (Raised typeError), mkTrace (S (attempts tr)) (waits tr))
                | Normal w =>
                    rateLimitLoop (S retries)
                      (mkTrace (S (attempts tr)) (waits tr ++ [w]))
              }
          }
      }
  }.
Proof. lia. Qed.

Definition callOpenAIWithRetry : outcome * trace :=
  if useOpenRouter then
    (openRouterCall, mkTrace 0 [])
  else if negb openaiConfigured then
    (Threw (Raised (Error (str "OpenAI API key not configured and OpenRouter not enabled"))),
     mkTrace 0 [])
  else rateLimitLoop 0 (mkTrace 0 []).

End Call.

End OpenAIRetry.

(* ===================================================================== *)
(** ** llm-metadata-generator.js: [printJustifications] *)
(* ===================================================================== *)

Module Printing.

Section Print.

(** ToNumber on a string. *)
Variable stringToNumber : text -> number.

(** ToNumber; an array or an object goes through its string. *)
Definition toNumber (v : value) : number :=
  match v with
  | VUndef => NaN
  | VNull => Fin 0
  | VBool true => Fin 1
  | VBool false => Fin 0
  | VNum n => n
  | VStr s => stringToNumber s
  | VArr _ | VObj _ => stringToNumber (toString v)
  end.

(** [n < q] and [n > q] on numbers. *)
Definition below (n : number) (q : Q) : bool :=
  match n with
  | Fin x => match x ?= q with Lt => true | _ => false end
  | NegInf => true
  | _ => false
  end%Q.

Definition above (n : number) (q : Q) : bool :=
  match n with
  | Fin x => match x ?= q with Gt => true | _ => false end
  | PosInf => true
  | _ => false
  end%Q.

(** [score === undefined || isNaN(score) || score < 0 || score > 10] *)
Definition unusable (score : value) : bool :=
  isUndefined score
  || isNaN (toNumber score)
  || below (toNumber score) 0
  || above (toNumber score) 10.

(** One round of the [forEach]: the two objects as it leaves them and the
    line it prints. *)
Definition printCategory (acc : object * object * list text) (category : text)
  : object * object * list text :=
  let '(scores, reasons, out) := acc in
  let '(scores, reasons) :=
    if unusable (get scores category)
    then (set category VNull scores, set category (VStr noEvaluation) reasons)
    else (scores, reasons) in
  (scores, reasons,
   out ++ [str "- " ++ category ++ str ": " ++ toString (get scores category)
             ++ str " - " ++ toString (get reasons category)]).

Definition rule : text :=
  str "----------------------------------------------------------------".

(** [printJustifications(radar_score, justifications, modelName)] with the
    clock reading as [timestamp]: the two objects after the call and the
    lines printed. *)
Definition printJustifications (timestamp : text) (scores reasons : object)
    (modelName : text) : object * object * list text :=
  let '(scores, reasons, out) :=
    fold_left printCategory RADAR_CATEGORIES
      (scores, reasons,
       [ [10] ++ str "Score justifications [Model: " ++ modelName
           ++ str " | Generated: " ++ timestamp ++ str "]:";
         rule ]) in
  (scores, reasons, out ++ [rule]).

End Print.

End Printing.

(* ===================================================================== *)
(** ** yaml-generator.js: header completion and the plain header rewrite *)
(* ===================================================================== *)

Module YamlHeader.

Definition defaultRadarScore : object :=
  [ (str "theological_cohesion", num 0);
    (str "scriptural_integration", num 0);
    (str "structural_clarity", num 0);
    (str "liturgical_harmony", num 0);
    (str "voice_fidelity", num 0);
    (str "emotional_presence", num 0);
    (str "metaphorical_resonance", num 0);
    (str "closing_force", num 0);
    (str "improvisational_trust", num 0) ].

(** [s.padStart(2, '0')] *)
Definition padStart2 (s : text) : text :=
  match s with
  | [] => str "00"
  | [c] => [48; c]
  | _ => s
  end.

(** [s.slice(-2)] *)
Definition sliceLast2 (s : text) : text :=
  skipn (List.length s - 2) s.

(** [/Sermon \d{2}\.\d{2}\.\d{2}/] at one index: what follows the match. *)
Definition datedName (_ : option code_unit) (s : text) : option text :=
  match startsWith (str "Sermon ") s with
  | Some (a :: b :: 46 :: c :: d :: 46 :: e :: f :: rest) =>
      if isDigit a && isDigit b && isDigit c && isDigit d && isDigit e && isDigit f
      then Some rest else None
  | _ => None
  end.

(** [filename.replace(/Sermon \d{2}\.\d{2}\.\d{2}/, '').trim() || 'Untitled'] *)
Definition titleFromFilename (filename : text) : text :=
  let stripped :=
    match search datedName None filename with
    | Some (before, rest) => before ++ rest
    | None => filename
    end in
  match trim stripped with
  | [] => str "Untitled"
  | t => t
  end.

(** The text [updateFileWithYAML] assembles. *)
Definition yamlContent (newYaml content : text) : text :=
  str "---" ++ [10] ++ newYaml ++ str "---" ++ [10; 10] ++ trim content.

(** One entry of the array that [processSermonDirectory] returns. *)
Record sermon := mkSermon {
  path : text;
  data : object;
  validation : YamlGenerator.validation
}.

Section Header.

(** The year, month and day of luxon's [DateTime.fromISO]; each is NaN for a
    text that is not an ISO date. *)
Variable fromISO : value -> number * number * number.
(** [DateTime.now().toISODate()] *)
Variable today : text.
Variable load : text -> completion object.
Variable dump : object -> completion text.
(** [path.basename(filePath, '.md')] and [path.relative]. *)
Variable basename : text -> text.
Variable relative : text -> text -> text.

Definition generateManuscriptPath (dateStr : value) : text :=
  let '(year, month, day) := fromISO dateStr in
  let month := padStart2 (showNumber month) in
  let day := padStart2 (showNumber day) in
  str "/" ++ showNumber year ++ str "/Sermon " ++ month ++ str "." ++ day
    ++ str "." ++ sliceLast2 (showNumber year) ++ str ".md".

Definition generateSermonYAML (sermonData : object) : object :=
  let preachedOn := or_else (get sermonData (str "preached_on")) (VStr today) in
  let completeSermon :=
    [ (str "sermon_title",
       or_else (get sermonData (str "sermon_title")) (VStr (str "Untitled Sermon")));
      (str "preached_on", preachedOn);
      (str "texts", or_else (get sermonData (str "texts")) (VArr []));
      (str "bolt", or_else (get sermonData (str "bolt")) (VStr []));
      (str "themes", or_else (get sermonData (str "themes")) (VArr []));
      (str "metaphors", or_else (get sermonData (str "metaphors")) (VArr []));
      (str "radar_score",
       VObj (spread (spread [] (VObj defaultRadarScore))
                    (or_else (get sermonData (str "radar_score")) (VObj []))));
      (str "audio_url", or_else (get sermonData (str "audio_url")) (VStr []));
      (str "manuscript_path",
       or_else (get sermonData (str "manuscript_path"))
               (VStr (generateManuscriptPath preachedOn))) ] in
  if truthy (get sermonData (str "radar_justifications"))
  then set (str "radar_justifications")
           (get sermonData (str "radar_justifications")) completeSermon
  else completeSermon.

Definition updateFileWithYAML (filePath : text) (yamlData : object)
    (fs : filesystem) : bool * filesystem :=
  match readFileSync filePath fs with
  | Throw _ => (false, fs)
  | Normal fileContent =>
      match matter load fileContent with
      | Throw _ => (false, fs)
      | Normal (_, content) =>
          match dump yamlData with
          | Throw _ => (false, fs)
          | Normal newYaml =>
              (true, writeFileSync filePath (yamlContent newYaml content) fs)
          end
      end
  end.

(** The body of the [for] loop of [processSermonDirectory], from the header
    [yamlData] that [extractYAMLFromFile] has returned for the file. *)
Definition sermonEntry (yamlData : object) (directoryPath filePath : text) : sermon :=
  let validation := validateSermonYAML yamlData in
  let yamlData :=
    if negb (valid validation) && negb (truthy (get yamlData (str "sermon_title")))
    then set (str "sermon_title")
             (VStr (titleFromFilename (basename filePath))) yamlData
    else yamlData in
  let yamlData :=
    set (str "manuscript_path") (VStr (relative directoryPath filePath)) yamlData in
  mkSermon filePath yamlData validation.

End Header.

End YamlHeader.

(* ===================================================================== *)
(** ** Further worked examples *)
(* ===================================================================== *)

Module Cases.

(** A reply with a brace-delimited text and then a fenced block without a
    tag, and one whose fenced block has the tag. *)
Definition untaggedFence : text :=
  str "{x} ```" ++ [10] ++ str "{" ++ quoted (str "a") ++ str ":1}" ++ [10] ++ str "```".

Definition taggedFence : text :=
  str "Here {it} is: ```json" ++ [10] ++ str "{" ++ quoted (str "a") ++ str ":1}"
    ++ [10] ++ str "``` Done.".

(** An authentication failure: no retrying branch takes it. *)
Definition unauthorized : exn := mkExn (str "Unauthorized") (Some 401) None false.

(** A provider that is overloaded twice and then answers. *)
Definition twiceOverloaded (n : nat) : completion text :=
  match n with
  | 0%nat | 1%nat => Throw overloaded
  | _ => Normal (str "ok")
  end.

(** Two errors of the OpenAI client: an overload, and a rate limit that
    carries no [headers]. *)
Definition serverOverloaded : OpenAIRetry.apiError :=
  OpenAIRetry.mkApiError (VStr (str "overloaded")) (VObj []).

Definition bareRateLimit : OpenAIRetry.apiError :=
  OpenAIRetry.mkApiError (VStr (str "rate_limit_exceeded")) VUndef.

(** luxon's reading of one date; any other text is not a date. *)
Definition isoDateOfPalmSunday (dateStr : value) : number * number * number :=
  match dateStr with
  | VStr s =>
      if text_eqb s (str "2025-04-13")
      then (Fin (inject_Z 2025), Fin (inject_Z 4), Fin (inject_Z 13))
      else (NaN, NaN, NaN)
  | _ => (NaN, NaN, NaN)
  end.

(** A header for which [processSermonFile] finds nothing to generate: title,
    bolt, themes and metaphors are present, the two lists are not empty
    arrays, and the score map has a key. *)
Definition completeHeader (existingMetadata : object) : bool :=
  let em := get existingMetadata in
  truthy (em (str "sermon_title")) && truthy (em (str "bolt"))
  && truthy (em (str "themes")) && negb (emptyList (em (str "themes")))
  && truthy (em (str "metaphors")) && negb (emptyList (em (str "metaphors")))
  && truthy (em (str "radar_score"))
  && match ownProps (or_else (em (str "radar_score")) (VObj [])) with
     | [] => false
     | _ => true
     end.

(** The request is one of a run's own: its task's share of the sermon text,
    15000 code units for metadata and 25000 for scores, is not exceeded. *)
Definition withinShare (rq : request) : Prop :=
  (List.length (req_content rq)
   <= N.to_nat (match req_task rq with MetadataTask => 15000 | RadarTask => 25000 end))%nat.

(** A header with everything in place, and its document. *)
Definition fullHeader : object :=
  [ (str "sermon_title", VStr (str "Grace"));
    (str "bolt", VStr (str "Grace finds us."));
    (str "themes", VArr [VStr (str "grace")]);
    (str "metaphors", VArr [VStr (str "open door")]);
    (str "radar_score", VObj [(str "theological_cohesion", num 7)]) ].

Definition fullDocument : text :=
  lines [ str "---"; str "full"; str "---"; str ""; str "# Grace"; str "Text." ].

Definition fullEngine : text -> completion object :=
  loadFrom [([10] ++ str "full", fullHeader)].

(** [--update] with nothing else set, and a dry run of it. *)
Definition updateOptions : fileOptions :=
  mkFileOptions true true false false false false None false None None.

Definition dryRunOptions : fileOptions :=
  mkFileOptions true true false true false false None false None None.

Definition defaultOptions : fileOptions :=
  mkFileOptions true false false false false false None false None None.

(** gray-matter keeps what it made of a text and hands it out again for an
    equal text; [matter] is what it makes of a text it sees for the first
    time.  No two of the documents listed hold the same text. *)
Fixpoint distinctTexts (fs : filesystem) (found : list text) : bool :=
  match found with
  | [] => true
  | file :: rest =>
      match fs file with
      | None => true
      | Some t =>
          negb (existsb (fun other =>
                           match fs other with
                           | Some u => text_eqb (stripBom t) (stripBom u)
                           | None => false
                           end) rest)
      end && distinctTexts fs rest
  end.

(** The fields [updated] and [metadata] of a result; a failure record has
    [updated: false] and no metadata. *)
Definition updatedFlag (r : fileResult) : bool :=
  match r with
  | Processed _ _ _ _ updated => updated
  | Failed _ _ => false
  end.

Definition resultMetadata (r : fileResult) : object :=
  match r with
  | Processed _ metadata _ _ _ => metadata
  | Failed _ _ => []
  end.

(** *** A directory of five sermons, one of them without a bolt

    Four headers have a title, a bolt, themes and metaphors, the third has
    the title only; the provider's metadata has themes and nothing else. *)
Definition prepared (title : text) : text :=
  lines [ str "---"; str "sermon_title: " ++ title; str "bolt: Spark";
          str "themes: grace"; str "metaphors: door"; str "---"; str "";
          str "# " ++ title; str "Text." ].

Definition preparedHeader (title : text) : text * object :=
  (lines [ str ""; str "sermon_title: " ++ title; str "bolt: Spark";
           str "themes: grace"; str "metaphors: door" ],
   [ (str "sermon_title", VStr title); (str "bolt", VStr (str "Spark"));
     (str "themes", VStr (str "grace")); (str "metaphors", VStr (str "door")) ]).

Definition library : list (text * text) :=
  [ (str "a.md", prepared (str "A")); (str "b.md", prepared (str "B"));
    (str "c.md", sermon (str "C")); (str "d.md", prepared (str "D"));
    (str "e.md", prepared (str "E")) ].

Definition libraryStore : filesystem :=
  fold_right (fun kv fs => writeFileSync (fst kv) (snd kv) fs) (fun _ => None) library.

Definition libraryEngine : text -> completion object :=
  loadFrom (([10] ++ str "sermon_title: C", [(str "sermon_title", VStr (str "C"))])
              :: List.map preparedHeader [str "A"; str "B"; str "D"; str "E"]).

Definition themesOnly : text :=
  str "{" ++ quoted (str "themes") ++ str ":" ++ quoted (str "mercy") ++ str "}".

Definition themesProvider (rq : request) (_ : list request) : completion text :=
  match req_task rq with
  | RadarTask =>
      Normal (lines [ str "SCORE theological_cohesion: 7";
                      str "JUSTIFICATION theological_cohesion: Clear." ])
  | MetadataTask => Normal themesOnly
  end.

Definition themesParser : text -> completion value :=
  parseFrom [(themesOnly, VObj [(str "themes", VStr (str "mercy"))])].

End Cases.

Import Cases.

(* ===================================================================== *)
(** ** Facts about texts and objects *)
(* ===================================================================== *)

Module ObjectFacts.

(** Case analysis on the scrutinee of some [match] of the goal. *)
Ltac break_match :=
  match goal with
  | |- context [match ?x with _ => _ end] => destruct x eqn:?
  end.

Lemma text_eqb_eq (a b : text) : text_eqb a b = true <-> a = b.
Proof.
  revert b. induction a as [|x a IH]; destruct b as [|y b]; simpl;
    try (split; [discriminate | discriminate]); try (split; reflexivity).
  rewrite andb_true_iff, N.eqb_eq, IH. split.
  - intros [-> ->]. reflexivity.
  - intros E. injection E as -> ->. split; reflexivity.
Qed.

Lemma text_eqb_refl (a : text) : text_eqb a a = true.
Proof. apply text_eqb_eq. reflexivity. Qed.

Lemma text_eqb_neq (a b : text) : a <> b -> text_eqb a b = false.
Proof.
  intros H. destruct (text_eqb a b) eqn:E; [|reflexivity].
  apply text_eqb_eq in E. contradiction.
Qed.

Lemma text_eq_dec (a b : text) : {a = b} + {a <> b}.
Proof.
  destruct (text_eqb a b) eqn:E.
  - left. apply text_eqb_eq. exact E.
  - right. intros ->. rewrite text_eqb_refl in E. discriminate.
Qed.

Lemma get_set_same (k : text) (v : value) (o : object) : get (set k v o) k = v.
Proof.
  unfold get. induction o as [|[k' v'] o IH]; simpl.
  - rewrite text_eqb_refl. reflexivity.
  - destruct (text_eqb k k') eqn:E; simpl.
    + rewrite text_eqb_refl. reflexivity.
    + rewrite E. exact IH.
Qed.

Lemma get_set_other (k k' : text) (v : value) (o : object) :
  k' <> k -> get (set k v o) k' = get o k'.
Proof.
  intros H. unfold get. induction o as [|[k0 v0] o IH]; simpl.
  - rewrite (text_eqb_neq H). reflexivity.
  - destruct (text_eqb k k0) eqn:E; simpl.
    + apply text_eqb_eq in E. subst k0. rewrite (text_eqb_neq H). reflexivity.
    + destruct (text_eqb k' k0); [reflexivity | exact IH].
Qed.

Lemma get_remove_other (k k' : text) (o : object) :
  k' <> k -> get (JS.remove k o) k' = get o k'.
Proof.
  intros H. unfold get. induction o as [|[k0 v0] o IH]; simpl; [reflexivity|].
  destruct (text_eqb k k0) eqn:E; simpl.
  - apply text_eqb_eq in E. subst k0. rewrite (text_eqb_neq H). exact IH.
  - destruct (text_eqb k' k0); [reflexivity | exact IH].
Qed.

(** A spread copies each own key of the source with the source's value and
    leaves the target's other keys alone. *)
Lemma get_fold_set (src props target : object) (k : text) :
  get (fold_left (fun acc kv => set (fst kv) (get src (fst kv)) acc) props target) k
  = match lookup k props with
    | Some _ => get src k
    | None => get target k
    end.
Proof.
  revert target. induction props as [|[k0 v0] props IH]; intros target; simpl.
  - reflexivity.
  - rewrite IH. destruct (lookup k props) eqn:L.
    + destruct (text_eqb k k0); reflexivity.
    + destruct (text_eqb k k0) eqn:E.
      * apply text_eqb_eq in E. subst k0. apply get_set_same.
      * apply get_set_other. intros ->. rewrite text_eqb_refl in E. discriminate.
Qed.

Lemma get_spread (target : object) (v : value) (k : text) :
  get (spread target v) k
  = match lookup k (ownProps v) with
    | Some x => x
    | None => get target k
    end.
Proof.
  unfold spread. rewrite get_fold_set. unfold get.
  destruct (lookup k (ownProps v)); reflexivity.
Qed.

(** A fold whose step at a category reads and writes that category's entries
    only: the entries of a category after the fold are those of its own step
    on the initial accumulator. *)
Section KeyedFold.

Variable step : object * object -> text -> object * object.

Hypothesis step_other : forall acc c k, k <> c ->
  get (fst (step acc c)) k = get (fst acc) k
  /\ get (snd (step acc c)) k = get (snd acc) k.

Hypothesis step_local : forall acc acc' c,
  get (fst acc) c = get (fst acc') c -> get (snd acc) c = get (snd acc') c ->
  get (fst (step acc c)) c = get (fst (step acc' c)) c
  /\ get (snd (step acc c)) c = get (snd (step acc' c)) c.

Lemma fold_untouched (cats : list text) (acc : object * object) (k : text) :
  ~ In k cats ->
  get (fst (fold_left step cats acc)) k = get (fst acc) k
  /\ get (snd (fold_left step cats acc)) k = get (snd acc) k.
Proof.
  revert acc. induction cats as [|c cats IH]; intros acc H; simpl.
  - split; reflexivity.
  - destruct (IH (step acc c)) as [A B].
    { intros N. apply H. right. exact N. }
    destruct (step_other acc (c := c) (k := k)) as [C D].
    { intros ->. apply H. left. reflexivity. }
    rewrite A, B, C, D. split; reflexivity.
Qed.

Lemma fold_own_step (cats : list text) (acc : object * object) (k : text) :
  NoDup cats -> In k cats ->
  get (fst (fold_left step cats acc)) k = get (fst (step acc k)) k
  /\ get (snd (fold_left step cats acc)) k = get (snd (step acc k)) k.
Proof.
  revert acc. induction cats as [|c cats IH]; intros acc ND H; [destruct H|].
  inversion ND as [|? ? Hnot ND']; subst. simpl.
  destruct (text_eq_dec k c) as [->|Hkc].
  - apply fold_untouched. exact Hnot.
  - destruct H as [H|H]; [symmetry in H; contradiction|].
    destruct (IH (step acc c) ND' H) as [A B]. rewrite A, B.
    destruct (step_other acc (c := c) (k := k) Hkc) as [C D].
    apply step_local; assumption.
Qed.

End KeyedFold.

Lemma search_found {A : Type} (try : option code_unit -> text -> option A)
    (prev : option code_unit) (s before : text) (a : A) :
  search try prev s = Some (before, a) ->
  exists prev' s', try prev' s' = Some a.
Proof.
  revert prev before. induction s as [|c s IH]; intros prev before; simpl.
  - destruct (try prev []) eqn:E; [|discriminate].
    intros H. injection H as _ ->. eauto.
  - destruct (try prev (c :: s)) eqn:E.
    + intros H. injection H as _ ->. eauto.
    + destruct (search try (Some c) s) as [[b x]|] eqn:F; [|discriminate].
      intros H. injection H as _ ->. eapply IH. exact F.
Qed.

Lemma greedySpaces_found {A : Type} (k : text -> option A) (s : text) (a : A) :
  greedySpaces k s = Some a -> exists t, k t = Some a.
Proof.
  induction s as [|c s IH]; simpl.
  - eauto.
  - destruct (isWhiteSpace c); [|eauto].
    destruct (greedySpaces k s) eqn:E.
    + intros H. injection H as ->. apply IH. reflexivity.
    + eauto.
Qed.

Lemma startsWith_app (p s : text) : startsWith p (p ++ s) = Some s.
Proof.
  induction p as [|x p IH]; [reflexivity|].
  simpl. rewrite N.eqb_refl. exact IH.
Qed.

Lemma search_here {A : Type} (try : option code_unit -> text -> option A)
    (prev : option code_unit) (s : text) (a : A) :
  try prev s = Some a -> search try prev s = Some ([], a).
Proof. intros H. destruct s; simpl; rewrite H; reflexivity. Qed.

(** A search whose pattern does not look at the preceding unit finds the
    same thing whatever that unit is. *)
Lemma search_prev {A : Type} (f : text -> option A) (p p' : option code_unit) (s : text) :
  search (fun _ t => f t) p s = search (fun _ t => f t) p' s.
Proof. destruct s; reflexivity. Qed.

(** Where one pattern fails wherever another fails, it is found nowhere the
    other is found nowhere. *)
Lemma search_refines {A B : Type} (try1 : option code_unit -> text -> option A)
    (try2 : option code_unit -> text -> option B) :
  (forall p t, try1 p t = None -> try2 p t = None) ->
  forall s p, search try1 p s = None -> search try2 p s = None.
Proof.
  intros H. induction s as [|c s IH]; intros p; simpl.
  - destruct (try1 p []) eqn:E; [discriminate|]. rewrite (H _ _ E). reflexivity.
  - destruct (try1 p (c :: s)) eqn:E; [discriminate|]. rewrite (H _ _ E).
    destruct (search try1 (Some c) s) as [[b a]|] eqn:F; [discriminate|].
    rewrite (IH _ F). reflexivity.
Qed.

Lemma inhabited_not_empty {A : Type} (x : A) (l : list A) :
  In x l -> match l with [] => true | _ :: _ => false end = false.
Proof. destruct l; [intros [] | reflexivity]. Qed.

(** A score outside the range, under a key that validation goes through,
    makes the header invalid. *)
Lemma validate_flags (k : text) (yamlData rs : object) :
  In k scoreFields -> isUndefined (get rs k) = false -> invalidScore (get rs k) = true ->
  valid (validateSermonYAML (set radar_score_key (VObj rs) yamlData)) = false.
Proof.
  intros H U I. unfold validateSermonYAML. fold radar_score_key.
  rewrite get_set_same. cbn [truthy getv valid].
  apply (@inhabited_not_empty _
           (str "Invalid radar score for " ++ k
              ++ str ". Must be a number between 0 and 10.")).
  apply in_or_app. right. apply in_flat_map. exists k. split; [exact H|].
  rewrite U, I. left. reflexivity.
Qed.

End ObjectFacts.

Import ObjectFacts.

(* ===================================================================== *)
(** ** Properties of the Radar Analysis rewrite *)
(* ===================================================================== *)

Module RewriteProperties.

Lemma sectionEnd_at_line_feed (prev : option code_unit) (body : text) :
  sectionEnd prev (10 :: body) = true.
Proof. unfold sectionEnd. apply orb_true_r. Qed.

Lemma sectionEnd_inside_line (prev c : code_unit) (s : text) :
  isLineTerminator prev = false -> isLineTerminator c = false ->
  sectionEnd (Some prev) (c :: s) = false.
Proof.
  intros Hp Hc. unfold sectionEnd, lineStart. rewrite Hp.
  cbn [andb orb newlinesThenEnd lineEnd]. rewrite Hc. cbn [orb].
  destruct c as [|p]; [reflexivity|].
  destruct (N.eqb_spec (N.pos p) 10) as [E|E].
  - rewrite E in Hc. discriminate.
  - do 4 (destruct p; try reflexivity); exfalso; apply E; reflexivity.
Qed.

Lemma lazyUntil_line_end (tail body : text) (prev : code_unit) :
  oneLine (prev :: tail) = true ->
  lazyUntil sectionEnd (Some prev) (tail ++ 10 :: body) = Some (tail, 10 :: body).
Proof.
  revert prev. induction tail as [|c tail IH]; intros prev H.
  - change ([] ++ 10 :: body) with (10 :: body). cbn [lazyUntil].
    rewrite sectionEnd_at_line_feed. reflexivity.
  - simpl in H. apply andb_true_iff in H. destruct H as [Hp H].
    pose proof H as Hc. apply andb_true_iff in Hc. destruct Hc as [Hc _].
    apply negb_true_iff in Hp, Hc.
    change ((c :: tail) ++ 10 :: body) with (c :: (tail ++ 10 :: body)).
    cbn [lazyUntil]. rewrite sectionEnd_inside_line by assumption.
    rewrite IH; [reflexivity|]. simpl. exact H.
Qed.

(** What the removal pattern takes when the body opens with the marker: the
    marker's own line, up to its line feed, and nothing of what follows. *)
Lemma removeRadar_marker_line (tail body : text) :
  oneLine tail = true ->
  removeRadar (heading ++ tail ++ 10 :: body) = 10 :: body.
Proof.
  intros H. unfold removeRadar.
  rewrite (@search_here _ radarPattern None _ (heading ++ tail, 10 :: body)).
  - reflexivity.
  - unfold radarPattern. cbn [lineStart]. rewrite startsWith_app.
    change (last heading 0) with 115.
    rewrite lazyUntil_line_end; [reflexivity|]. simpl. exact H.
Qed.

(** C2 (code defect). The removal is meant to take the section from its marker
    to the next top-level heading or the end of the body; the pattern's [m]
    flag makes [$] hold at the end of the marker's own line, so for every
    body that opens with the marker only the marker line's text is removed,
    and in the worked example the old section's lines survive the rewrite. *)
Theorem removeRadar_keeps_section_body :
  (forall body : text, removeRadar (heading ++ 10 :: body) = 10 :: body)
  /\ removeRadar
       (lines [ str "## Radar Analysis"; str "_Generated by model: old | then_"; str "";
                str "- **Theological Cohesion (3/10)**: Stale."; str "";
                str "# Grace"; str "Text." ])
     = lines [ str ""; str "_Generated by model: old | then_"; str "";
               str "- **Theological Cohesion (3/10)**: Stale."; str "";
               str "# Grace"; str "Text." ].
Proof.
  split.
  - intros body. apply (removeRadar_marker_line [] body). reflexivity.
  - vm_compute. reflexivity.
Qed.

Lemma radarPattern_marker_line (prev : option code_unit) (tail body : text) :
  lineStart prev = true -> oneLine tail = true ->
  radarPattern prev (heading ++ tail ++ 10 :: body) = Some (heading ++ tail, 10 :: body).
Proof.
  intros L H. unfold radarPattern. rewrite L, startsWith_app.
  change (last heading 0) with 115.
  rewrite lazyUntil_line_end; [reflexivity|]. simpl. exact H.
Qed.

(** The body that gray-matter hands back for a rewritten document opens with
    a line feed and the section; the removal takes the marker text only. *)
Lemma removeRadar_after_rewrite (rest : text) :
  removeRadar (10 :: heading ++ 10 :: rest) = 10 :: 10 :: rest.
Proof.
  unfold removeRadar.
  assert (E : search radarPattern None (10 :: heading ++ 10 :: rest)
              = Some ([10], (heading, 10 :: rest))).
  { cbn [search]. change (radarPattern None (10 :: heading ++ 10 :: rest)) with (@None (text * text)).
    rewrite (@search_here _ radarPattern (Some 10) _ (heading, 10 :: rest)); [reflexivity|].
    apply (@radarPattern_marker_line (Some 10) [] rest); reflexivity. }
  rewrite E. reflexivity.
Qed.

Lemma dropWhile_keeps_last (p : code_unit -> bool) (l : text) (c : code_unit) :
  p c = false -> dropWhile p (l ++ [c]) <> [].
Proof.
  intros H. induction l as [|x l IH]; simpl.
  - rewrite H. discriminate.
  - destruct (p x); [exact IH | discriminate].
Qed.

Lemma trimEnd_keeps_head (c : code_unit) (s : text) :
  isWhiteSpace c = false -> trimEnd (c :: s) <> [].
Proof.
  intros H E. unfold trimEnd in E. simpl rev in E.
  apply (f_equal (@rev code_unit)) in E. rewrite rev_involutive in E. simpl in E.
  exact (@dropWhile_keeps_last isWhiteSpace (rev s) c H E).
Qed.

Lemma trimEnd_fixed_app (g b : text) :
  trimEnd b = b -> b <> [] -> trimEnd (g ++ b) = g ++ b.
Proof.
  intros E N. unfold trimEnd in *. rewrite rev_app_distr.
  destruct (rev b) as [|x t] eqn:R.
  - apply (f_equal (@rev code_unit)) in R. rewrite rev_involutive in R. contradiction.
  - simpl in E. cbn [app dropWhile]. destruct (isWhiteSpace x) eqn:W.
    + exfalso. apply (f_equal (@List.length code_unit)) in E.
      rewrite length_rev in E.
      assert (L : (List.length (dropWhile isWhiteSpace t) <= List.length t)%nat).
      { clear. induction t as [|y t IH]; simpl; [lia|].
        destruct (isWhiteSpace y); simpl; lia. }
      apply (f_equal (@List.length code_unit)) in R. rewrite length_rev in R.
      simpl in R. lia.
    + change (x :: t ++ rev g) with ((x :: t) ++ rev g).
      rewrite rev_app_distr, rev_involutive, E. reflexivity.
Qed.

Lemma trimEnd_idempotent (s : text) : trimEnd (trimEnd s) = trimEnd s.
Proof.
  unfold trimEnd. rewrite rev_involutive. f_equal.
  induction (rev s) as [|x t IH]; simpl; [reflexivity|].
  destruct (isWhiteSpace x) eqn:W; [exact IH|].
  simpl. rewrite W. reflexivity.
Qed.

(** A second rewrite of a rewritten body, with the same inputs, puts out the
    old section's lines again: the new body is longer than the old one. *)
Lemma second_body_is_longer (timestamp modelName : text)
    (yamlData justifications : object) (content : text) :
  (List.length (trim (removeRadar content))
   < List.length (trim (removeRadar
                          (10%N :: radarSection timestamp modelName yamlData justifications
                                     ++ trim (removeRadar content)))))%nat.
Proof.
  set (body := trim (removeRadar content)).
  assert (S : exists g,
             radarSection timestamp modelName yamlData justifications
             = heading ++ 10 :: 95 :: g).
  { eexists. unfold radarSection. reflexivity. }
  destruct S as [g ->].
  rewrite <- app_assoc. cbn [app].
  change (heading ++ 10 :: 95 :: g ++ body) with (heading ++ 10 :: (95 :: g ++ body)).
  rewrite removeRadar_after_rewrite.
  unfold trim at 1. change (trimStart (10 :: 10 :: 95 :: g ++ body)) with (95 :: g ++ body).
  assert (B : trimEnd body = body) by (unfold body, trim; apply trimEnd_idempotent).
  destruct body as [|x body'] eqn:Eb.
  - rewrite app_nil_r. simpl List.length.
    assert (N : trimEnd (95 :: g) <> []) by (apply trimEnd_keeps_head; reflexivity).
    destruct (trimEnd (95 :: g)); [contradiction | simpl; lia].
  - change (95 :: g ++ x :: body') with ((95 :: g) ++ x :: body').
    rewrite trimEnd_fixed_app by (assumption || discriminate).
    rewrite length_app. simpl. lia.
Qed.

(** C1 (code defect).  With the header text, section inputs, model name and
    clock reading held fixed, rewriting the body of a rewritten document gives
    a longer document than the first rewrite did, for every document; in the
    worked example the first rewrite yields [rewrittenOnce] and rewriting that
    result yields [rewrittenTwice], which carries the first run's section
    lines a second time.  The second application is not a no-op. *)
Theorem rewrite_twice_differs :
  (forall timestamp modelName newYaml yamlData justifications content,
     let first :=
       newContent timestamp modelName newYaml yamlData justifications content in
     let second :=
       newContent timestamp modelName newYaml yamlData justifications
         (10 :: radarSection timestamp modelName yamlData justifications
             ++ trim (removeRadar content)) in
     (List.length first < List.length second)%nat)
  /\ (let fs1 := snd (rewriteSermon (storeWith originalDocument)) in
      let fs2 := snd (rewriteSermon fs1) in
      fs1 sermonPath = Some rewrittenOnce /\ fs2 sermonPath = Some rewrittenTwice
      /\ text_eqb rewrittenTwice rewrittenOnce = false
      /\ (List.length rewrittenOnce < List.length rewrittenTwice)%nat).
Proof.
  split.
  - intros ts m ny y j c first second. subst first second. unfold newContent.
    rewrite !length_app.
    pose proof (second_body_is_longer ts m y j c).
    lia.
  - cbv zeta. repeat split; try (vm_compute; reflexivity).
    apply Nat.ltb_lt. vm_compute. reflexivity.
Qed.

End RewriteProperties.

(* ===================================================================== *)
(** ** Properties of the labeled-score extraction *)
(* ===================================================================== *)

Module ExtractionProperties.

Lemma RADAR_CATEGORIES_NoDup : NoDup RADAR_CATEGORIES.
Proof.
  unfold RADAR_CATEGORIES.
  repeat (constructor; [ simpl; intuition discriminate | ]).
  constructor.
Qed.

Lemma extractCategory_eq (llmResponse : text) (acc : object * object) (c : text) :
  extractCategory llmResponse acc c
  = (match extractedScore llmResponse c with
     | Some n => set c (VNum n) (fst acc)
     | None => fst acc
     end,
     match extractedJustification llmResponse c with
     | Some j => set c (VStr j) (snd acc)
     | None => snd acc
     end).
Proof.
  destruct acc as [rs js]. unfold extractCategory, extractedScore, extractedJustification.
  destruct (matchGroup (scorePattern c) llmResponse) as [[|x g]|];
    destruct (matchGroup (justificationPattern c) llmResponse) as [[|y h]|];
    simpl; try reflexivity;
    destruct (isNaN (parseFloat (x :: g))); reflexivity.
Qed.

Lemma extractCategory_other (llmResponse : text) (acc : object * object) (c k : text) :
  k <> c ->
  get (fst (extractCategory llmResponse acc c)) k = get (fst acc) k
  /\ get (snd (extractCategory llmResponse acc c)) k = get (snd acc) k.
Proof.
  intros H. rewrite extractCategory_eq. cbn [fst snd].
  destruct (extractedScore llmResponse c), (extractedJustification llmResponse c);
    rewrite ?get_set_other by exact H; split; reflexivity.
Qed.

Lemma extractCategory_local (llmResponse : text) (acc acc' : object * object) (c : text) :
  get (fst acc) c = get (fst acc') c -> get (snd acc) c = get (snd acc') c ->
  get (fst (extractCategory llmResponse acc c)) c
    = get (fst (extractCategory llmResponse acc' c)) c
  /\ get (snd (extractCategory llmResponse acc c)) c
    = get (snd (extractCategory llmResponse acc' c)) c.
Proof.
  intros A B. rewrite !extractCategory_eq. cbn [fst snd].
  destruct (extractedScore llmResponse c), (extractedJustification llmResponse c);
    rewrite ?get_set_same; split; auto.
Qed.

Lemma fillCategory_eq (acc : object * object) (c : text) :
  fillCategory acc c
  = if isUndefined (get (fst acc) c)
    then (set c (num 0) (fst acc), set c (VStr noEvaluation) (snd acc))
    else acc.
Proof. destruct acc. reflexivity. Qed.

Lemma fillCategory_other (acc : object * object) (c k : text) :
  k <> c ->
  get (fst (fillCategory acc c)) k = get (fst acc) k
  /\ get (snd (fillCategory acc c)) k = get (snd acc) k.
Proof.
  intros H. rewrite fillCategory_eq.
  destruct (isUndefined (get (fst acc) c)); cbn [fst snd];
    rewrite ?get_set_other by exact H; split; reflexivity.
Qed.

Lemma fillCategory_local (acc acc' : object * object) (c : text) :
  get (fst acc) c = get (fst acc') c -> get (snd acc) c = get (snd acc') c ->
  get (fst (fillCategory acc c)) c = get (fst (fillCategory acc' c)) c
  /\ get (snd (fillCategory acc c)) c = get (snd (fillCategory acc' c)) c.
Proof.
  intros A B. rewrite !fillCategory_eq. rewrite <- A.
  destruct (isUndefined (get (fst acc) c)); cbn [fst snd];
    rewrite ?get_set_same; split; auto.
Qed.

(** The entries of a listed category after the first pass. *)
Lemma extractLabeled_at (llmResponse c : text) :
  In c RADAR_CATEGORIES ->
  get (fst (extractLabeled llmResponse)) c
    = match extractedScore llmResponse c with Some n => VNum n | None => VUndef end
  /\ get (snd (extractLabeled llmResponse)) c
    = match extractedJustification llmResponse c with
      | Some j => VStr j
      | None => VUndef
      end.
Proof.
  intros H. unfold extractLabeled.
  destruct (@fold_own_step (extractCategory llmResponse)
              (extractCategory_other llmResponse)
              (extractCategory_local llmResponse)
              RADAR_CATEGORIES ([], []) c RADAR_CATEGORIES_NoDup H) as [A B].
  rewrite A, B, extractCategory_eq. cbn [fst snd].
  destruct (extractedScore llmResponse c), (extractedJustification llmResponse c);
    rewrite ?get_set_same; split; reflexivity.
Qed.

(** The entries of a listed category in what [generateRadarScores] returns. *)
Lemma radarScores_at (llmResponse c : text) :
  In c RADAR_CATEGORIES ->
  get (fst (radarScoresOfReply llmResponse)) c
    = match extractedScore llmResponse c with Some n => VNum n | None => num 0 end
  /\ get (snd (radarScoresOfReply llmResponse)) c
    = match extractedScore llmResponse c with
      | Some _ =>
          match extractedJustification llmResponse c with
          | Some j => VStr j
          | None => VUndef
          end
      | None => VStr noEvaluation
      end.
Proof.
  intros H. unfold radarScoresOfReply, fillDefaults.
  destruct (@fold_own_step fillCategory fillCategory_other fillCategory_local
              RADAR_CATEGORIES (extractLabeled llmResponse) c
              RADAR_CATEGORIES_NoDup H) as [A B].
  rewrite A, B, fillCategory_eq.
  destruct (extractLabeled_at llmResponse H) as [C D]. rewrite C.
  destruct (extractedScore llmResponse c); cbn [isUndefined fst snd].
  - split; assumption.
  - rewrite !get_set_same. split; reflexivity.
Qed.

(** A key outside the list is in neither object. *)
Lemma radarScores_unlisted (llmResponse k : text) :
  ~ In k RADAR_CATEGORIES ->
  get (fst (radarScoresOfReply llmResponse)) k = VUndef
  /\ get (snd (radarScoresOfReply llmResponse)) k = VUndef.
Proof.
  intros H. unfold radarScoresOfReply, fillDefaults, extractLabeled.
  destruct (@fold_untouched fillCategory fillCategory_other RADAR_CATEGORIES
              (fold_left (extractCategory llmResponse) RADAR_CATEGORIES ([], [])) k H)
    as [A B].
  destruct (@fold_untouched (extractCategory llmResponse)
              (extractCategory_other llmResponse) RADAR_CATEGORIES ([], []) k H)
    as [C D].
  rewrite A, B, C, D. split; reflexivity.
Qed.

Lemma takeWhile_head (p : code_unit -> bool) (s : text) (d : code_unit) (r : text) :
  takeWhile p s = d :: r -> p d = true /\ exists s', s = d :: s'.
Proof.
  destruct s as [|c s]; simpl; [discriminate|].
  destruct (p c) eqn:E; [|discriminate].
  intros H. injection H as <- _. split; [exact E | eauto].
Qed.

Lemma parseDecimal_nonneg (intPart fracPart : text) :
  exists q, parseDecimal intPart fracPart = Fin q /\ (0 <= q)%Q.
Proof.
  unfold parseDecimal. eexists. split; [reflexivity|].
  rewrite Qred_correct. unfold Qle. simpl. lia.
Qed.

(** [parseFloat] yields NaN or a number that is not negative. *)
Lemma parseFloat_nonneg (g : text) :
  parseFloat g = NaN \/ exists q, parseFloat g = Fin q /\ (0 <= q)%Q.
Proof.
  unfold parseFloat. destruct (takeWhile isDigit g) as [|d ip]; [left; reflexivity|].
  right. destruct (dropWhile isDigit g) as [|x u].
  - apply parseDecimal_nonneg.
  - destruct x as [|p]; [apply parseDecimal_nonneg|].
    destruct (Pos.eq_dec p 46) as [->|N].
    + apply parseDecimal_nonneg.
    + do 6 (destruct p; try apply parseDecimal_nonneg); contradiction N; reflexivity.
Qed.

Lemma extractedScore_nonneg (llmResponse c : text) (n : number) :
  extractedScore llmResponse c = Some n -> exists q, n = Fin q /\ (0 <= q)%Q.
Proof.
  unfold extractedScore.
  destruct (matchGroup (scorePattern c) llmResponse) as [[|x g]|]; try discriminate.
  destruct (parseFloat_nonneg (x :: g)) as [E|[q [E Hq]]]; rewrite E; simpl.
  - discriminate.
  - intros H. injection H as <-. eauto.
Qed.

(** Group 1 of the score pattern opens with a digit, so [parseFloat] reads a
    number from it. *)
Lemma scorePattern_numeric (c : text) (prev : option code_unit) (s g : text) :
  scorePattern c prev s = Some g ->
  exists d r, g = d :: r /\ isNaN (parseFloat g) = false.
Proof.
  unfold scorePattern.
  destruct (startsWith_ci (str "SCORE " ++ c ++ str ":") s) as [r|]; [|discriminate].
  intros H. apply greedySpaces_found in H. destruct H as [t H].
  destruct (takeWhile isDigit t) as [|d ip] eqn:T; [discriminate|].
  destruct (takeWhile_head isDigit t T) as [Hd _].
  assert (G : exists rest, g = d :: rest).
  { destruct (dropWhile isDigit t) as [|x u].
    - injection H as <-. eauto.
    - destruct x as [|p]; [injection H as <-; eauto|].
      do 6 (destruct p; try (injection H as <-; eauto)).
      destruct (takeWhile isDigit u); injection H as <-; eauto. }
  destruct G as [rest ->]. exists d, rest. split; [reflexivity|].
  unfold parseFloat. simpl. rewrite Hd.
  destruct (dropWhile isDigit rest) as [|x u]; [reflexivity|].
  destruct x as [|p]; [reflexivity|].
  do 6 (destruct p; try reflexivity).
Qed.

Lemma extractedScore_matched (llmResponse c g : text) :
  matchGroup (scorePattern c) llmResponse = Some g ->
  extractedScore llmResponse c = Some (parseFloat g).
Proof.
  intros M. unfold extractedScore. rewrite M.
  unfold matchGroup in M.
  destruct (search (scorePattern c) None llmResponse) as [[b a]|] eqn:S; [|discriminate].
  injection M as ->. apply search_found in S. destruct S as [p [s S]].
  apply scorePattern_numeric in S. destruct S as [d [r [-> N]]].
  rewrite N. reflexivity.
Qed.

Lemma extractedScore_unmatched (llmResponse c : text) :
  matchGroup (scorePattern c) llmResponse = None ->
  extractedScore llmResponse c = None.
Proof. intros M. unfold extractedScore. rewrite M. reflexivity. Qed.

Lemma justificationPattern_nonempty (c : text) (prev : option code_unit) (s g : text) :
  justificationPattern c prev s = Some g -> exists x r, g = x :: r.
Proof.
  unfold justificationPattern.
  destruct (startsWith_ci (str "JUSTIFICATION " ++ c ++ str ":") s) as [r|]; [|discriminate].
  intros H. apply greedySpaces_found in H. destruct H as [t H].
  destruct t as [|x u]; [discriminate|].
  destruct (lazyUntil justificationEnd (Some x) u) as [[m rest]|]; [|discriminate].
  injection H as <-. eauto.
Qed.

Lemma extractedJustification_eq (llmResponse c : text) :
  extractedJustification llmResponse c
  = option_map trim (matchGroup (justificationPattern c) llmResponse).
Proof.
  unfold extractedJustification.
  destruct (matchGroup (justificationPattern c) llmResponse) as [g|] eqn:M; [|reflexivity].
  unfold matchGroup in M.
  destruct (search (justificationPattern c) None llmResponse) as [[b a]|] eqn:S;
    [|discriminate].
  injection M as ->. apply search_found in S. destruct S as [p [s S]].
  apply justificationPattern_nonempty in S. destruct S as [x [r ->]]. reflexivity.
Qed.

(** C4, counterexample.  On the reply [fifteen] the returned score of
    [theological_cohesion] is 15, which the validator's range test rejects,
    and the category has no justification at all. *)
Lemma score_above_ten_is_kept :
  get (fst (radarScoresOfReply fifteen)) (str "theological_cohesion") = num 15
  /\ invalidScore (num 15) = true
  /\ get (snd (radarScoresOfReply fifteen)) (str "theological_cohesion") = VUndef.
Proof. vm_compute. repeat split. Qed.

(** C4, amended.  After extraction and default-fill every one of the nine
    categories of [RADAR_CATEGORIES] has a numeric score that is not
    negative; the score is not held to the range up to 10.  A category whose
    score pattern matched nowhere has score 0 and the justification
    "No evaluation provided."; a category whose score was read has the parsed
    number and whatever justification was read for it, which may be absent.
    A score outside the range is what [validateSermonYAML] reports afterwards,
    for the categories it goes through. *)
Theorem scores_filled_not_bounded (llmResponse c : text) :
  In c RADAR_CATEGORIES ->
  (exists q, get (fst (radarScoresOfReply llmResponse)) c = VNum (Fin q) /\ (0 <= q)%Q)
  /\ (matchGroup (scorePattern c) llmResponse = None ->
      get (fst (radarScoresOfReply llmResponse)) c = num 0
      /\ get (snd (radarScoresOfReply llmResponse)) c = VStr noEvaluation)
  /\ (forall g, matchGroup (scorePattern c) llmResponse = Some g ->
      get (fst (radarScoresOfReply llmResponse)) c = VNum (parseFloat g)
      /\ get (snd (radarScoresOfReply llmResponse)) c
         = match matchGroup (justificationPattern c) llmResponse with
           | Some j => VStr (trim j)
           | None => VUndef
           end)
  /\ (forall yamlData,
        In c scoreFields ->
        invalidScore (get (fst (radarScoresOfReply llmResponse)) c) = true ->
        valid (validateSermonYAML
                 (set radar_score_key (VObj (fst (radarScoresOfReply llmResponse)))
                      yamlData))
        = false).
Proof.
  intros H. destruct (radarScores_at llmResponse H) as [A B].
  split; [|split; [|split]].
  - rewrite A. destruct (extractedScore llmResponse c) as [n|] eqn:E.
    + destruct (extractedScore_nonneg _ _ E) as [q [-> Hq]]. eauto.
    + exists 0%Q. split; [reflexivity|]. apply Qle_refl.
  - intros M. rewrite A, B, (extractedScore_unmatched _ _ M). split; reflexivity.
  - intros g M. rewrite A, B, (extractedScore_matched _ _ M), extractedJustification_eq.
    destruct (matchGroup (justificationPattern c) llmResponse); split; reflexivity.
  - intros yamlData S I. apply (@validate_flags c); [exact S | | exact I].
    rewrite A. destruct (extractedScore llmResponse c); reflexivity.
Qed.

Lemma scores_filled_not_bounded_witness :
  In (str "theological_cohesion") RADAR_CATEGORIES
  /\ (exists q, get (fst (radarScoresOfReply fifteen)) (str "theological_cohesion")
                  = VNum (Fin q) /\ (0 <= q)%Q).
Proof.
  assert (H : In (str "theological_cohesion") RADAR_CATEGORIES) by (left; reflexivity).
  split; [exact H|].
  exact (proj1 (scores_filled_not_bounded fifteen H)).
Defined.

(** C5, counterexample.  The result for the empty reply, which omits every
    category, has score 0 for the first category, not an unset score, and it
    is the same result, entry for entry, as that for [explicitZero]. *)
Lemma omitted_and_zero_indistinguishable :
  get (fst (radarScoresOfReply [])) (str "theological_cohesion") = num 0
  /\ radarScoresOfReply [] = radarScoresOfReply explicitZero.
Proof. vm_compute. split; reflexivity. Qed.

(** C5, amended.  When the score pattern of a category matches nowhere in the
    reply, the first pass leaves the category's score unset, and the second
    pass of the same function sets it to 0 with "No evaluation provided."
    before [generateRadarScores] returns: the caller receives the filled
    result. *)
Theorem omitted_score_defaulted_before_return (llmResponse c : text) :
  In c RADAR_CATEGORIES ->
  matchGroup (scorePattern c) llmResponse = None ->
  get (fst (extractLabeled llmResponse)) c = VUndef
  /\ get (fst (radarScoresOfReply llmResponse)) c = num 0
  /\ get (snd (radarScoresOfReply llmResponse)) c = VStr noEvaluation
  /\ forall content existingMetadata options w,
       truthy (get existingMetadata (str "texts"))
         && negb (isArray (get existingMetadata (str "texts"))) = false ->
       fst (generateRadarScores (fun _ _ => Normal llmResponse)
              content existingMetadata options w)
       = Normal (mkRadar (VObj (fst (radarScoresOfReply llmResponse)))
                         (snd (radarScoresOfReply llmResponse))).
Proof.
  intros H M.
  destruct (extractLabeled_at llmResponse H) as [A _].
  destruct (radarScores_at llmResponse H) as [B C].
  rewrite (extractedScore_unmatched _ _ M) in A, B, C.
  repeat split; try assumption.
  intros content existingMetadata options w G.
  unfold generateRadarScores, call. rewrite G. cbn [fst snd].
  destruct (radarScoresOfReply llmResponse). reflexivity.
Qed.

Lemma omitted_score_defaulted_before_return_witness :
  get (fst (extractLabeled [])) (str "liturgical_harmony") = VUndef
  /\ get (fst (radarScoresOfReply [])) (str "liturgical_harmony") = num 0
  /\ get (snd (radarScoresOfReply [])) (str "liturgical_harmony") = VStr noEvaluation.
Proof.
  assert (H : In (str "liturgical_harmony") RADAR_CATEGORIES)
    by (right; right; right; left; reflexivity).
  assert (M : matchGroup (scorePattern (str "liturgical_harmony")) [] = None)
    by reflexivity.
  pose proof (omitted_score_defaulted_before_return [] H M) as T.
  destruct T as [A [B [C _]]]. repeat split; assumption.
Defined.

End ExtractionProperties.

(* ===================================================================== *)
(** ** The two category lists *)
(* ===================================================================== *)

Module CategoryProperties.

Import ExtractionProperties.

Lemma embodied_authority_listed : In embodied_authority RADAR_CATEGORIES.
Proof. unfold RADAR_CATEGORIES. do 8 right. left. reflexivity. Qed.

Lemma embodied_authority_unlisted : ~ In embodied_authority scoreFields.
Proof. unfold scoreFields. simpl. intuition discriminate. Qed.

Lemma improvisational_trust_listed : In improvisational_trust scoreFields.
Proof. unfold scoreFields. do 8 right. left. reflexivity. Qed.

Lemma improvisational_trust_unlisted : ~ In improvisational_trust RADAR_CATEGORIES.
Proof. unfold RADAR_CATEGORIES. simpl. intuition discriminate. Qed.

Lemma flat_map_ext_in {A B : Type} (f g : A -> list B) (l : list A) :
  (forall a, In a l -> f a = g a) -> flat_map f l = flat_map g l.
Proof.
  induction l as [|a l IH]; intros H; simpl; [reflexivity|].
  rewrite (H a (or_introl eq_refl)), IH; [reflexivity|].
  intros b Hb. apply H. right. exact Hb.
Qed.

(** A line of the section when the header holds the score object [rs]. *)
Lemma radarLine_scores (yamlData rs justifications : object) (c : text) :
  radarLine (set radar_score_key (VObj rs) yamlData) justifications c
  = if negb (isUndefined (get rs c)) then
      str "- **" ++ formattedName c ++ str " (" ++ toString (get rs c)
        ++ str "/10)**: " ++ toString (or_else (get justifications c) (VStr []))
        ++ [10]
    else [].
Proof.
  unfold radarLine. fold radar_score_key. rewrite get_set_same. reflexivity.
Qed.

Lemma radarSection_ignores (k : text) (v j : value) (timestamp modelName : text)
    (yamlData rs justifications : object) :
  ~ In k categories ->
  radarSection timestamp modelName
    (set radar_score_key (VObj (set k v rs)) yamlData) (set k j justifications)
  = radarSection timestamp modelName
      (set radar_score_key (VObj rs) yamlData) justifications.
Proof.
  intros H. unfold radarSection.
  rewrite (@map_ext_in _ _
             (radarLine (set radar_score_key (VObj (set k v rs)) yamlData)
                        (set k j justifications))
             (radarLine (set radar_score_key (VObj rs) yamlData) justifications)
             categories).
  - reflexivity.
  - intros c Hc. rewrite !radarLine_scores.
    assert (N : c <> k) by (intros ->; contradiction).
    rewrite !get_set_other by exact N. reflexivity.
Qed.

Lemma validate_ignores (k : text) (v : value) (yamlData rs : object) :
  ~ In k scoreFields ->
  validateSermonYAML (set radar_score_key (VObj (set k v rs)) yamlData)
  = validateSermonYAML (set radar_score_key (VObj rs) yamlData).
Proof.
  intros H. unfold validateSermonYAML. fold radar_score_key.
  rewrite !get_set_same. cbn [truthy getv flat_map].
  rewrite !(@get_set_other radar_score_key (str "sermon_title")) by discriminate.
  rewrite (@flat_map_ext_in _ _
             (fun field =>
                if negb (isUndefined (get (set k v rs) field))
                   && invalidScore (get (set k v rs) field)
                then [str "Invalid radar score for " ++ field
                        ++ str ". Must be a number between 0 and 10."]
                else [])
             (fun field =>
                if negb (isUndefined (get rs field)) && invalidScore (get rs field)
                then [str "Invalid radar score for " ++ field
                        ++ str ". Must be a number between 0 and 10."]
                else [])
             scoreFields).
  - reflexivity.
  - intros c Hc. assert (N : c <> k) by (intros ->; contradiction).
    rewrite get_set_other by exact N. reflexivity.
Qed.

Lemma validate_checks (k : text) (v : value) (yamlData rs : object) :
  In k scoreFields -> isUndefined v = false -> invalidScore v = true ->
  valid (validateSermonYAML (set radar_score_key (VObj (set k v rs)) yamlData)) = false.
Proof.
  intros H U I. apply (@validate_flags k); rewrite ?get_set_same; assumption.
Qed.

(** The section rendered for a header that holds the score object [rs]: the
    marker line, the model line, the lines of the first eight categories, the
    line of [improvisational_trust] and the closing line feed. *)
Lemma radarSection_last_line (timestamp modelName : text)
    (yamlData rs justifications : object) (v : value) :
  isUndefined v = false ->
  radarSection timestamp modelName
    (set radar_score_key (VObj (set improvisational_trust v rs)) yamlData) justifications
  = (str "## Radar Analysis" ++ [10])
      ++ (str "_Generated by model: " ++ modelName ++ str " | " ++ timestamp
            ++ str "_" ++ [10; 10])
      ++ List.concat
           (List.map
              (radarLine
                 (set radar_score_key (VObj (set improvisational_trust v rs)) yamlData)
                 justifications)
              (removelast categories))
      ++ (str "- **Improvisational Trust (" ++ toString v ++ str "/10)**: "
            ++ toString (or_else (get justifications improvisational_trust) (VStr []))
            ++ [10])
      ++ [10].
Proof.
  intros U. unfold radarSection.
  change categories with (removelast categories ++ [improvisational_trust]) at 1.
  rewrite map_app, concat_app. cbn [List.map List.concat].
  rewrite radarLine_scores, get_set_same, U. cbn [negb].
  rewrite app_nil_r, <- !app_assoc. reflexivity.
Qed.

(** C10.  For every reply, the result of score extraction has a numeric
    [embodied_authority] score and no [improvisational_trust] entry, while the
    list that validation and section rendering go through has
    [improvisational_trust] and not [embodied_authority].  So whatever value
    and justification [embodied_authority] carries, the rendered section and
    the validation result are the same as without it; an
    [improvisational_trust] entry, were one present, would get its line, and
    that line is the last score line of the rendered section and of the text
    written to the file; and it would be range-checked. *)
Theorem category_lists_disagree (llmResponse : text) :
  let rs := fst (radarScoresOfReply llmResponse) in
  let js := snd (radarScoresOfReply llmResponse) in
  (exists n, get rs embodied_authority = VNum n)
  /\ get rs improvisational_trust = VUndef
  /\ ~ In embodied_authority categories
  /\ In improvisational_trust categories
  /\ (forall v j timestamp modelName yamlData,
        radarSection timestamp modelName
          (set radar_score_key (VObj (set embodied_authority v rs)) yamlData)
          (set embodied_authority j js)
        = radarSection timestamp modelName
            (set radar_score_key (VObj rs) yamlData) js)
  /\ (forall v yamlData,
        validateSermonYAML
          (set radar_score_key (VObj (set embodied_authority v rs)) yamlData)
        = validateSermonYAML (set radar_score_key (VObj rs) yamlData))
  /\ (forall v yamlData justifications,
        isUndefined v = false ->
        radarLine (set radar_score_key (VObj (set improvisational_trust v rs)) yamlData)
          justifications improvisational_trust
        = str "- **Improvisational Trust (" ++ toString v ++ str "/10)**: "
            ++ toString (or_else (get justifications improvisational_trust) (VStr []))
            ++ [10])
  /\ (forall v yamlData justifications timestamp modelName newYaml content,
        isUndefined v = false ->
        exists before,
          radarSection timestamp modelName
            (set radar_score_key (VObj (set improvisational_trust v rs)) yamlData)
            justifications
          = before
              ++ (str "- **Improvisational Trust (" ++ toString v ++ str "/10)**: "
                    ++ toString (or_else (get justifications improvisational_trust)
                                         (VStr []))
                    ++ [10])
              ++ [10]
          /\ newContent timestamp modelName newYaml
               (set radar_score_key (VObj (set improvisational_trust v rs)) yamlData)
               justifications content
             = (str "---" ++ [10] ++ newYaml ++ str "---" ++ [10; 10])
                 ++ before
                 ++ (str "- **Improvisational Trust (" ++ toString v ++ str "/10)**: "
                       ++ toString (or_else (get justifications improvisational_trust)
                                            (VStr []))
                       ++ [10])
                 ++ [10] ++ trim (removeRadar content))
  /\ (forall v yamlData,
        isUndefined v = false -> invalidScore v = true ->
        valid (validateSermonYAML
                 (set radar_score_key (VObj (set improvisational_trust v rs)) yamlData))
        = false).
Proof.
  intros rs js. repeat split.
  - destruct (radarScores_at llmResponse embodied_authority_listed) as [A _].
    subst rs. rewrite A. destruct (extractedScore llmResponse embodied_authority); eauto.
    unfold num. eauto.
  - apply (radarScores_unlisted llmResponse improvisational_trust_unlisted).
  - exact embodied_authority_unlisted.
  - exact improvisational_trust_listed.
  - intros. apply radarSection_ignores. exact embodied_authority_unlisted.
  - intros. apply validate_ignores. exact embodied_authority_unlisted.
  - intros v yamlData justifications U. rewrite radarLine_scores, get_set_same, U.
    reflexivity.
  - intros v yamlData justifications timestamp modelName newYaml content U.
    exists ((str "## Radar Analysis" ++ [10])
              ++ (str "_Generated by model: " ++ modelName ++ str " | " ++ timestamp
                    ++ str "_" ++ [10; 10])
              ++ List.concat
                   (List.map
                      (radarLine
                         (set radar_score_key
                              (VObj (set improvisational_trust v rs)) yamlData)
                         justifications)
                      (removelast categories))).
    unfold newContent.
    rewrite (@radarSection_last_line timestamp modelName yamlData rs justifications v U).
    split; rewrite <- !app_assoc; reflexivity.
  - intros v yamlData U I. apply validate_checks; [exact improvisational_trust_listed | |];
      assumption.
Qed.

End CategoryProperties.

(* ===================================================================== *)
(** ** Properties of the metadata merge and of structured-object extraction *)
(* ===================================================================== *)

Module MergeProperties.

(** C3, counterexample.  On the example of the specification the merged theme
    list is the extracted one, ["y"], not the existing ["x"]. *)
Lemma merged_themes_are_extracted :
  get (mergedMetadata extractedExample existingExample) (str "themes")
  = VArr [VStr (str "y")].
Proof. vm_compute. reflexivity. Qed.

Lemma merged_plain_key (metadata : value) (existing : object) (k : text) :
  ~ In k overridden ->
  get (mergedMetadata metadata existing) k
  = match lookup k existing with
    | Some v => v
    | None => get (ownProps metadata) k
    end.
Proof.
  intros H. unfold mergedMetadata.
  assert (N : forall x, In x overridden -> k <> x) by (intros x Hx ->; contradiction).
  rewrite !get_set_other by (apply N; simpl; auto 6).
  rewrite !get_spread. cbn [ownProps].
  destruct (lookup k existing); [reflexivity|].
  unfold get. destruct (lookup k (ownProps metadata)); reflexivity.
Qed.

Lemma merged_narrative_key (metadata : value) (existing : object) (k : text) :
  In k [str "bolt"; str "themes"; str "metaphors"] ->
  get (mergedMetadata metadata existing) k
  = or_else (getv metadata k) (get existing k).
Proof.
  intros H. unfold mergedMetadata.
  destruct H as [<-|[<-|[<-|[]]]];
    rewrite ?get_set_other by discriminate; apply get_set_same.
Qed.

Lemma merged_scores (metadata : value) (existing : object) :
  get (mergedMetadata metadata existing) (str "radar_score")
  = VObj (spread
            (spread [] (or_else (get existing (str "radar_score")) (VObj [])))
            (or_else (getv metadata (str "radar_score")) (VObj []))).
Proof.
  unfold mergedMetadata. rewrite get_set_other by discriminate. apply get_set_same.
Qed.

(** C3, amended.  For every extracted value and existing header: a key that
    the merge does not treat specially (the title among them) keeps the
    existing value whenever the existing header has the key at all, and takes
    the extracted value otherwise; for [bolt], [themes] and [metaphors] the
    extracted value wins whenever it is truthy and the existing value only
    fills the gap; the score map is the existing map with each extracted
    category written over it.  On the example of the specification the merged
    title is "A", the merged themes are ["y"] and [scores.cat1] is 7. *)
Theorem merge_precedence (metadata : value) (existing : object) :
  (forall k, ~ In k overridden ->
     get (mergedMetadata metadata existing) k
     = match lookup k existing with
       | Some v => v
       | None => get (ownProps metadata) k
       end)
  /\ (forall k, In k [str "bolt"; str "themes"; str "metaphors"] ->
        get (mergedMetadata metadata existing) k
        = or_else (getv metadata k) (get existing k))
  /\ (forall c,
        getv (get (mergedMetadata metadata existing) (str "radar_score")) c
        = match lookup c (ownProps (or_else (getv metadata (str "radar_score")) (VObj []))) with
          | Some v => v
          | None =>
              get (ownProps (or_else (get existing (str "radar_score")) (VObj []))) c
          end)
  /\ get (mergedMetadata extractedExample existingExample) (str "title") = VStr (str "A")
  /\ get (mergedMetadata extractedExample existingExample) (str "themes")
     = VArr [VStr (str "y")]
  /\ getv (get (mergedMetadata extractedExample existingExample) (str "scores"))
          (str "cat1") = num 7.
Proof.
  split; [|split; [|split]].
  - intros k H. apply merged_plain_key. exact H.
  - intros k H. apply merged_narrative_key. exact H.
  - intros c. rewrite merged_scores. cbn [getv]. rewrite !get_spread.
    destruct (lookup c (ownProps (or_else (getv metadata (str "radar_score")) (VObj []))));
      [reflexivity|].
    unfold get.
    destruct (lookup c (ownProps (or_else (get existing (str "radar_score")) (VObj []))));
      reflexivity.
  - vm_compute. repeat split.
Qed.

(** *** Structured-object extraction *)


Lemma splitAt_first (x : code_unit) (b c : text) :
  ~ In x b -> splitAt [x] (b ++ x :: c) = Some (b, c).
Proof.
  unfold splitAt. generalize (@None code_unit).
  induction b as [|y b IH]; intros prev H.
  - simpl. rewrite N.eqb_refl. reflexivity.
  - assert (E : (x =? y) = false).
    { apply N.eqb_neq. intros ->. apply H. left. reflexivity. }
    simpl. rewrite E. rewrite IH; [reflexivity|].
    intros N. apply H. right. exact N.
Qed.

Lemma bracePattern_first (a b c : text) (prev : option code_unit) :
  ~ In 123 a -> ~ In 125 b ->
  search bracePattern prev (a ++ 123 :: b ++ 125 :: c)
  = Some (a, 123 :: b ++ [125]).
Proof.
  intros Ha Hb. revert prev. induction a as [|y a IH]; intros prev.
  - change ([] ++ 123 :: b ++ 125 :: c) with (123 :: b ++ 125 :: c).
    apply search_here. unfold bracePattern.
    assert (S : startsWith (str "{") (123 :: b ++ 125 :: c) = Some (b ++ 125 :: c))
      by reflexivity.
    rewrite S. change (str "}") with [125].
    rewrite (@splitAt_first 125 b c Hb). reflexivity.
  - assert (E : bracePattern prev ((y :: a) ++ 123 :: b ++ 125 :: c) = None).
    { unfold bracePattern. change (str "{") with [123].
      cbn [app startsWith].
      destruct (N.eqb_spec 123 y) as [<-|]; [|reflexivity].
      exfalso. apply Ha. left. reflexivity. }
    change ((y :: a) ++ 123 :: b ++ 125 :: c) with (y :: (a ++ 123 :: b ++ 125 :: c)) in *.
    cbn [search]. rewrite E, IH; [reflexivity|].
    intros N. apply Ha. right. exact N.
Qed.

(** *** What the fence pattern matches *)

Lemma fence_not_here (prev : option code_unit) (y : code_unit) (t : text) :
  y <> 96 -> fencePattern prev (y :: t) = None.
Proof.
  intros H. unfold fencePattern. change (str "```") with [96; 96; 96].
  cbn [startsWith]. destruct (N.eqb_spec 96 y) as [E|_]; [|reflexivity].
  contradiction H. symmetry. exact E.
Qed.

(** Text without a backtick in front of a reply does not change what the
    fence pattern finds. *)
Lemma matchGroup_fence_skip (a t : text) :
  ~ In 96 a -> matchGroup fencePattern (a ++ t) = matchGroup fencePattern t.
Proof.
  unfold matchGroup. generalize (@None code_unit) at 1.
  induction a as [|y a IH]; intros prev H.
  - cbn [app]. destruct t; reflexivity.
  - cbn [app search]. rewrite fence_not_here.
    + specialize (IH (Some y)).
      destruct (search fencePattern (Some y) (a ++ t)) as [[b g]|];
        rewrite <- IH; [reflexivity | | reflexivity |];
        intros N; apply H; right; exact N.
    + intros E. apply H. left. exact E.
Qed.

Lemma splitAt_fence (g c : text) :
  ~ In 96 g -> splitAt (str "```") (g ++ str "```" ++ c) = Some (g, c).
Proof.
  unfold splitAt. generalize (@None code_unit).
  induction g as [|y g IH]; intros prev H.
  - cbn [app]. apply search_here. apply startsWith_app.
  - cbn [app search].
    assert (E : startsWith (str "```") (y :: g ++ str "```" ++ c) = None).
    { change (str "```") with [96; 96; 96]. cbn [startsWith].
      destruct (N.eqb_spec 96 y) as [E|_]; [|reflexivity].
      exfalso. apply H. left. symmetry. exact E. }
    rewrite E, IH; [reflexivity|]. intros N. apply H. right. exact N.
Qed.

(** [\s*] before the rest of a pattern that succeeds after the whole run of
    white space: the run is taken whole. *)
Lemma greedySpaces_run {A : Type} (k : text -> option A) (s t : text) (a : A) :
  forallb isWhiteSpace s = true ->
  match t with [] => true | x :: _ => negb (isWhiteSpace x) end = true ->
  k t = Some a -> greedySpaces k (s ++ t) = Some a.
Proof.
  intros Hs Ht K. induction s as [|c s IH]; cbn [app].
  - destruct t as [|x t']; cbn [greedySpaces]; [exact K|].
    apply negb_true_iff in Ht. rewrite Ht. exact K.
  - cbn [forallb] in Hs. apply andb_true_iff in Hs. destruct Hs as [Hc Hs].
    cbn [greedySpaces]. rewrite Hc, (IH Hs). reflexivity.
Qed.

(** The fence pattern at a fence, with or without the tag, on content that
    has no backtick and does not open with white space: group 1 is the
    content. *)
Lemma fencePattern_at_fence (prev : option code_unit) (tagged : bool) (s g c : text) :
  (if tagged then true
   else match s ++ g with 106 :: _ => false | _ => true end) = true ->
  forallb isWhiteSpace s = true ->
  match g with [] => true | x :: _ => negb (isWhiteSpace x) end = true ->
  ~ In 96 g ->
  fencePattern prev
    (str "```" ++ (if tagged then str "json" else []) ++ s ++ g ++ str "```" ++ c)
  = Some g.
Proof.
  intros Ht Hs Hg Hn. unfold fencePattern. rewrite startsWith_app.
  assert (R : greedySpaces
                (fun u => match splitAt (str "```") u with
                          | Some (g0, _) => Some g0
                          | None => None
                          end)
                (s ++ g ++ str "```" ++ c) = Some g).
  { apply greedySpaces_run; [exact Hs | | rewrite (@splitAt_fence g c Hn); reflexivity].
    destruct g as [|x g']; [reflexivity | exact Hg]. }
  destruct tagged.
  - rewrite startsWith_app, R. reflexivity.
  - cbn [app].
    assert (J : startsWith (str "json") (s ++ g ++ str "```" ++ c) = None).
    { rewrite app_assoc. destruct (s ++ g) as [|x u]; [reflexivity|].
      change (str "json") with [106; 115; 111; 110]. cbn [app startsWith].
      destruct (N.eqb_spec 106 x) as [<-|_]; [discriminate Ht | reflexivity]. }
    rewrite J. exact R.
Qed.


End MergeProperties.

(* ===================================================================== *)
(** ** Properties of [callClaudeWithRetry] *)
(* ===================================================================== *)

Module RetryProperties.

Import Retry.

(** C7, counterexample.  With the default ceiling of 5 and a provider that is
    overloaded on every request, the loop sends 6 requests, not 5, and what
    the caller gets is the provider's own error object. *)
Lemma six_requests_then_raw_error :
  callClaudeWithRetry false true (Throw overloaded) (fun _ => Throw overloaded) 5
  = (Throw overloaded, mkTrace 6 [5000; 10000; 20000; 40000; 80000]).
Proof. vm_compute. reflexivity. Qed.

Lemma backoff_overloaded (e : exn) (retries : nat) :
  status e = Some 529 -> backoff e retries = Some (overloadWait retries).
Proof. intros H. unfold backoff. rewrite H. reflexivity. Qed.

(** The loop under a provider that is always overloaded, from any state with
    [d] retries left. *)
Lemma loop_overloaded (create : nat -> completion (list N)) (maxRetries : nat) :
  (forall n, exists e, create n = Throw e /\ status e = Some 529) ->
  forall d retries tr, (retries + d = maxRetries)%nat ->
  loop create maxRetries retries tr
  = (create (attempts tr + d)%nat,
     mkTrace (S (attempts tr + d)) (waits tr ++ List.map overloadWait (seq retries d))).
Proof.
  intros H. induction d as [|d IH]; intros retries tr E.
  - destruct (H (attempts tr)) as [e [C St]].
    simp loop. rewrite C. simp loop.
    destruct (lt_dec retries maxRetries) as [L|L]; [lia|].
    simp loop. rewrite Nat.add_0_r, C, app_nil_r. reflexivity.
  - destruct (H (attempts tr)) as [e [C St]].
    simp loop. rewrite C. simp loop.
    destruct (lt_dec retries maxRetries) as [L|L]; [|lia].
    simp loop. rewrite (@backoff_overloaded e retries St). simp loop.
    rewrite <- loop_equation_1. rewrite IH by lia. cbn [attempts waits seq List.map].
    rewrite <- app_assoc, Nat.add_succ_r. reflexivity.
Qed.

Lemma overloadWait_increasing (a k : nat) :
  (a < k)%nat -> overloadWait a < overloadWait k.
Proof.
  intros H. unfold overloadWait. apply N.mul_lt_mono_pos_l; [lia|].
  apply N.pow_lt_mono_r; lia.
Qed.

Lemma overloadWaits_sorted (a d : nat) :
  StronglySorted N.lt (List.map overloadWait (seq a d)).
Proof.
  revert a. induction d as [|d IH]; intros a; simpl; constructor.
  - apply IH.
  - apply Forall_forall. intros w Hw. apply in_map_iff in Hw.
    destruct Hw as [k [<- Hk]]. apply in_seq in Hk.
    apply overloadWait_increasing. lia.
Qed.

(** C7, amended.  Against a provider that answers every request with an
    overload error (status 529), the direct Anthropic path sends one request
    plus [maxRetries] retries, [maxRetries + 1] requests in all, sleeps
    5000 * 2^k ms before retry k, a strictly increasing sequence, and then
    rethrows the error of the last request as the provider gave it. *)
Theorem overload_retries_then_rethrows
    (create : nat -> completion (list N)) (openRouterCall : completion (list N))
    (maxRetries : nat) :
  (forall n, exists e, create n = Throw e /\ status e = Some 529) ->
  let outcome := callClaudeWithRetry false true openRouterCall create maxRetries in
  attempts (snd outcome) = S maxRetries
  /\ waits (snd outcome) = List.map overloadWait (seq 0 maxRetries)
  /\ StronglySorted N.lt (waits (snd outcome))
  /\ fst outcome = create maxRetries.
Proof.
  intros H outcome. subst outcome. unfold callClaudeWithRetry. cbn [negb].
  rewrite (@loop_overloaded create maxRetries H maxRetries 0%nat (mkTrace 0 []) eq_refl).
  cbn [fst snd attempts waits app Nat.add].
  repeat split. apply overloadWaits_sorted.
Qed.

Lemma overload_retries_then_rethrows_witness :
  let outcome :=
    callClaudeWithRetry false true (Throw overloaded) (fun _ => Throw overloaded) 3 in
  attempts (snd outcome) = 4%nat
  /\ waits (snd outcome) = List.map overloadWait (seq 0 3)
  /\ StronglySorted N.lt (waits (snd outcome))
  /\ fst outcome = Throw overloaded.
Proof.
  apply (@overload_retries_then_rethrows (fun _ => Throw overloaded) (Throw overloaded) 3).
  intros n. exists overloaded. split; reflexivity.
Defined.

End RetryProperties.

(* ===================================================================== *)
(** ** Properties of the per-file and per-directory runs *)
(* ===================================================================== *)

Module PipelineProperties.

Section Runs.

Variable load : text -> completion object.
Variable dump : object -> completion text.
Variable JSON_parse : text -> completion value.
Variable llm : request -> list request -> completion text.
Variable now : text.

(** [generateRadarScores] resolves on every path: its [catch] returns a
    result instead of rethrowing. *)
Lemma generateRadarScores_returns (content : text) (existingMetadata : object)
    (options : llmOptions) (w : world) :
  exists res, fst (generateRadarScores llm content existingMetadata options w) = Normal res.
Proof.
  unfold generateRadarScores, call. cbv zeta.
  destruct (truthy (get existingMetadata (str "texts"))
            && negb (isArray (get existingMetadata (str "texts")))); [cbn [fst]; eauto|].
  match goal with
  | |- context [llm ?rq (calls w)] => destruct (llm rq (calls w)) as [reply|]
  end.
  - destruct (radarScoresOfReply reply). cbn [fst]. eauto.
  - cbn [fst]. eauto.
Qed.

Lemma generateRadarScores_no_throw (content : text) (existingMetadata : object)
    (options : llmOptions) (w w' : world) (e : exn) :
  generateRadarScores llm content existingMetadata options w <> (Throw e, w').
Proof.
  intros H. destruct (generateRadarScores_returns content existingMetadata options w)
    as [res R].
  rewrite H in R. discriminate R.
Qed.

Lemma body_ignores_fallback (filePath : text) (options : fileOptions) (w : world) (b : bool) :
  processSermonFile_body load dump JSON_parse llm now filePath (withFallback b options) w
  = processSermonFile_body load dump JSON_parse llm now filePath options w.
Proof.
  destruct options. unfold processSermonFile_body, withFallback, modelLabel.
  cbn [generateMissing updateExisting scoreOnly dryRun opt_useClaude opt_useOpenRouter
       opt_model fallbackModel modelForMetadata modelForRadar].
  destruct (readFileSync filePath (files w)) as [fileContent|]; [|reflexivity].
  destruct (matter load fileContent) as [[existingMetadata content]|]; [|reflexivity].
  cbv zeta.
  match goal with
  | |- context [if ?c then generateSermonMetadata ?d ?j ?l ?ct ?em ?o ?w0 else ?z] =>
      destruct (if c then generateSermonMetadata d j l ct em o w0 else z) as [nm w1]
  end.
  match goal with
  | |- context [generateRadarScores llm ?ct ?em ?o ?w0] =>
      destruct (generateRadarScores_returns ct em o w0) as [res R];
      destruct (generateRadarScores llm ct em o w0) as [r w2];
      cbn [fst] in R; subst r
  end.
  reflexivity.
Qed.

(** *** Locality: a run on one file reads and writes that file only *)

Lemma generateSermonMetadata_files (content : text) (existingMetadata : object)
    (options : llmOptions) (w : world) :
  files (snd (generateSermonMetadata dump JSON_parse llm content existingMetadata options w))
  = files w.
Proof.
  unfold generateSermonMetadata, call. cbv zeta.
  repeat (break_match; cbn [fst snd files]); reflexivity.
Qed.

Lemma generateSermonMetadata_result (content : text) (existingMetadata : object)
    (options : llmOptions) (w1 w2 : world) :
  historyFree llm ->
  fst (generateSermonMetadata dump JSON_parse llm content existingMetadata options w1)
  = fst (generateSermonMetadata dump JSON_parse llm content existingMetadata options w2).
Proof.
  intros H. unfold generateSermonMetadata, call. cbv zeta.
  destruct (dump existingMetadata); [|reflexivity].
  match goal with
  | |- context [llm ?rq (calls w1)] => rewrite (H rq (calls w1) (calls w2))
  end.
  repeat (break_match; cbn [fst snd]); reflexivity.
Qed.

Lemma generateRadarScores_files (content : text) (existingMetadata : object)
    (options : llmOptions) (w : world) :
  files (snd (generateRadarScores llm content existingMetadata options w)) = files w.
Proof.
  unfold generateRadarScores, call. cbv zeta.
  repeat (break_match; cbn [fst snd files]); reflexivity.
Qed.

Lemma generateRadarScores_result (content : text) (existingMetadata : object)
    (options : llmOptions) (w1 w2 : world) :
  historyFree llm ->
  fst (generateRadarScores llm content existingMetadata options w1)
  = fst (generateRadarScores llm content existingMetadata options w2).
Proof.
  intros H. unfold generateRadarScores, call. cbv zeta.
  destruct (truthy (get existingMetadata (str "texts"))
            && negb (isArray (get existingMetadata (str "texts")))); [reflexivity|].
  match goal with
  | |- context [llm ?rq (calls w1)] => rewrite (H rq (calls w1) (calls w2))
  end.
  repeat (break_match; cbn [fst snd]); reflexivity.
Qed.

Lemma updateFile_local (filePath : text) (yamlData justifications : object)
    (modelName : text) (fs1 fs2 : filesystem) :
  fs1 filePath = fs2 filePath ->
  fst (updateFileWithRadarSection load dump now filePath yamlData justifications
         modelName fs1)
  = fst (updateFileWithRadarSection load dump now filePath yamlData justifications
           modelName fs2)
  /\ snd (updateFileWithRadarSection load dump now filePath yamlData justifications
            modelName fs1) filePath
     = snd (updateFileWithRadarSection load dump now filePath yamlData justifications
              modelName fs2) filePath.
Proof.
  intros H. unfold updateFileWithRadarSection, readFileSync. rewrite H.
  destruct (fs2 filePath) as [fileContent|] eqn:E;
    [|split; [reflexivity|cbn [snd]; congruence]].
  destruct (matter load fileContent) as [[data content]|];
    [|split; [reflexivity|cbn [snd]; congruence]].
  match goal with
  | |- context [dump ?o] => destruct (dump o)
  end; cbn [fst snd]; [|split; [reflexivity|congruence]].
  unfold writeFileSync. rewrite text_eqb_refl. split; reflexivity.
Qed.

Lemma updateFile_frame (filePath other : text) (yamlData justifications : object)
    (modelName : text) (fs : filesystem) :
  other <> filePath ->
  snd (updateFileWithRadarSection load dump now filePath yamlData justifications
         modelName fs) other
  = fs other.
Proof.
  intros H. unfold updateFileWithRadarSection.
  repeat (break_match; cbn [fst snd]); try reflexivity.
  unfold writeFileSync. rewrite (text_eqb_neq H). reflexivity.
Qed.

Lemma processSermonFile_frame (filePath other : text) (options : fileOptions) (w : world) :
  other <> filePath ->
  files (snd (processSermonFile load dump JSON_parse llm now filePath options w)) other
  = files w other.
Proof.
  intros H. unfold processSermonFile, processSermonFile_body.
  destruct (readFileSync filePath (files w)) as [fileContent|]; [|reflexivity].
  destruct (matter load fileContent) as [[existingMetadata content]|]; [|reflexivity].
  cbv zeta.
  match goal with
  | |- context [if ?c then generateSermonMetadata ?d ?j ?l ?ct ?em ?o ?w0 else ?z] =>
      assert (F1 : files (snd (if c then generateSermonMetadata d j l ct em o w0 else z))
                   = files w)
        by (destruct c; [apply generateSermonMetadata_files | reflexivity]);
      destruct (if c then generateSermonMetadata d j l ct em o w0 else z) as [nm w1]
  end.
  cbn [snd] in F1.
  match goal with
  | |- context [if ?c then _ else (Normal (nm, []), w1)] => destruct c
  end.
  - match goal with
    | |- context [generateRadarScores llm ?ct ?em ?o ?w0] =>
        pose proof (generateRadarScores_files ct em o w0) as F2;
        destruct (generateRadarScores_returns ct em o w0) as [res R];
        destruct (generateRadarScores llm ct em o w0) as [r w2];
        cbn [fst snd] in R, F2; subst r
    end.
    match goal with
    | |- context [if ?c then _ else _] => destruct c
    end; [|cbn [snd]; congruence].
    match goal with
    | |- context [updateFileWithRadarSection load dump now filePath ?y ?j ?m ?fs] =>
        pose proof (@updateFile_frame filePath other y j m fs H) as F3;
        destruct (updateFileWithRadarSection load dump now filePath y j m fs)
          as [[ok y'] fs']
    end.
    cbn [snd files] in *. congruence.
  - match goal with
    | |- context [if ?c then _ else _] => destruct c
    end; [|cbn [snd]; congruence].
    match goal with
    | |- context [updateFileWithRadarSection load dump now filePath ?y ?j ?m ?fs] =>
        pose proof (@updateFile_frame filePath other y j m fs H) as F3;
        destruct (updateFileWithRadarSection load dump now filePath y j m fs)
          as [[ok y'] fs']
    end.
    cbn [snd files] in *. congruence.
Qed.

Lemma processSermonFile_local (filePath : text) (options : fileOptions) (w1 w2 : world) :
  historyFree llm ->
  files w1 filePath = files w2 filePath ->
  fst (processSermonFile load dump JSON_parse llm now filePath options w1)
  = fst (processSermonFile load dump JSON_parse llm now filePath options w2)
  /\ files (snd (processSermonFile load dump JSON_parse llm now filePath options w1))
        filePath
     = files (snd (processSermonFile load dump JSON_parse llm now filePath options w2))
         filePath.
Proof.
  intros Hh Hf. unfold processSermonFile, processSermonFile_body, readFileSync.
  rewrite Hf.
  destruct (files w2 filePath) as [fileContent|] eqn:E2;
    [|split; [reflexivity | cbn [snd]; congruence]].
  destruct (matter load fileContent) as [[existingMetadata content]|];
    [|split; [reflexivity | cbn [snd]; congruence]].
  cbv zeta.
  match goal with
  | |- context [if ?c then generateSermonMetadata ?d ?j ?l ?ct ?em ?o w1 else ?z] =>
      assert (A : fst (if c then generateSermonMetadata d j l ct em o w1 else z)
                  = fst (if c then generateSermonMetadata d j l ct em o w2
                         else (fst z, w2))
                  /\ files (snd (if c then generateSermonMetadata d j l ct em o w1 else z))
                     = files w1
                  /\ files (snd (if c then generateSermonMetadata d j l ct em o w2
                                  else (fst z, w2)))
                     = files w2)
        by (destruct c; cbn [fst snd];
            [ rewrite !generateSermonMetadata_files; repeat split;
              apply generateSermonMetadata_result; exact Hh
            | repeat split ]);
      cbn [fst] in A;
      destruct (if c then generateSermonMetadata d j l ct em o w1 else z) as [nm wa1];
      destruct (if c then generateSermonMetadata d j l ct em o w2 else _) as [nm2 wa2]
  end.
  cbn [fst snd] in A. destruct A as [<- [Fa1 Fa2]].
  match goal with
  | |- context [if ?c then _ else (Normal (nm, []), wa1)] => destruct c
  end.
  - match goal with
    | |- context [generateRadarScores llm ?ct ?em ?o wa1] =>
        pose proof (@generateRadarScores_result ct em o wa1 wa2 Hh) as B;
        pose proof (generateRadarScores_files ct em o wa1) as Fb1;
        pose proof (generateRadarScores_files ct em o wa2) as Fb2;
        destruct (generateRadarScores_returns ct em o wa1) as [res R];
        destruct (generateRadarScores llm ct em o wa1) as [r wb1];
        destruct (generateRadarScores llm ct em o wa2) as [r2 wb2];
        cbn [fst snd] in R, B, Fb1, Fb2; subst r r2
    end.
    match goal with
    | |- context [if ?c then _ else _] => destruct c
    end; [|split; [reflexivity | cbn [snd]; congruence]].
    match goal with
    | |- context [updateFileWithRadarSection load dump now filePath ?y ?j ?m (files wb1)] =>
        assert (Hu : files wb1 filePath = files wb2 filePath) by congruence;
        destruct (@updateFile_local filePath y j m (files wb1) (files wb2) Hu) as [U1 U2];
        destruct (updateFileWithRadarSection load dump now filePath y j m (files wb1))
          as [[ok1 y1] fs1];
        destruct (updateFileWithRadarSection load dump now filePath y j m (files wb2))
          as [[ok2 y2] fs2]
    end.
    cbn [fst snd files] in *. injection U1 as -> ->. split; [reflexivity | exact U2].
  - match goal with
    | |- context [if ?c then _ else _] => destruct c
    end; [|split; [reflexivity | cbn [snd]; congruence]].
    match goal with
    | |- context [updateFileWithRadarSection load dump now filePath ?y ?j ?m (files wa1)] =>
        assert (Hu : files wa1 filePath = files wa2 filePath) by congruence;
        destruct (@updateFile_local filePath y j m (files wa1) (files wa2) Hu) as [U1 U2];
        destruct (updateFileWithRadarSection load dump now filePath y j m (files wa1))
          as [[ok1 y1] fs1];
        destruct (updateFileWithRadarSection load dump now filePath y j m (files wa2))
          as [[ok2 y2] fs2]
    end.
    cbn [fst snd files] in *. injection U1 as -> ->. split; [reflexivity | exact U2].
Qed.

Lemma processSermonFile_body_path (filePath : text) (options : fileOptions) (w : world) :
  match fst (processSermonFile_body load dump JSON_parse llm now filePath options w) with
  | Normal r => resultPath r = filePath
  | Throw _ => True
  end.
Proof.
  unfold processSermonFile_body.
  destruct (readFileSync filePath (files w)) as [fileContent|]; [|exact I].
  destruct (matter load fileContent) as [[existingMetadata content]|]; [|exact I].
  cbv zeta.
  match goal with
  | |- context [if ?c then generateSermonMetadata ?d ?j ?l ?ct ?em ?o ?w0 else ?z] =>
      destruct (if c then generateSermonMetadata d j l ct em o w0 else z) as [nm w1]
  end.
  match goal with
  | |- context [if ?c then _ else (Normal (nm, []), w1)] => destruct c
  end.
  - match goal with
    | |- context [generateRadarScores llm ?ct ?em ?o ?w0] =>
        destruct (generateRadarScores_returns ct em o w0) as [res R];
        destruct (generateRadarScores llm ct em o w0) as [r w2];
        cbn [fst] in R; subst r
    end.
    match goal with
    | |- context [if ?c then _ else _] => destruct c
    end; [|reflexivity].
    match goal with
    | |- context [updateFileWithRadarSection load dump now filePath ?y ?j ?m ?fs] =>
        destruct (updateFileWithRadarSection load dump now filePath y j m fs)
          as [[ok y'] fs']
    end.
    reflexivity.
  - match goal with
    | |- context [if ?c then _ else _] => destruct c
    end; [|reflexivity].
    match goal with
    | |- context [updateFileWithRadarSection load dump now filePath ?y ?j ?m ?fs] =>
        destruct (updateFileWithRadarSection load dump now filePath y j m fs)
          as [[ok y'] fs']
    end.
    reflexivity.
Qed.

Lemma processSermonFile_path (filePath : text) (options : fileOptions) (w : world) :
  resultPath (fst (processSermonFile load dump JSON_parse llm now filePath options w))
  = filePath.
Proof.
  unfold processSermonFile.
  pose proof (processSermonFile_body_path filePath options w) as H.
  destruct (processSermonFile_body load dump JSON_parse llm now filePath options w)
    as [[r|e] w']; cbn [fst] in *; [exact H | reflexivity].
Qed.

(** *** The batch *)

Lemma processBatch_paths (batch : list text) (options : fileOptions) (w : world) :
  List.map resultPath
    (fst (processBatch load dump JSON_parse llm now batch options w))
  = batch.
Proof.
  revert w. induction batch as [|file rest IH]; intros w; [reflexivity|].
  cbn [processBatch].
  pose proof (processSermonFile_path file options w) as P.
  destruct (processSermonFile load dump JSON_parse llm now file options w) as [r w1].
  specialize (IH w1).
  destruct (processBatch load dump JSON_parse llm now rest options w1) as [rs w2].
  cbn [fst List.map] in *. rewrite P, IH. reflexivity.
Qed.

Lemma processBatch_frame (batch : list text) (options : fileOptions) (w : world)
    (other : text) :
  ~ In other batch ->
  files (snd (processBatch load dump JSON_parse llm now batch options w)) other
  = files w other.
Proof.
  revert w. induction batch as [|file rest IH]; intros w H; [reflexivity|].
  cbn [processBatch].
  assert (N : other <> file) by (intros ->; apply H; left; reflexivity).
  pose proof (@processSermonFile_frame file other options w N) as F.
  destruct (processSermonFile load dump JSON_parse llm now file options w) as [r w1].
  assert (H' : ~ In other rest) by (intros X; apply H; right; exact X).
  specialize (IH w1 H').
  destruct (processBatch load dump JSON_parse llm now rest options w1) as [rs w2].
  cbn [snd] in *. congruence.
Qed.

(** Each file of a batch gets the result, and is left with the content, that
    a run on that file alone from the initial store gives. *)
Lemma processBatch_each (batch : list text) (options : fileOptions) (w : world) :
  historyFree llm -> NoDup batch ->
  forall i file, nth_error batch i = Some file ->
  nth_error (fst (processBatch load dump JSON_parse llm now batch options w)) i
  = Some (fst (processSermonFile load dump JSON_parse llm now file options w))
  /\ files (snd (processBatch load dump JSON_parse llm now batch options w)) file
     = files (snd (processSermonFile load dump JSON_parse llm now file options w)) file.
Proof.
  intros Hh. revert w. induction batch as [|f rest IH]; intros w ND i file Hi.
  - destruct i; discriminate.
  - inversion ND as [|? ? Hnot ND']; subst. cbn [processBatch].
    pose proof (@processBatch_frame rest options
                  (snd (processSermonFile load dump JSON_parse llm now f options w))) as Fr.
    pose proof (fun q => @processSermonFile_frame f q options w) as Ff.
    specialize (IH (snd (processSermonFile load dump JSON_parse llm now f options w)) ND').
    destruct (processSermonFile load dump JSON_parse llm now f options w) as [r w1] eqn:E.
    cbn [snd] in *.
    destruct (processBatch load dump JSON_parse llm now rest options w1) as [rs w2].
    cbn [fst snd] in *.
    destruct i as [|i]; cbn [nth_error] in *.
    + injection Hi as <-. rewrite E. split; [reflexivity|]. apply Fr. exact Hnot.
    + assert (Hin : In file rest) by (eapply nth_error_In; exact Hi).
      assert (N : file <> f) by (intros ->; contradiction).
      destruct (IH i file Hi) as [A B].
      destruct (@processSermonFile_local file options w1 w Hh (Ff file N)) as [C D].
      rewrite A, B, C, D. split; reflexivity.
Qed.

Lemma processBatch_app (a b : list text) (options : fileOptions) (w : world) :
  processBatch load dump JSON_parse llm now (a ++ b) options w
  = let '(ra, w1) := processBatch load dump JSON_parse llm now a options w in
    let '(rb, w2) := processBatch load dump JSON_parse llm now b options w1 in
    (ra ++ rb, w2).
Proof.
  revert w. induction a as [|f a IH]; intros w.
  - cbn [app processBatch].
    destruct (processBatch load dump JSON_parse llm now b options w). reflexivity.
  - cbn [app processBatch].
    destruct (processSermonFile load dump JSON_parse llm now f options w) as [r w1].
    rewrite IH.
    destruct (processBatch load dump JSON_parse llm now a options w1) as [ra w2].
    destruct (processBatch load dump JSON_parse llm now b options w2) as [rb w3].
    reflexivity.
Qed.

(** The groups of five, run one after the other, are the files run one
    after the other. *)
Lemma processGroups_batch (found : list text) (options : fileOptions) (w : world) :
  processGroups load dump JSON_parse llm now found options w
  = processBatch load dump JSON_parse llm now found options w.
Proof.
  funelim (processGroups load dump JSON_parse llm now found options w).
  - reflexivity.
  - clear Heqcall.
    transitivity
      (processBatch load dump JSON_parse llm now
         (firstn batchSize (f :: fs) ++ skipn batchSize (f :: fs)) options w);
      [|rewrite firstn_skipn; reflexivity].
    rewrite processBatch_app.
    destruct (processBatch load dump JSON_parse llm now (firstn batchSize (f :: fs))
                options w) as [ra w1].
    rewrite (H ra w1).
    destruct (processBatch load dump JSON_parse llm now (skipn batchSize (f :: fs))
                options w1) as [rb w2].
    reflexivity.
Qed.

(** A file that the batch does not list is left as it was; a listed one is
    seen by its own run as it was at the start, whatever the runs before it
    did. *)
Lemma processBatch_nth (batch : list text) (options : fileOptions) (w : world) :
  NoDup batch ->
  forall i file, nth_error batch i = Some file ->
  exists wi,
    files wi file = files w file
    /\ nth_error (fst (processBatch load dump JSON_parse llm now batch options w)) i
       = Some (fst (processSermonFile load dump JSON_parse llm now file options wi))
    /\ files (snd (processBatch load dump JSON_parse llm now batch options w)) file
       = files (snd (processSermonFile load dump JSON_parse llm now file options wi)) file.
Proof.
  revert w. induction batch as [|f rest IH]; intros w ND i file Hi.
  - destruct i; discriminate.
  - inversion ND as [|? ? Hnot ND']; subst. cbn [processBatch].
    pose proof (@processBatch_frame rest options
                  (snd (processSermonFile load dump JSON_parse llm now f options w))) as Fr.
    pose proof (fun q => @processSermonFile_frame f q options w) as Ff.
    specialize (IH (snd (processSermonFile load dump JSON_parse llm now f options w)) ND').
    destruct (processSermonFile load dump JSON_parse llm now f options w) as [r w1] eqn:E.
    cbn [snd] in *.
    destruct (processBatch load dump JSON_parse llm now rest options w1) as [rs w2].
    cbn [fst snd] in *.
    destruct i as [|i]; cbn [nth_error] in *.
    + injection Hi as <-. exists w. rewrite E. cbn [fst snd].
      split; [reflexivity|]. split; [reflexivity|]. apply Fr. exact Hnot.
    + assert (Hin : In file rest) by (eapply nth_error_In; exact Hi).
      assert (N : file <> f) by (intros ->; contradiction).
      destruct (IH i file Hi) as [wi [A [B C]]].
      exists wi. split; [rewrite A; apply Ff; exact N|]. split; [exact B | exact C].
Qed.

Lemma radarLine_radar_info (yamlData justifications : object) (v : value) (category : text) :
  radarLine (set (str "radar_info") v yamlData) justifications category
  = radarLine yamlData justifications category.
Proof.
  unfold radarLine. rewrite get_set_other; [reflexivity|].
  intros H. apply (f_equal (fun t => nth 6 t 0)) in H. vm_compute in H. discriminate H.
Qed.

(** The text written does not depend on [radar_info], which
    [updateFileWithRadarSection] sets after it has rendered the section. *)
Lemma newContent_radar_info (timestamp modelName newYaml : text)
    (yamlData justifications : object) (v : value) (content : text) :
  newContent timestamp modelName newYaml (set (str "radar_info") v yamlData)
    justifications content
  = newContent timestamp modelName newYaml yamlData justifications content.
Proof.
  unfold newContent, radarSection.
  rewrite (map_ext _ _ (radarLine_radar_info yamlData justifications v)). reflexivity.
Qed.

Lemma validate_radar_info (yamlData : object) (v : value) :
  validateSermonYAML (set (str "radar_info") v yamlData) = validateSermonYAML yamlData.
Proof.
  unfold validateSermonYAML. cbn [flat_map].
  rewrite !get_set_other; [reflexivity | |];
    intros H; apply (f_equal (fun t => nth 6 t 0)) in H; vm_compute in H; discriminate H.
Qed.

(** The header the rewrite hands back validates as the one it was given. *)
Lemma updateFile_validation (filePath : text) (yamlData justifications : object)
    (modelName : text) (fs : filesystem) :
  validateSermonYAML
    (snd (fst (updateFileWithRadarSection load dump now filePath yamlData justifications
                 modelName fs)))
  = validateSermonYAML yamlData.
Proof.
  unfold updateFileWithRadarSection.
  repeat (break_match; cbn [fst snd]); rewrite ?validate_radar_info; reflexivity.
Qed.

(** What the rewrite leaves of a readable document whose header parses. *)
Lemma updateFile_outcome (filePath fileContent : text) (data : object) (content : text)
    (yamlData justifications : object) (modelName : text) (fs : filesystem) :
  fs filePath = Some fileContent ->
  matter load fileContent = Normal (data, content) ->
  let out := updateFileWithRadarSection load dump now filePath yamlData justifications
               modelName fs in
  snd out filePath
  = match dump (JS.remove (str "radar_justifications") (snd (fst out))) with
    | Normal newYaml =>
        Some (newContent now modelName newYaml (snd (fst out)) justifications content)
    | Throw _ => Some fileContent
    end.
Proof.
  intros F M. unfold updateFileWithRadarSection, readFileSync. rewrite F, M.
  cbv zeta.
  match goal with
  | |- context [dump ?o] => destruct (dump o) as [newYaml|e] eqn:D
  end; cbn [fst snd]; rewrite D; [|exact F].
  unfold writeFileSync. rewrite text_eqb_refl, newContent_radar_info. reflexivity.
Qed.

(** One document: the failure record of a file that cannot be read or whose
    header does not parse, with the file as it was; otherwise the record of a
    processed file, whose flag [updated] is set exactly when the run is not a
    dry run and something was to be generated, and the file is rewritten when
    the flag is set and [yaml.dump] accepts the header, and is as it was
    otherwise. *)
Lemma processSermonFile_outcome (filePath : text) (options : fileOptions) (w : world) :
  let out := processSermonFile load dump JSON_parse llm now filePath options w in
  match files w filePath with
  | None =>
      fst out = Failed filePath (str "ENOENT: no such file or directory")
      /\ files (snd out) filePath = None
  | Some fileContent =>
      match matter load fileContent with
      | Throw e =>
          fst out = Failed filePath (message e)
          /\ files (snd out) filePath = Some fileContent
      | Normal (existingMetadata, content) =>
          exists md js v u,
            fst out = Processed filePath md js v u
            /\ v = validateSermonYAML md
            /\ (u = true -> dryRun options = false)
            /\ (updateExisting options = true -> u = negb (dryRun options))
            /\ (generateMissing options = true -> updateExisting options = false ->
                u = negb (dryRun options) && negb (completeHeader existingMetadata))
            /\ files (snd out) filePath
               = if u then
                   match dump (JS.remove (str "radar_justifications") md) with
                   | Normal newYaml =>
                       Some (newContent now (modelLabel options) newYaml md js content)
                   | Throw _ => Some fileContent
                   end
                 else Some fileContent
      end
  end.
Proof.
  cbv zeta. unfold processSermonFile, processSermonFile_body, readFileSync.
  destruct (files w filePath) as [fileContent|] eqn:E; [|split; [reflexivity | exact E]].
  destruct (matter load fileContent) as [[existingMetadata content]|e] eqn:M;
    [|split; [reflexivity | exact E]].
  cbv zeta.
  match goal with
  | |- context [if ?c then generateSermonMetadata ?d ?j ?l ?ct ?em ?o ?w0 else ?z] =>
      assert (F1 : files (snd (if c then generateSermonMetadata d j l ct em o w0 else z))
                   = files w)
        by (destruct c; [apply generateSermonMetadata_files | reflexivity]);
      destruct (if c then generateSermonMetadata d j l ct em o w0 else z) as [nm w1]
  end.
  cbn [snd] in F1.
  match goal with
  | |- context [if ?c then ?a else (Normal (nm, ?n), w1)] =>
      assert (S : exists nm' js w2,
                (if c then a else (Normal (nm, n), w1)) = (Normal (nm', js), w2)
                /\ files w2 = files w)
  end.
  { match goal with
    | |- context [if ?c then _ else (Normal (nm, []), w1)] => destruct c
    end; [|eauto].
    match goal with
    | |- context [generateRadarScores llm ?ct ?em ?o ?w0] =>
        pose proof (generateRadarScores_files ct em o w0) as F2;
        destruct (generateRadarScores_returns ct em o w0) as [res R];
        destruct (generateRadarScores llm ct em o w0) as [r w2];
        cbn [fst snd] in R, F2; subst r
    end.
    do 3 eexists. split; [reflexivity | congruence]. }
  destruct S as [nm' [js [w2 [S F2]]]]. rewrite S. clear S.
  match goal with
  | |- context [if ?c then _ else _] => set (u := c)
  end.
  assert (U1 : u = true -> dryRun options = false).
  { subst u. intros H. apply andb_true_iff in H. destruct H as [H _].
    apply negb_true_iff in H. exact H. }
  assert (U2 : updateExisting options = true -> u = negb (dryRun options)).
  { subst u. intros H. rewrite H. rewrite orb_true_r, andb_true_r. reflexivity. }
  assert (U3 : generateMissing options = true -> updateExisting options = false ->
               u = negb (dryRun options) && negb (completeHeader existingMetadata)).
  { subst u. intros G H. rewrite G, H. unfold completeHeader. cbv zeta.
    f_equal. cbn [andb orb].
    repeat match goal with
           | |- context [truthy ?x] => destruct (truthy x); cbn [andb orb negb]
           end;
    repeat match goal with
           | |- context [emptyList ?x] => destruct (emptyList x); cbn [andb orb negb]
           end;
    try reflexivity;
    match goal with
    | |- context [match ?x with [] => _ | _ => _ end] => destruct x; reflexivity
    end. }
  destruct u eqn:Eu.
  - match goal with
    | |- context [updateFileWithRadarSection load dump now filePath ?y ?j ?m ?fs] =>
        assert (F3 : fs filePath = Some fileContent) by (rewrite F2; exact E);
        pose proof (@updateFile_outcome filePath fileContent existingMetadata content
                      y j m fs F3 M) as O;
        pose proof (@updateFile_validation filePath y j m fs) as V;
        destruct (updateFileWithRadarSection load dump now filePath y j m fs)
          as [[ok y'] fs']
    end.
    cbv zeta in O. cbn [fst snd files] in *.
    exists y', js. do 2 eexists. split; [reflexivity|].
    split; [symmetry; exact V|].
    split; [exact U1|]. split; [exact U2|]. split; [exact U3|]. exact O.
  - cbn [fst snd]. do 4 eexists. split; [reflexivity|]. split; [reflexivity|].
    split; [exact U1|]. split; [exact U2|]. split; [exact U3|].
    cbn beta iota. rewrite F2. exact E.
Qed.


End Runs.



(** C9 (code defect).  The flag [fallbackModel] changes nothing:
    [generateRadarScores] catches every error of the provider call itself
    and returns the existing scores, so the [catch] of [processSermonFile]
    that holds the fallback is never entered.  In the worked example, with
    the flag set and a provider that is overloaded on every request, the
    radar model is called once, with the primary model, and the document is
    recorded as processed. *)
Theorem fallback_model_is_never_tried :
  (forall load dump JSON_parse llm now filePath options w b,
     processSermonFile load dump JSON_parse llm now filePath (withFallback b options) w
     = processSermonFile load dump JSON_parse llm now filePath options w)
  /\ (let out :=
        processSermonFile yamlEngine dumpBlock (parseFrom [])
          alwaysOverloaded clockReading sermonPath scoreOnlyWithFallback
          (mkWorld (storeWith originalDocument) []) in
      isFailed (fst out) = false
      /\ List.map req_task (calls (snd out)) = [RadarTask]
      /\ List.map (fun rq => model (req_options rq)) (calls (snd out))
         = [Some (str "gpt-4")]).
Proof.
  split.
  - intros. unfold processSermonFile. rewrite body_ignores_fallback. reflexivity.
  - vm_compute. repeat split.
Qed.

End PipelineProperties.

(* ===================================================================== *)
(** ** Decimal numerals *)
(* ===================================================================== *)

Module DigitFacts.

(** The quotient and remainder by ten, as two numbers related by the
    division equation. *)
Lemma by_ten (n : N) : exists q m, n / 10 = q /\ n mod 10 = m /\ n = 10 * q + m /\ m < 10.
Proof.
  exists (n / 10), (n mod 10). split; [reflexivity|]. split; [reflexivity|]. split.
  - apply N.div_mod. discriminate.
  - apply N.mod_lt. discriminate.
Qed.

Lemma isDigit_range (c : N) : isDigit c = true <-> 48 <= c <= 57.
Proof.
  unfold isDigit. rewrite andb_true_iff, !N.leb_le. reflexivity.
Qed.

Lemma digit_not_space (c : N) : isDigit c = true -> isWhiteSpace c = false.
Proof.
  intros H. apply isDigit_range in H. unfold isWhiteSpace.
  repeat match goal with
         | |- context [?a =? ?b] => destruct (N.eqb_spec a b); [lia|]
         | |- context [?a <=? ?b] => destruct (N.leb_spec a b)
         end; try reflexivity; lia.
Qed.

(** The digits written by [digits_fuel] with enough fuel: all of them are
    digits, there is at least one, and read back they give the number. *)
Lemma digits_fuel_spec (f : nat) :
  forall n acc, n < 2 ^ N.of_nat (S f) ->
  exists ds,
    digits_fuel (S f) n acc = ds ++ acc
    /\ ds <> []
    /\ Forall (fun c => isDigit c = true) ds
    /\ forall a, fold_left (fun x c => x * 10 + (c - 48)) ds a
                 = a * 10 ^ N.of_nat (List.length ds) + n.
Proof.
  assert (One : forall n acc, n / 10 = 0 ->
            exists ds, (48 + n mod 10) :: acc = ds ++ acc /\ ds <> []
              /\ Forall (fun c => isDigit c = true) ds
              /\ forall a, fold_left (fun x c => x * 10 + (c - 48)) ds a
                           = a * 10 ^ N.of_nat (List.length ds) + n).
  { intros n acc Z. exists [48 + n mod 10]. split; [reflexivity|].
    split; [discriminate|].
    destruct (by_ten n) as [q [m [Eq [Em [E L]]]]]. rewrite Em. rewrite Eq in Z. split.
    - constructor; [|constructor]. apply isDigit_range. lia.
    - intros a. cbn [fold_left List.length]. change (N.of_nat 1) with 1.
      rewrite N.pow_1_r. lia. }
  induction f as [|f IH]; intros n acc H.
  - simpl digits_fuel. assert (Z : n / 10 = 0).
    { apply N.div_small. change (2 ^ N.of_nat 1) with 2 in H. lia. }
    rewrite Z. cbn [N.eqb]. apply One. exact Z.
  - change (digits_fuel (S (S f)) n acc)
      with (if n / 10 =? 0 then (48 + n mod 10) :: acc
            else digits_fuel (S f) (n / 10) ((48 + n mod 10) :: acc)).
    destruct (N.eqb_spec (n / 10) 0) as [Z|Z]; [apply One; exact Z|].
    destruct (IH (n / 10) ((48 + n mod 10) :: acc)) as [ds [E [Hne [Hd Hv]]]].
    { rewrite Nat2N.inj_succ, N.pow_succ_r' in H.
      apply N.Div0.div_lt_upper_bound. lia. }
    exists (ds ++ [48 + n mod 10]). split; [rewrite E, <- app_assoc; reflexivity|].
    split; [destruct ds; discriminate|].
    destruct (by_ten n) as [q [m [Eq [Em [En L]]]]]. split.
    + apply Forall_app. split; [exact Hd|]. constructor; [|constructor].
      apply isDigit_range. rewrite Em. lia.
    + intros a. rewrite fold_left_app, Hv. cbn [fold_left].
      rewrite length_app, Nat.add_1_r, Nat2N.inj_succ, N.pow_succ_r'.
      rewrite Eq, Em. lia.
Qed.

Lemma N_to_text_spec (n : N) :
  N_to_text n <> []
  /\ Forall (fun c => isDigit c = true) (N_to_text n)
  /\ digitsValue (N_to_text n) = n.
Proof.
  unfold N_to_text.
  destruct (@digits_fuel_spec (N.to_nat (N.log2 n)) n []) as [ds [E [Hne [Hd Hv]]]].
  { rewrite Nat2N.inj_succ, N2Nat.id. destruct n as [|p]; [reflexivity|].
    apply N.log2_spec. reflexivity. }
  rewrite E, app_nil_r. split; [exact Hne|]. split; [exact Hd|].
  unfold digitsValue. rewrite Hv. lia.
Qed.

Lemma takeWhile_digits (ds rest : list N) :
  Forall (fun c => isDigit c = true) ds ->
  match rest with [] => true | x :: _ => negb (isDigit x) end = true ->
  takeWhile isDigit (ds ++ rest) = ds /\ dropWhile isDigit (ds ++ rest) = rest.
Proof.
  intros Hd Hr. induction Hd as [|d ds D _ IH]; simpl.
  - destruct rest as [|x r]; [split; reflexivity|]. simpl.
    apply negb_true_iff in Hr. rewrite Hr. split; reflexivity.
  - rewrite D. destruct IH as [-> ->]. split; reflexivity.
Qed.

End DigitFacts.

(* ===================================================================== *)
(** ** The two retry loops on every provider *)
(* ===================================================================== *)

Module RetryCoverage.

Section Claude.

Import Retry.

Variable create : nat -> completion (list N).
Variable maxRetries : nat.

(** The loop from any state with [d] retries left: it stops at some request
    [k <= d]; every request before it failed with an error of a retrying
    branch, whose wait was slept. *)
Lemma claude_loop_shape (d : nat) :
  forall retries tr, (retries + d = maxRetries)%nat ->
  exists k ws,
    (k <= d)%nat /\ List.length ws = k
    /\ loop create maxRetries retries tr
       = (create (attempts tr + k)%nat,
          mkTrace (S (attempts tr + k)) (waits tr ++ ws))
    /\ forall i, (i < k)%nat ->
       exists e, create (attempts tr + i)%nat = Throw e
                 /\ backoff e (retries + i) = Some (nth i ws 0).
Proof.
  induction d as [|d IH]; intros retries tr E.
  - exists 0%nat, []. rewrite Nat.add_0_r, app_nil_r.
    split; [lia|]. split; [reflexivity|]. split; [|intros i Hi; lia].
    simp loop. destruct (create (attempts tr)) as [r|e] eqn:C; simp loop.
    + reflexivity.
    + destruct (lt_dec retries maxRetries) as [L|L]; [lia|]. simp loop. reflexivity.
  - simp loop. destruct (create (attempts tr)) as [r|e] eqn:C; simp loop.
    + exists 0%nat, []. rewrite Nat.add_0_r, app_nil_r, C.
      split; [lia|]. split; [reflexivity|]. split; [reflexivity|intros i Hi; lia].
    + destruct (lt_dec retries maxRetries) as [L|L]; [|lia]. simp loop.
      destruct (backoff e retries) as [w|] eqn:B; simp loop.
      * rewrite <- loop_equation_1.
        destruct (IH (S retries) (mkTrace (S (attempts tr)) (waits tr ++ [w])))
          as [k [ws [Hk [Hl [Hr Hi]]]]]; [lia|].
        cbn [attempts waits] in Hr, Hi.
        exists (S k), (w :: ws). split; [lia|]. split; [simpl; lia|]. split.
        -- rewrite Hr, <- app_assoc, Nat.add_succ_r. reflexivity.
        -- intros [|i] Hlt.
           ++ exists e. rewrite !Nat.add_0_r. split; assumption.
           ++ destruct (Hi i) as [e' [C' B']]; [lia|].
              exists e'. rewrite !Nat.add_succ_r. split; assumption.
      * exists 0%nat, []. rewrite Nat.add_0_r, app_nil_r, C.
        split; [lia|]. split; [reflexivity|]. split; [reflexivity|intros i Hi; lia].
Qed.

(** A stretch of [k] failed requests, each with an error of a retrying
    branch, is run through with the waits of those branches. *)
Lemma claude_loop_retrying (w : nat -> N) (k : nat) :
  forall retries tr, (retries + k <= maxRetries)%nat ->
  (forall i, (i < k)%nat ->
     exists e, create (attempts tr + i)%nat = Throw e
               /\ backoff e (retries + i) = Some (w (retries + i)%nat)) ->
  loop create maxRetries retries tr
  = loop create maxRetries (retries + k)
      (mkTrace (attempts tr + k) (waits tr ++ List.map w (seq retries k))).
Proof.
  induction k as [|k IH]; intros retries tr L H.
  - rewrite !Nat.add_0_r, app_nil_r. destruct tr. reflexivity.
  - destruct (H 0%nat) as [e [C B]]; [lia|]. rewrite !Nat.add_0_r in C, B.
    rewrite (loop_equation_1 create maxRetries retries tr).
    unfold loop_unfold_clause_1 at 1. rewrite C. cbn.
    destruct (lt_dec retries maxRetries) as [L'|L']; [|lia]. cbn.
    rewrite B. cbn. rewrite IH.
    + cbn [attempts waits seq List.map]. rewrite <- app_assoc, !Nat.add_succ_r.
      reflexivity.
    + lia.
    + intros i Hi. cbn [attempts]. destruct (H (S i)) as [e' [C' B']]; [lia|].
      exists e'. rewrite !Nat.add_succ_r in C', B'. split; assumption.
Qed.

End Claude.

(** X1.  The direct Anthropic path, whatever the provider does: between one and
    [maxRetries + 1] requests are sent, one wait is slept between two
    consecutive requests, the caller gets the outcome of the last request as
    the provider gave it, and every earlier request failed with an error of
    one of the three retrying branches, whose wait was slept after it. *)
Theorem claude_requests_bounded (openRouterCall : completion (list N))
    (create : nat -> completion (list N)) (maxRetries : nat) :
  let outcome := Retry.callClaudeWithRetry false true openRouterCall create maxRetries in
  let n := Retry.attempts (snd outcome) in
  (1 <= n <= S maxRetries)%nat
  /\ List.length (Retry.waits (snd outcome)) = (n - 1)%nat
  /\ fst outcome = create (n - 1)%nat
  /\ forall i, (i < n - 1)%nat ->
     exists e, create i = Throw e
               /\ Retry.backoff e i = Some (nth i (Retry.waits (snd outcome)) 0).
Proof.
  unfold Retry.callClaudeWithRetry. cbn [negb].
  destruct (@claude_loop_shape create maxRetries maxRetries 0%nat (Retry.mkTrace 0 []) eq_refl)
    as [k [ws [Hk [Hl [Hr Hi]]]]].
  cbn [Retry.attempts Retry.waits app Nat.add] in Hr, Hi.
  rewrite Hr. cbn [fst snd Retry.attempts Retry.waits].
  replace (S k - 1)%nat with k by lia.
  split; [lia|]. split; [exact Hl|]. split; [reflexivity|]. exact Hi.
Qed.

(** X2.  An error outside the three retrying branches (status neither 429 nor 529,
    no [x-should-retry] header) ends the call at the first request: nothing is
    slept and the error is rethrown, whatever the retry ceiling. *)
Theorem claude_error_not_retried (openRouterCall : completion (list N))
    (create : nat -> completion (list N)) (maxRetries : nat) (e : exn) :
  create 0%nat = Throw e ->
  status e <> Some 429 -> status e <> Some 529 -> x_should_retry e = false ->
  Retry.callClaudeWithRetry false true openRouterCall create maxRetries
  = (Throw e, Retry.mkTrace 1 []).
Proof.
  intros C S1 S2 X. unfold Retry.callClaudeWithRetry. cbn [negb].
  assert (B : Retry.backoff e 0 = None).
  { unfold Retry.backoff. rewrite X.
    destruct (status e) as [[|p]|]; try reflexivity.
    repeat (match goal with
            | |- context [match ?q with _ => _ end] => is_var q; destruct q
            end; try reflexivity);
      exfalso; first [apply S1; reflexivity | apply S2; reflexivity]. }
  simp loop. cbn [Retry.attempts]. rewrite C. simp loop.
  destruct (lt_dec 0 maxRetries); simp loop; [rewrite B; simp loop|]; reflexivity.
Qed.

Lemma claude_error_not_retried_witness :
  Retry.callClaudeWithRetry false true (Throw unauthorized) (fun _ => Throw unauthorized) 5
  = (Throw unauthorized, Retry.mkTrace 1 []).
Proof.
  apply claude_error_not_retried with (e := unauthorized);
    [reflexivity | discriminate | discriminate | reflexivity].
Defined.

(** X3.  When the first [k] requests fail with errors of retrying branches and
    request [k] succeeds, with [k] within the retry ceiling, the call returns
    that response after [k + 1] requests and the [k] waits of the branches
    met, in order. *)
Theorem claude_recovers_after_retries (openRouterCall : completion (list N))
    (create : nat -> completion (list N)) (maxRetries k : nat) (w : nat -> N)
    (response : list N) :
  (k <= maxRetries)%nat ->
  (forall i, (i < k)%nat ->
     exists e, create i = Throw e /\ Retry.backoff e i = Some (w i)) ->
  create k = Normal response ->
  Retry.callClaudeWithRetry false true openRouterCall create maxRetries
  = (Normal response, Retry.mkTrace (S k) (List.map w (seq 0 k))).
Proof.
  intros L H C. unfold Retry.callClaudeWithRetry. cbn [negb].
  rewrite (@claude_loop_retrying create maxRetries w k 0%nat (Retry.mkTrace 0 []));
    [|lia|exact H].
  cbn [Retry.attempts Retry.waits app Nat.add].
  simp loop. cbn [Retry.attempts]. rewrite C. simp loop. reflexivity.
Qed.

Lemma claude_recovers_after_retries_witness :
  Retry.callClaudeWithRetry false true (Throw overloaded) twiceOverloaded 5
  = (Normal (str "ok"), Retry.mkTrace 3 [5000; 10000]).
Proof.
  apply (@claude_recovers_after_retries (Throw overloaded) twiceOverloaded 5 2
           overloadWait (str "ok")).
  - lia.
  - intros i Hi. exists overloaded.
    destruct i as [|[|i]]; [split; reflexivity | split; reflexivity | lia].
  - reflexivity.
Defined.

Section OpenAI.

Import OpenAIRetry.

Variable create : nat -> list N + apiError.
Variable maxRetries : nat.

(** What the caller gets when the loop stops at a request. *)
Lemma openai_loop_shape (d : nat) :
  forall retries tr, (retries + d = maxRetries)%nat ->
  exists k ws,
    (k <= d)%nat /\ List.length ws = k
    /\ snd (rateLimitLoop create maxRetries retries tr)
       = mkTrace (S (attempts tr + k)) (waits tr ++ ws)
    /\ match create (attempts tr + k)%nat with
       | inl response => fst (rateLimitLoop create maxRetries retries tr) = Returned response
       | inr e =>
           fst (rateLimitLoop create maxRetries retries tr) = Threw (Provider e)
           \/ (rateLimited e = true /\ (k < d)%nat
               /\ exists t, waitTime e = Throw t
                            /\ fst (rateLimitLoop create maxRetries retries tr) = Threw (Raised t))
       end
    /\ forall i, (i < k)%nat ->
       exists e, create (attempts tr + i)%nat = inr e /\ rateLimited e = true
                 /\ waitTime e = Normal (nth i ws NaN).
Proof.
  induction d as [|d IH]; intros retries tr E.
  - exists 0%nat, []. rewrite Nat.add_0_r, app_nil_r.
    split; [lia|]. split; [reflexivity|].
    simp rateLimitLoop. destruct (create (attempts tr)) as [r|e] eqn:C; simp rateLimitLoop.
    + split; [reflexivity|]. split; [reflexivity|]. intros i Hi; lia.
    + destruct (rateLimited e) eqn:R; simp rateLimitLoop.
      * destruct (lt_dec retries maxRetries) as [L|L]; [lia|]. simp rateLimitLoop.
        split; [reflexivity|]. split; [left; reflexivity|]. intros i Hi; lia.
      * split; [reflexivity|]. split; [left; reflexivity|]. intros i Hi; lia.
  - simp rateLimitLoop. destruct (create (attempts tr)) as [r|e] eqn:C; simp rateLimitLoop.
    + exists 0%nat, []. rewrite Nat.add_0_r, app_nil_r, C.
      split; [lia|]. split; [reflexivity|]. split; [reflexivity|].
      split; [reflexivity|]. intros i Hi; lia.
    + destruct (rateLimited e) eqn:R; simp rateLimitLoop.
      * destruct (lt_dec retries maxRetries) as [L|L]; [|lia]. simp rateLimitLoop.
        destruct (waitTime e) as [w|t] eqn:W; simp rateLimitLoop.
        -- rewrite <- rateLimitLoop_equation_1.
           destruct (IH (S retries) (mkTrace (S (attempts tr)) (waits tr ++ [w])))
             as [k [ws [Hk [Hl [Hs [Hf Hi]]]]]]; [lia|].
           cbn [attempts waits Nat.add] in Hs, Hf, Hi.
           exists (S k), (w :: ws). split; [lia|]. split; [simpl; lia|]. split.
           ++ rewrite Hs, <- app_assoc, Nat.add_succ_r. reflexivity.
           ++ split.
              ** rewrite Nat.add_succ_r. revert Hf.
                 destruct (create (S (attempts tr + k))) as [r'|e']; [intros Hf; exact Hf|].
                 intros [Hf|[R' [Lk [t [W' Hf]]]]]; [left; exact Hf|].
                 right. split; [exact R'|]. split; [lia|]. exists t. split; assumption.
              ** intros [|i] Hlt.
                 --- exists e. rewrite Nat.add_0_r. repeat split; assumption.
                 --- destruct (Hi i) as [e' [C' [R' W']]]; [lia|].
                     exists e'. rewrite Nat.add_succ_r. repeat split; assumption.
        -- exists 0%nat, []. rewrite Nat.add_0_r, app_nil_r, C.
           split; [lia|]. split; [reflexivity|]. split; [reflexivity|]. split.
           ++ right. split; [exact R|]. split; [lia|]. exists t. split; reflexivity || exact W.
           ++ intros i Hi; lia.
      * exists 0%nat, []. rewrite Nat.add_0_r, app_nil_r, C.
        split; [lia|]. split; [reflexivity|]. split; [reflexivity|].
        split; [left; reflexivity|]. intros i Hi; lia.
Qed.

End OpenAI.

(** X4.  The direct OpenAI path, whatever the provider does: between one and
    [maxRetries + 1] requests are sent, one wait is slept between two
    consecutive requests, and every request but the last failed with the
    code [rate_limit_exceeded], the only error this loop retries. *)
Theorem openai_requests_bounded (openRouterCall : OpenAIRetry.outcome)
    (create : nat -> list N + OpenAIRetry.apiError) (maxRetries : nat) :
  let outcome :=
    OpenAIRetry.callOpenAIWithRetry false true openRouterCall create maxRetries in
  let n := OpenAIRetry.attempts (snd outcome) in
  (1 <= n <= S maxRetries)%nat
  /\ List.length (OpenAIRetry.waits (snd outcome)) = (n - 1)%nat
  /\ (forall response, create (n - 1)%nat = inl response ->
      fst outcome = OpenAIRetry.Returned response)
  /\ forall i, (i < n - 1)%nat ->
     exists e, create i = inr e /\ OpenAIRetry.rateLimited e = true
               /\ OpenAIRetry.waitTime e
                  = Normal (nth i (OpenAIRetry.waits (snd outcome)) NaN).
Proof.
  unfold OpenAIRetry.callOpenAIWithRetry. cbn [negb].
  destruct (@openai_loop_shape create maxRetries maxRetries 0%nat
              (OpenAIRetry.mkTrace 0 []) eq_refl)
    as [k [ws [Hk [Hl [Hs [Hf Hi]]]]]].
  cbn [OpenAIRetry.attempts OpenAIRetry.waits app Nat.add] in Hs, Hf, Hi.
  rewrite Hs. cbn [OpenAIRetry.attempts OpenAIRetry.waits].
  replace (S k - 1)%nat with k by lia.
  split; [lia|]. split; [exact Hl|]. split; [|exact Hi].
  intros response C. rewrite C in Hf. exact Hf.
Qed.

(** X5.  An error with another code than [rate_limit_exceeded], an overload or a
    server error for instance, ends the call at the first request: the
    OpenAI loop has no branch for it. *)
Theorem openai_error_not_retried (openRouterCall : OpenAIRetry.outcome)
    (create : nat -> list N + OpenAIRetry.apiError) (maxRetries : nat)
    (e : OpenAIRetry.apiError) :
  create 0%nat = inr e -> OpenAIRetry.rateLimited e = false ->
  OpenAIRetry.callOpenAIWithRetry false true openRouterCall create maxRetries
  = (OpenAIRetry.Threw (OpenAIRetry.Provider e), OpenAIRetry.mkTrace 1 []).
Proof.
  intros C R. unfold OpenAIRetry.callOpenAIWithRetry. cbn [negb].
  simp rateLimitLoop. cbn [OpenAIRetry.attempts]. rewrite C. simp rateLimitLoop. rewrite R. simp rateLimitLoop.
  reflexivity.
Qed.

Lemma openai_error_not_retried_witness :
  OpenAIRetry.callOpenAIWithRetry false true (OpenAIRetry.Returned [])
    (fun _ => inr serverOverloaded) 3
  = (OpenAIRetry.Threw (OpenAIRetry.Provider serverOverloaded), OpenAIRetry.mkTrace 1 []).
Proof. apply openai_error_not_retried with (e := serverOverloaded); reflexivity. Defined.

(** X6.  A rate-limit error that carries no [headers] object makes the [catch]
    itself fail: with a retry left, the caller gets the TypeError of the
    property read instead of the provider's error, after one request. *)
Theorem openai_rate_limit_without_headers (openRouterCall : OpenAIRetry.outcome)
    (create : nat -> list N + OpenAIRetry.apiError) (maxRetries : nat)
    (e : OpenAIRetry.apiError) :
  create 0%nat = inr e -> OpenAIRetry.rateLimited e = true ->
  OpenAIRetry.err_headers e = VUndef -> (0 < maxRetries)%nat ->
  OpenAIRetry.callOpenAIWithRetry false true openRouterCall create maxRetries
  = (OpenAIRetry.Threw (OpenAIRetry.Raised OpenAIRetry.headersTypeError),
     OpenAIRetry.mkTrace 1 []).
Proof.
  intros C R H L. unfold OpenAIRetry.callOpenAIWithRetry. cbn [negb].
  simp rateLimitLoop. cbn [OpenAIRetry.attempts]. rewrite C. simp rateLimitLoop. rewrite R. simp rateLimitLoop.
  destruct (lt_dec 0 maxRetries) as [L'|L']; [|lia]. simp rateLimitLoop.
  unfold OpenAIRetry.waitTime. rewrite H. simp rateLimitLoop. reflexivity.
Qed.

Lemma openai_rate_limit_without_headers_witness :
  OpenAIRetry.callOpenAIWithRetry false true (OpenAIRetry.Returned [])
    (fun _ => inr bareRateLimit) 3
  = (OpenAIRetry.Threw (OpenAIRetry.Raised OpenAIRetry.headersTypeError),
     OpenAIRetry.mkTrace 1 []).
Proof.
  apply openai_rate_limit_without_headers with (e := bareRateLimit);
    [reflexivity | reflexivity | reflexivity | lia].
Defined.

Lemma digitsPrefix_digits (ds : list N) :
  Forall (fun c => isDigit c = true) ds ->
  forall a, OpenAIRetry.digitsPrefix OpenAIRetry.decimalDigit 10 ds (Some a)
            = Some (fold_left (fun x c => x * 10 + (c - 48)) ds a).
Proof.
  induction 1 as [|d ds D _ IH]; intros a; simpl; [reflexivity|].
  unfold OpenAIRetry.decimalDigit at 1. rewrite D. apply IH.
Qed.

Lemma nearestDouble_exact (n : N) :
  n <= 2 ^ 53 -> OpenAIRetry.nearestDouble n = Fin (inject_Z (Z.of_N n)).
Proof.
  intros H. unfold OpenAIRetry.nearestDouble.
  apply N.leb_le in H. rewrite H. reflexivity.
Qed.

(** A finite result of [parseInt] is an integer. *)
Lemma parseInt_integer (v : value) (q : Q) :
  OpenAIRetry.parseInt v = Fin q -> Qden q = 1%positive.
Proof.
  unfold OpenAIRetry.parseInt.
  destruct (match trimStart (toString v) with
            | [] => (false, trimStart (toString v))
            | c :: r =>
                if c =? 45 then (true, r)
                else if c =? 43 then (false, r) else (false, trimStart (toString v))
            end) as [negative s].
  match goal with
  | |- match ?parsed with Some _ => _ | None => _ end = _ -> _ =>
      destruct parsed as [n|]; [|discriminate]
  end.
  unfold OpenAIRetry.nearestDouble.
  destruct negative, (n <=? 2 ^ 53);
    try match goal with
        | |- context [2 ^ 1024 <=? ?m] => destruct (2 ^ 1024 <=? m)
        end;
    cbn [OpenAIRetry.negate]; intros H; try discriminate H;
    injection H as <-; reflexivity.
Qed.

(** Beyond 2^53 the number read is rounded: to the even neighbour at a tie,
    to the nearer one otherwise. *)
Lemma parseInt_rounds :
  OpenAIRetry.parseInt (VStr (str "9007199254740993")) = Fin (inject_Z 9007199254740992)
  /\ OpenAIRetry.parseInt (VStr (str "9007199254740995")) = Fin (inject_Z 9007199254740996)
  /\ OpenAIRetry.parseInt (VStr (str "-9007199254740997"))
     = Fin (inject_Z (-9007199254740996))
  /\ OpenAIRetry.seconds (OpenAIRetry.parseInt (VStr (str "9007199254740993")))
     = Fin (inject_Z 9007199254740992000)
  /\ OpenAIRetry.seconds (Fin (inject_Z 9007199254740993))
     = Fin (inject_Z 9007199254740993024)
  /\ OpenAIRetry.nearestDouble (2 ^ 1024 - 2 ^ 970 - 1)
     = Fin (inject_Z (2 ^ 1024 - 2 ^ 971))
  /\ OpenAIRetry.nearestDouble (2 ^ 1024 - 2 ^ 970) = PosInf.
Proof. vm_compute. repeat split. Qed.

(** [parseInt] reads back the decimal numeral of a natural number that a
    double holds. *)
Lemma parseInt_numeral (n : N) :
  n <= 2 ^ 53 ->
  OpenAIRetry.parseInt (VStr (N_to_text n)) = Fin (inject_Z (Z.of_N n)).
Proof.
  intros Hn.
  destruct (DigitFacts.N_to_text_spec n) as [Hne [Hd Hv]].
  unfold OpenAIRetry.parseInt. cbn [toString].
  destruct (N_to_text n) as [|d ds]; [contradiction Hne; reflexivity|].
  pose proof (Forall_inv Hd) as D. pose proof (Forall_inv_tail Hd) as Ds.
  cbv beta in D. unfold trimStart. cbn [dropWhile]. rewrite (DigitFacts.digit_not_space _ D).
  pose proof (proj1 (DigitFacts.isDigit_range d) D) as Rd.
  destruct (N.eqb_spec d 45) as [|_]; [lia|].
  destruct (N.eqb_spec d 43) as [|_]; [lia|].
  assert (P : OpenAIRetry.digitsPrefix OpenAIRetry.decimalDigit 10 (d :: ds) None = Some n).
  { cbn [OpenAIRetry.digitsPrefix]. unfold OpenAIRetry.decimalDigit at 1. rewrite D.
    rewrite (digitsPrefix_digits Ds). rewrite <- Hv. unfold digitsValue.
    cbn [fold_left]. reflexivity. }
  destruct ds as [|b r]; [rewrite P; apply nearestDouble_exact; exact Hn|].
  pose proof (Forall_inv Ds) as B. cbv beta in B.
  pose proof (proj1 (DigitFacts.isDigit_range b) B) as Rb.
  destruct (N.eqb_spec b 120) as [|_]; [lia|].
  destruct (N.eqb_spec b 88) as [|_]; [lia|].
  rewrite andb_false_r, P. apply nearestDouble_exact. exact Hn.
Qed.

(** X7.  A [retry-after-ms] header with a positive number of milliseconds, up to
    2^53 so that a double holds it, is the wait, whatever [retry-after] says:
    the waits of this loop do not grow with the retry count. *)
Theorem openai_wait_hint_in_milliseconds (code : value) (headers : object) (ms : N) :
  get headers (str "retry-after-ms") = VStr (N_to_text ms) -> 0 < ms -> ms <= 2 ^ 53 ->
  OpenAIRetry.waitTime (OpenAIRetry.mkApiError code (VObj headers))
  = Normal (Fin (inject_Z (Z.of_N ms))).
Proof.
  intros H L B. unfold OpenAIRetry.waitTime. cbn [OpenAIRetry.err_headers getv].
  rewrite H, (parseInt_numeral B). cbn [truthy].
  destruct ms as [|p]; [lia|]. reflexivity.
Qed.

Lemma openai_wait_hint_in_milliseconds_witness :
  OpenAIRetry.waitTime
    (OpenAIRetry.mkApiError (VStr (str "rate_limit_exceeded"))
       (VObj [ (str "retry-after-ms", VStr (str "1500"));
               (str "retry-after", VStr (str "7")) ]))
  = Normal (Fin (inject_Z 1500)).
Proof.
  apply (@openai_wait_hint_in_milliseconds (VStr (str "rate_limit_exceeded"))
           [ (str "retry-after-ms", VStr (str "1500"));
             (str "retry-after", VStr (str "7")) ] 1500);
    [reflexivity | reflexivity | vm_compute; discriminate].
Defined.

(** X8.  Without a [retry-after-ms] header, a [retry-after] header of [s] seconds,
    with [s * 1000] up to 2^53 so that a double holds it, gives a wait of
    [s * 1000] ms; zero seconds count as no hint and give the default of
    2000 ms. *)
Theorem openai_wait_hint_in_seconds (code : value) (headers : object) (s : N) :
  get headers (str "retry-after-ms") = VUndef ->
  get headers (str "retry-after") = VStr (N_to_text s) ->
  s * 1000 <= 2 ^ 53 ->
  OpenAIRetry.waitTime (OpenAIRetry.mkApiError code (VObj headers))
  = Normal (if s =? 0 then Fin 2000 else Fin (inject_Z (Z.of_N (s * 1000)))).
Proof.
  intros H1 H2 B. unfold OpenAIRetry.waitTime. cbn [OpenAIRetry.err_headers getv].
  assert (B' : s <= 2 ^ 53).
  { apply N.le_trans with (s * 1000); [|exact B].
    rewrite <- (N.mul_1_r s) at 1. apply N.mul_le_mono_l. discriminate. }
  rewrite H1, H2, (parseInt_numeral B').
  change (truthy (VNum (OpenAIRetry.parseInt VUndef))) with false. cbv iota.
  unfold OpenAIRetry.seconds. cbn [inject_Z Qnum Qden].
  rewrite Z.div_1_r.
  replace (Z.abs_N (Z.of_N s * 1000)) with (s * 1000)
    by (change 1000%Z with (Z.of_N 1000); rewrite <- N2Z.inj_mul, Zabs2N.id; reflexivity).
  destruct (Z.ltb_spec (Z.of_N s * 1000) 0) as [Neg|_]; [lia|].
  rewrite (nearestDouble_exact B).
  destruct s as [|p]; reflexivity.
Qed.

Lemma openai_wait_hint_in_seconds_witness :
  OpenAIRetry.waitTime
    (OpenAIRetry.mkApiError (VStr (str "rate_limit_exceeded"))
       (VObj [(str "retry-after", VStr (str "7"))]))
  = Normal (Fin (inject_Z 7000)).
Proof.
  apply (@openai_wait_hint_in_seconds (VStr (str "rate_limit_exceeded"))
           [(str "retry-after", VStr (str "7"))] 7);
    [reflexivity | reflexivity | vm_compute; discriminate].
Defined.

End RetryCoverage.

(* ===================================================================== *)
(** ** Model identifiers and the OpenRouter payload *)
(* ===================================================================== *)

Module ModelIdProperties.

Import OpenRouterClient.

Lemma includes_cons (p : text) (c : code_unit) (s : text) :
  includes p (c :: s)
  = match startsWith p (c :: s) with Some _ => true | None => includes p s end.
Proof.
  unfold includes, splitAt. cbn [search].
  destruct (startsWith p (c :: s)); [reflexivity|].
  rewrite (search_prev (startsWith p) (Some c) None s).
  destruct (search (fun _ t => startsWith p t) None s) as [[b a]|]; reflexivity.
Qed.

Lemma startsWith_prefix (p s r : text) : startsWith p s = Some r -> s = p ++ r.
Proof.
  revert s. induction p as [|x p IH]; intros s; simpl.
  - intros H. injection H as ->. reflexivity.
  - destruct s as [|y s]; [discriminate|].
    destruct (N.eqb_spec x y) as [->|_]; [|discriminate].
    intros H. rewrite (IH s H). reflexivity.
Qed.

(** X9.  Formatting a formatted identifier changes nothing. *)
Theorem formatModelId_idempotent (modelId : text) :
  formatModelId (formatModelId modelId) = formatModelId modelId.
Proof.
  remember (formatModelId modelId) as formatted eqn:E.
  unfold formatModelId in E.
  destruct (includes (str "/") modelId) eqn:S.
  - subst formatted. unfold formatModelId. rewrite S. reflexivity.
  - destruct (includes (str "claude") modelId) eqn:C.
    + subst formatted. unfold formatModelId.
      assert (P : includes (str "/") (str "anthropic/" ++ modelId) = true)
        by reflexivity.
      rewrite P. reflexivity.
    + destruct (includes (str "gpt") modelId || includes (str "text-davinci") modelId) eqn:G.
      * subst formatted. unfold formatModelId.
        assert (P : includes (str "/") (str "openai/" ++ modelId) = true)
          by reflexivity.
        rewrite P. reflexivity.
      * subst formatted. unfold formatModelId. rewrite S, C, G. reflexivity.
Qed.

(** X10.  Formatting does not change the family a model is routed by: an
    identifier is a Claude model after formatting exactly when it was one
    before, by the client's test and by the test of the two generators. *)
Theorem formatModelId_keeps_claude_family (modelId : text) :
  isClaudeModel (formatModelId modelId) = isClaudeModel modelId
  /\ Generator.isClaudeModel (Some (formatModelId modelId))
     = Generator.isClaudeModel (Some modelId).
Proof.
  assert (G : forall m, Generator.isClaudeModel (Some m) = isClaudeModel m).
  { intros m. unfold Generator.isClaudeModel, isClaudeModel, startsWithb.
    destruct m as [|c m]; [reflexivity|]. apply orb_comm. }
  rewrite !G. cut (isClaudeModel (formatModelId modelId) = isClaudeModel modelId);
    [intros M; split; exact M|].
  unfold formatModelId.
  destruct (includes (str "/") modelId) eqn:S; [reflexivity|].
  destruct (includes (str "claude") modelId) eqn:C.
  - unfold isClaudeModel. rewrite C, orb_true_r. reflexivity.
  - assert (A : startsWithb (str "anthropic/") modelId = false).
    { unfold startsWithb. destruct (startsWith (str "anthropic/") modelId) as [r|] eqn:E;
        [|reflexivity].
      assert (X : includes (str "/") modelId = true).
      { apply startsWith_prefix in E. rewrite E. reflexivity. }
      rewrite X in S. discriminate. }
    destruct (includes (str "gpt") modelId || includes (str "text-davinci") modelId);
      [|reflexivity].
    unfold isClaudeModel. rewrite A, C.
    change (str "openai/" ++ modelId) with (111 :: 112 :: 101 :: 110 :: 97 :: 105 :: 47 :: modelId).
    rewrite !includes_cons.
    cbn [str List.map list_ascii_of_string N_of_ascii startsWith N.eqb Pos.eqb] in C |- *.
    rewrite C. reflexivity.
Qed.

(** X11.  The client's payload: an option the caller passes wins over the default
    written before the spread, even a falsy one; and through the two call
    wrappers, which replace a falsy temperature by 0.3 before they call the
    client, the temperature sent is never 0. *)
Theorem payload_options_override (model messages : value) (options : object) :
  (forall k v, lookup k options = Some v -> get (payload model messages options) k = v)
  /\ get (payload model messages [(str "temperature", num 0)]) (str "temperature") = num 0
  /\ truthy (get (payload model messages (wrapperOptions options)) (str "temperature"))
     = true.
Proof.
  split; [|split].
  - intros k v H. unfold payload. rewrite get_spread. cbn [ownProps]. rewrite H. reflexivity.
  - reflexivity.
  - unfold payload. rewrite get_spread. cbn [ownProps]. unfold wrapperOptions.
    change (lookup (str "temperature") _)
      with (Some (or_else (get options (str "temperature")) (VNum (Fin (3 # 10))))).
    unfold or_else. destruct (truthy (get options (str "temperature"))) eqn:T;
      [exact T | reflexivity].
Qed.

End ModelIdProperties.

(* ===================================================================== *)
(** ** The score map: its keys, a printed score read back, and printing *)
(* ===================================================================== *)

Module ScoreProperties.

Lemma keys_set (k : text) (v : value) (o : object) (x : text) :
  In x (List.map fst (set k v o)) <-> x = k \/ In x (List.map fst o).
Proof.
  induction o as [|[k' v'] o IH]; simpl.
  - split; (intros [H|[]]; left; congruence).
  - destruct (text_eqb k k') eqn:E; simpl.
    + apply text_eqb_eq in E. subst k'. intuition congruence.
    + rewrite IH. intuition congruence.
Qed.

Lemma NoDup_keys_set (k : text) (v : value) (o : object) :
  NoDup (List.map fst o) -> NoDup (List.map fst (set k v o)).
Proof.
  induction o as [|[k' v'] o IH]; simpl; intros H.
  - constructor; [intros [] | constructor].
  - destruct (text_eqb k k') eqn:E; simpl.
    + apply text_eqb_eq in E. subst k'. exact H.
    + inversion H as [|? ? Hn Hd]; subst. constructor; [|apply IH; exact Hd].
      rewrite keys_set. intros [->|X]; [|contradiction].
      rewrite text_eqb_refl in E. discriminate.
Qed.

Lemma lookup_key (k : text) (o : object) (v : value) :
  lookup k o = Some v -> In k (List.map fst o).
Proof.
  induction o as [|[k' v'] o IH]; simpl; [discriminate|].
  destruct (text_eqb k k') eqn:E.
  - apply text_eqb_eq in E. subst k'. left. reflexivity.
  - intros H. right. apply IH. exact H.
Qed.

Lemma fold_invariant {A B : Type} (P : A -> Prop) (step : A -> B -> A) (l : list B) :
  (forall a x, In x l -> P a -> P (step a x)) ->
  forall a, P a -> P (fold_left step l a).
Proof.
  induction l as [|x l IH]; intros H a Pa; [exact Pa|].
  simpl. apply IH.
  - intros a' y Hy. apply H. right. exact Hy.
  - apply H; [left; reflexivity | exact Pa].
Qed.

(** Both objects of a reply have distinct keys, all of them categories. *)
Lemma radarScores_keys (llmResponse : text) :
  let out := radarScoresOfReply llmResponse in
  (NoDup (List.map fst (fst out))
   /\ forall x, In x (List.map fst (fst out)) -> In x RADAR_CATEGORIES)
  /\ (NoDup (List.map fst (snd out))
      /\ forall x, In x (List.map fst (snd out)) -> In x RADAR_CATEGORIES).
Proof.
  cbv zeta. unfold radarScoresOfReply, fillDefaults, extractLabeled.
  apply (@fold_invariant _ _
           (fun acc : object * object =>
              (NoDup (List.map fst (fst acc))
               /\ forall x, In x (List.map fst (fst acc)) -> In x RADAR_CATEGORIES)
              /\ (NoDup (List.map fst (snd acc))
                  /\ forall x, In x (List.map fst (snd acc)) -> In x RADAR_CATEGORIES))).
  - intros acc c Hc [[A B] [C D]]. rewrite ExtractionProperties.fillCategory_eq.
    destruct (isUndefined (get (fst acc) c)); cbn [fst snd]; [|repeat split; assumption].
    repeat split; try (apply NoDup_keys_set; assumption);
      intros x Hx; apply keys_set in Hx; destruct Hx as [->|Hx]; auto.
  - apply (@fold_invariant _ _
             (fun acc : object * object =>
                (NoDup (List.map fst (fst acc))
                 /\ forall x, In x (List.map fst (fst acc)) -> In x RADAR_CATEGORIES)
                /\ (NoDup (List.map fst (snd acc))
                    /\ forall x, In x (List.map fst (snd acc)) -> In x RADAR_CATEGORIES))).
    + intros acc c Hc [[A B] [C D]]. rewrite ExtractionProperties.extractCategory_eq.
      cbn [fst snd].
      destruct (extractedScore llmResponse c), (extractedJustification llmResponse c);
        repeat split; try (apply NoDup_keys_set; assumption); try assumption;
        intros x Hx; try (apply keys_set in Hx; destruct Hx as [->|Hx]); auto.
    + cbn [fst snd List.map].
      split; (split; [constructor | intros x []]).
Qed.

Lemma defined_key (k : text) (o : object) :
  get o k <> VUndef -> In k (List.map fst o).
Proof.
  unfold get. destruct (lookup k o) as [v|] eqn:L.
  - intros _. eapply lookup_key. exact L.
  - intros H. contradiction H. reflexivity.
Qed.

Lemma listed_key_present (llmResponse x : text) :
  In x RADAR_CATEGORIES -> In x (List.map fst (fst (radarScoresOfReply llmResponse))).
Proof.
  intros H. apply defined_key.
  destruct (ExtractionProperties.radarScores_at llmResponse H) as [G _].
  rewrite G. destruct (extractedScore llmResponse x); discriminate.
Qed.

(** X12.  The score map of any reply has one entry for each of the nine
    categories of [RADAR_CATEGORIES] and no other entry; the justifications
    have entries for categories only. *)
Theorem radar_score_has_the_nine_keys (llmResponse : text) :
  Permutation (List.map fst (fst (radarScoresOfReply llmResponse))) RADAR_CATEGORIES
  /\ List.length (fst (radarScoresOfReply llmResponse)) = 9%nat
  /\ NoDup (List.map fst (snd (radarScoresOfReply llmResponse)))
  /\ forall k, In k (List.map fst (snd (radarScoresOfReply llmResponse))) ->
               In k RADAR_CATEGORIES.
Proof.
  destruct (radarScores_keys llmResponse) as [[A B] [C D]].
  assert (P : Permutation (List.map fst (fst (radarScoresOfReply llmResponse)))
                RADAR_CATEGORIES).
  { apply NoDup_Permutation;
      [exact A | exact ExtractionProperties.RADAR_CATEGORIES_NoDup |].
    intros x. split; [apply B | apply listed_key_present]. }
  split; [exact P|]. split; [|split; assumption].
  rewrite <- (length_map fst), (Permutation_length P). reflexivity.
Qed.

Lemma categories_ascii (c : text) :
  In c RADAR_CATEGORIES -> forallb (fun x => x <? 128) c = true.
Proof.
  intros H. unfold RADAR_CATEGORIES in H. simpl in H.
  repeat (destruct H as [<-|H]; [reflexivity|]). contradiction.
Qed.

Lemma startsWith_ci_app (p s : text) :
  forallb (fun x => x <? 128) p = true -> startsWith_ci p (p ++ s) = Some s.
Proof.
  induction p as [|x p IH]; [reflexivity|].
  cbn [forallb app startsWith_ci]. intros H. apply andb_true_iff in H.
  destruct H as [X H]. rewrite X, N.eqb_refl. cbn [andb]. apply IH. exact H.
Qed.

(** A score line at the head of a reply, with the score written as a decimal
    integer, is matched with that numeral as its group. *)
Lemma scorePattern_reads_numeral (c : text) (n : N) (rest : text) :
  In c RADAR_CATEGORIES ->
  match rest with [] => true | x :: _ => negb (isDigit x) && negb (x =? 46) end = true ->
  matchGroup (scorePattern c)
    (str "SCORE " ++ c ++ str ": " ++ N_to_text n ++ rest)
  = Some (N_to_text n).
Proof.
  intros Hc Hr. unfold matchGroup.
  replace (str "SCORE " ++ c ++ str ": " ++ N_to_text n ++ rest)
    with ((str "SCORE " ++ c ++ str ":") ++ 32 :: N_to_text n ++ rest)
    by (rewrite <- !app_assoc; reflexivity).
  rewrite (@search_here _ (scorePattern c) None _ (N_to_text n)); [reflexivity|].
  unfold scorePattern. rewrite startsWith_ci_app.
  2:{ rewrite !forallb_app, (categories_ascii Hc). reflexivity. }
  destruct (DigitFacts.N_to_text_spec n) as [Hne [Hd _]].
  assert (T : takeWhile isDigit (N_to_text n ++ rest) = N_to_text n
              /\ dropWhile isDigit (N_to_text n ++ rest) = rest).
  { apply DigitFacts.takeWhile_digits; [exact Hd|].
    destruct rest as [|x r]; [reflexivity|].
    apply andb_true_iff in Hr. apply Hr. }
  destruct (N_to_text n) as [|d ds] eqn:E; [contradiction Hne; reflexivity|].
  pose proof (Forall_inv Hd) as D. cbv beta in D.
  cbn [greedySpaces app]. change (isWhiteSpace 32) with true. cbv iota.
  rewrite (DigitFacts.digit_not_space _ D).
  destruct T as [T1 T2]. cbn [app] in T1, T2. rewrite T1, T2.
  destruct rest as [|x r]; [reflexivity|].
  apply andb_true_iff in Hr. destruct Hr as [_ Hx]. apply negb_true_iff in Hx.
  destruct x as [|p]; [reflexivity|].
  repeat (match goal with
          | |- context [match ?q with _ => _ end] => is_var q; destruct q
          end; try reflexivity); discriminate Hx.
Qed.

Lemma Qred_integer (z : Z) : Qred (inject_Z z) = inject_Z z.
Proof.
  unfold Qred, inject_Z.
  pose proof (Z.ggcd_gcd z 1) as G. pose proof (Z.ggcd_correct_divisors z 1) as D.
  destruct (Z.ggcd z 1) as [g [aa bb]]. cbn [fst snd] in *.
  rewrite Z.gcd_1_r in G. subst g. destruct D as [D1 D2].
  rewrite Z.mul_1_l in D1, D2. subst aa bb. reflexivity.
Qed.

Lemma parseFloat_numeral (n : N) : parseFloat (N_to_text n) = Fin (inject_Z (Z.of_N n)).
Proof.
  destruct (DigitFacts.N_to_text_spec n) as [Hne [Hd Hv]].
  destruct (@DigitFacts.takeWhile_digits (N_to_text n) [] Hd eq_refl) as [T1 T2].
  rewrite app_nil_r in T1, T2. unfold parseFloat. rewrite T1, T2.
  destruct (N_to_text n) as [|d ds] eqn:E; [contradiction Hne; reflexivity|].
  unfold parseDecimal. rewrite app_nil_r, Hv.
  change (Z.to_pos (10 ^ Z.of_nat (List.length (@nil N)))) with 1%positive.
  apply (f_equal Fin). apply Qred_integer.
Qed.

(** X13.  A score line at the head of the reply is read back as the number it
    prints, for every category of the list and every natural number up to
    2^53, which a double holds: the numeral that [N_to_text] writes is the
    number [parseFloat] returns. *)
Theorem printed_score_is_read_back (c : text) (n : N) (rest : text) :
  In c RADAR_CATEGORIES ->
  match rest with [] => true | x :: _ => negb (isDigit x) && negb (x =? 46) end = true ->
  n <= 2 ^ 53 ->
  get (fst (radarScoresOfReply
              (str "SCORE " ++ c ++ str ": " ++ N_to_text n ++ rest))) c
  = num (Z.of_N n).
Proof.
  intros Hc Hr _.
  destruct (ExtractionProperties.radarScores_at
              (str "SCORE " ++ c ++ str ": " ++ N_to_text n ++ rest) Hc) as [A _].
  rewrite A.
  rewrite (ExtractionProperties.extractedScore_matched _ _
             (scorePattern_reads_numeral n rest Hc Hr)).
  rewrite parseFloat_numeral. reflexivity.
Qed.

Lemma printed_score_is_read_back_witness :
  get (fst (radarScoresOfReply
              (str "SCORE closing_force: " ++ N_to_text 8
                 ++ 10 :: str "JUSTIFICATION closing_force: Strong.")))
      (str "closing_force")
  = num 8.
Proof.
  apply (@printed_score_is_read_back (str "closing_force") 8
           (10 :: str "JUSTIFICATION closing_force: Strong."));
    [ do 7 right; left; reflexivity | reflexivity | vm_compute; discriminate ].
Defined.

End ScoreProperties.

(* ===================================================================== *)
(** ** [printJustifications] *)
(* ===================================================================== *)

Module PrintingProperties.

Import Printing.

Section Facts.

Variable stringToNumber : text -> number.

Lemma printCategory_objects (acc : object * object * list text) (c : text) :
  fst (printCategory stringToNumber acc c)
  = if unusable stringToNumber (get (fst (fst acc)) c)
    then (set c VNull (fst (fst acc)), set c (VStr noEvaluation) (snd (fst acc)))
    else fst acc.
Proof.
  destruct acc as [[scores reasons] out]. unfold printCategory. cbn [fst snd].
  destruct (unusable stringToNumber (get scores c)); reflexivity.
Qed.

(** The two objects go through the rounds on their own; the printed lines
    do not feed back. *)
Lemma printed_objects (cats : list text) (acc : object * object * list text) :
  fst (fold_left (printCategory stringToNumber) cats acc)
  = fold_left
      (fun (a : object * object) c =>
         if unusable stringToNumber (get (fst a) c)
         then (set c VNull (fst a), set c (VStr noEvaluation) (snd a))
         else a)
      cats (fst acc).
Proof.
  revert acc. induction cats as [|c cats IH]; intros acc; [reflexivity|].
  cbn [fold_left]. rewrite IH, printCategory_objects. reflexivity.
Qed.

Lemma printJustifications_objects (timestamp : text) (scores reasons : object)
    (modelName : text) :
  fst (printJustifications stringToNumber timestamp scores reasons modelName)
  = fold_left
      (fun (a : object * object) c =>
         if unusable stringToNumber (get (fst a) c)
         then (set c VNull (fst a), set c (VStr noEvaluation) (snd a))
         else a)
      RADAR_CATEGORIES (scores, reasons).
Proof.
  unfold printJustifications.
  match goal with
  | |- context [fold_left (printCategory stringToNumber) RADAR_CATEGORIES ?a] =>
      pose proof (printed_objects RADAR_CATEGORIES a) as H;
      destruct (fold_left (printCategory stringToNumber) RADAR_CATEGORIES a)
        as [[s r] out]
  end.
  cbn [fst] in *. exact H.
Qed.

(** The entries of a listed category after the call. *)
Lemma printed_entries (timestamp : text) (scores reasons : object)
    (modelName c : text) :
  In c RADAR_CATEGORIES ->
  let out := fst (printJustifications stringToNumber timestamp scores reasons modelName) in
  get (fst out) c
    = (if unusable stringToNumber (get scores c) then VNull else get scores c)
  /\ get (snd out) c
     = (if unusable stringToNumber (get scores c) then VStr noEvaluation
        else get reasons c)
  /\ unusable stringToNumber (get (fst out) c) = false.
Proof.
  intros H out. subst out. rewrite printJustifications_objects.
  match goal with
  | |- context [fold_left ?step RADAR_CATEGORIES ?a] =>
      destruct (@fold_own_step step) with (cats := RADAR_CATEGORIES) (acc := a) (k := c)
        as [A B]
  end.
  - intros acc c0 k Hk. destruct (unusable stringToNumber (get (fst acc) c0));
      cbn [fst snd]; rewrite ?get_set_other by exact Hk; split; reflexivity.
  - intros acc acc' c0 E1 E2. rewrite <- E1.
    destruct (unusable stringToNumber (get (fst acc) c0)); cbn [fst snd];
      rewrite ?get_set_same; split; auto.
  - exact ExtractionProperties.RADAR_CATEGORIES_NoDup.
  - exact H.
  - rewrite A, B. cbn [fst snd].
    destruct (unusable stringToNumber (get scores c)) eqn:U; cbn [fst snd].
    + rewrite !get_set_same. repeat split.
    + repeat split. exact U.
Qed.

(** X14.  After the call, a listed category whose score was undefined, not a
    number, negative or above 10 has the score [null] and the justification
    "No evaluation provided."; any other listed category keeps its score and
    its justification; and every listed category now passes the test. *)
Theorem printing_nulls_unusable_scores (timestamp : text) (scores reasons : object)
    (modelName c : text) :
  In c RADAR_CATEGORIES ->
  let out := fst (printJustifications stringToNumber timestamp scores reasons modelName) in
  get (fst out) c
    = (if unusable stringToNumber (get scores c) then VNull else get scores c)
  /\ get (snd out) c
     = (if unusable stringToNumber (get scores c) then VStr noEvaluation
        else get reasons c)
  /\ unusable stringToNumber (get (fst out) c) = false.
Proof. apply printed_entries. Qed.

(** X15.  Printing the objects a call has left behind changes neither of them. *)
Theorem printing_twice_changes_nothing (timestamp timestamp' : text)
    (scores reasons : object) (modelName modelName' : text) :
  let once := fst (printJustifications stringToNumber timestamp scores reasons modelName) in
  fst (printJustifications stringToNumber timestamp' (fst once) (snd once) modelName')
  = once.
Proof.
  intros once.
  assert (U : forall c, In c RADAR_CATEGORIES ->
                unusable stringToNumber (get (fst once) c) = false).
  { intros c H. apply (@printed_entries timestamp scores reasons modelName c H). }
  rewrite printJustifications_objects.
  replace (fst once, snd once) with once by (destruct once; reflexivity).
  revert U. generalize once. generalize RADAR_CATEGORIES.
  induction l as [|c l IH]; intros a U; [reflexivity|].
  cbn [fold_left]. rewrite (U c (or_introl eq_refl)). apply IH.
  intros c' H'. apply U. right. exact H'.
Qed.

(** X16.  The scores read from a reply, once printed, are [null] or numbers from 0
    to 10: the range that extraction does not enforce is enforced here, by
    dropping the score. *)
Theorem extracted_scores_printed_in_range (timestamp llmResponse modelName c : text) :
  In c RADAR_CATEGORIES ->
  let read := radarScoresOfReply llmResponse in
  let out :=
    fst (printJustifications stringToNumber timestamp (fst read) (snd read) modelName) in
  get (fst out) c = VNull
  \/ exists q, get (fst out) c = VNum (Fin q) /\ (0 <= q)%Q /\ (q <= 10)%Q.
Proof.
  intros H read out.
  destruct (@printed_entries timestamp (fst read) (snd read) modelName c H)
    as [A _].
  fold out in A. rewrite A. clear A.
  destruct (ExtractionProperties.radarScores_at llmResponse H) as [G _].
  fold read in G.
  assert (Q : exists q, get (fst read) c = VNum (Fin q) /\ (0 <= q)%Q).
  { rewrite G. destruct (extractedScore llmResponse c) as [n|] eqn:E.
    - destruct (ExtractionProperties.extractedScore_nonneg _ _ E) as [q [-> Hq]]. eauto.
    - exists 0%Q. split; [reflexivity | apply Qle_refl]. }
  destruct Q as [q [-> Hq]].
  destruct (unusable stringToNumber (VNum (Fin q))) eqn:U; [left; reflexivity|].
  right. exists q. split; [reflexivity|]. split; [exact Hq|].
  unfold unusable in U. cbn [isUndefined toNumber isNaN orb] in U.
  apply orb_false_iff in U. destruct U as [_ U]. unfold above in U.
  apply Qle_alt. intros Gt. rewrite Gt in U. discriminate.
Qed.

End Facts.

Lemma printing_nulls_unusable_scores_witness :
  let out :=
    fst (Printing.printJustifications (fun _ => NaN) clockReading
           [(str "closing_force", num 15)] [] (str "gpt-4")) in
  get (fst out) (str "closing_force") = VNull
  /\ get (snd out) (str "closing_force") = VStr noEvaluation
  /\ Printing.unusable (fun _ => NaN) (get (fst out) (str "closing_force")) = false.
Proof.
  apply (@printing_nulls_unusable_scores (fun _ => NaN) clockReading
           [(str "closing_force", num 15)] [] (str "gpt-4") (str "closing_force")).
  do 7 right. left. reflexivity.
Defined.

Lemma extracted_scores_printed_in_range_witness :
  let read := radarScoresOfReply fifteen in
  let out :=
    fst (Printing.printJustifications (fun _ => NaN) clockReading (fst read) (snd read)
           (str "gpt-4")) in
  get (fst out) (str "theological_cohesion") = VNull
  \/ exists q, get (fst out) (str "theological_cohesion") = VNum (Fin q)
               /\ (0 <= q)%Q /\ (q <= 10)%Q.
Proof.
  apply (@extracted_scores_printed_in_range (fun _ => NaN) clockReading fifteen
           (str "gpt-4") (str "theological_cohesion")).
  left. reflexivity.
Defined.

End PrintingProperties.

(* ===================================================================== *)
(** ** Header validation, completion and the plain header rewrite *)
(* ===================================================================== *)

Module HeaderProperties.

(** Two different literals are different texts. *)
Ltac text_neq :=
  let E := fresh "E" in
  intros E; apply text_eqb_eq in E; vm_compute in E; discriminate E.

Lemma flat_map_nil {A B : Type} (f : A -> list B) (l : list A) :
  flat_map f l = [] <-> forall x, In x l -> f x = [].
Proof.
  induction l as [|a l IH]; simpl.
  - split; [intros _ x [] | reflexivity].
  - split.
    + intros H. apply app_eq_nil in H. destruct H as [Ha Hl].
      intros x [<-|Hx]; [exact Ha | apply IH; assumption].
    + intros H. rewrite (H a (or_introl eq_refl)).
      apply IH. intros x Hx. apply H. right. exact Hx.
Qed.

Lemma no_errors (l : list (list N)) :
  match l with [] => true | _ :: _ => false end = true <-> l = [].
Proof. destruct l; split; intros H; (reflexivity || discriminate). Qed.

(** When [validateSermonYAML] finds no error. *)
Lemma valid_iff (sermonYAML : object) :
  valid (validateSermonYAML sermonYAML) = true
  <-> truthy (get sermonYAML (str "sermon_title")) = true
      /\ (truthy (get sermonYAML (str "radar_score")) = true ->
          forall field, In field scoreFields ->
            isUndefined (getv (get sermonYAML (str "radar_score")) field) = true
            \/ invalidScore (getv (get sermonYAML (str "radar_score")) field) = false).
Proof.
  unfold validateSermonYAML. cbn [valid flat_map]. rewrite no_errors, app_nil_r. split.
  - intros H. apply app_eq_nil in H. destruct H as [M S]. split.
    + destruct (truthy (get sermonYAML (str "sermon_title"))); [reflexivity|discriminate M].
    + intros R field F. rewrite R in S.
      pose proof (proj1 (flat_map_nil _ _) S field F) as X. cbv beta in X.
      destruct (isUndefined (getv (get sermonYAML (str "radar_score")) field));
        [left; reflexivity|].
      destruct (invalidScore (getv (get sermonYAML (str "radar_score")) field));
        [discriminate X | right; reflexivity].
  - intros [T S]. rewrite T. cbn [app].
    destruct (truthy (get sermonYAML (str "radar_score"))); [|reflexivity].
    apply flat_map_nil. intros field F.
    destruct (S eq_refl field F) as [U|I]; rewrite ?U, ?I, ?andb_false_r; reflexivity.
Qed.

(** The values that pass the range test: [NaN], for which both comparisons
    are false, and the numbers from 0 to 10. *)
Lemma invalidScore_false (v : value) :
  invalidScore v = false
  <-> v = VNum NaN \/ exists q, v = VNum (Fin q) /\ (0 <= q /\ q <= 10)%Q.
Proof.
  split.
  - destruct v as [| | |[q| | |]| | |]; cbn [invalidScore]; try discriminate;
      [|intros _; left; reflexivity].
    intros H. apply orb_false_iff in H. destruct H as [L U].
    right. exists q. split; [reflexivity|]. split.
    + destruct (Qcompare q 0) eqn:C; [| discriminate L |].
      * apply (proj2 (Qeq_alt _ _)) in C. rewrite C. apply Qle_refl.
      * apply Qlt_le_weak. apply (proj2 (Qgt_alt _ _)). exact C.
    + apply (proj2 (Qle_alt _ _)). intros C. rewrite C in U. discriminate U.
  - intros [->|[q [-> [L U]]]]; [reflexivity|]. cbn [invalidScore].
    apply orb_false_iff. split.
    + destruct (Qcompare q 0) eqn:C; try reflexivity.
      apply (proj2 (Qlt_alt _ _)) in C. exfalso. apply (Qlt_not_le _ _ C). exact L.
    + apply (proj1 (Qle_alt _ _)) in U. destruct (Qcompare q 10); try reflexivity.
      contradiction U. reflexivity.
Qed.

Lemma isUndefined_true (v : value) : isUndefined v = true <-> v = VUndef.
Proof. destruct v; split; intros H; (reflexivity || discriminate). Qed.

Lemma score_passes (v : value) :
  isUndefined v = true \/ invalidScore v = false
  <-> v = VUndef \/ v = VNum NaN
      \/ exists q, v = VNum (Fin q) /\ (0 <= q /\ q <= 10)%Q.
Proof. rewrite isUndefined_true, invalidScore_false. reflexivity. Qed.

(** X17.  A header is valid exactly when its title is truthy and, if its score
    map is truthy, every one of the nine names of [scoreFields] has in it no
    value, the value [NaN], or a number from 0 to 10.  [NaN] passes because
    both comparisons of the range test are false for it; a score that is not
    a number, such as the string "7", makes the header invalid; a missing
    score map, missing scores and scores under other names are not looked
    at. *)
Theorem validation_characterised (sermonYAML : object) :
  valid (validateSermonYAML sermonYAML) = true
  <-> truthy (get sermonYAML (str "sermon_title")) = true
      /\ (truthy (get sermonYAML (str "radar_score")) = true ->
          forall field, In field scoreFields ->
            let score := getv (get sermonYAML (str "radar_score")) field in
            score = VUndef \/ score = VNum NaN
            \/ exists q, score = VNum (Fin q) /\ (0 <= q /\ q <= 10)%Q).
Proof.
  rewrite valid_iff. cbv zeta. split; intros [T S]; (split; [exact T|]);
    intros R field F; apply score_passes; apply (S R field F).
Qed.

Section Completion.

Variable fromISO : value -> number * number * number.
Variable today : text.

Lemma completed_title (sermonData : object) :
  get (YamlHeader.generateSermonYAML fromISO today sermonData) (str "sermon_title")
  = or_else (get sermonData (str "sermon_title")) (VStr (str "Untitled Sermon")).
Proof.
  unfold YamlHeader.generateSermonYAML.
  destruct (truthy (get sermonData (str "radar_justifications")));
    [rewrite get_set_other by text_neq|]; reflexivity.
Qed.

Lemma completed_scores (sermonData : object) :
  get (YamlHeader.generateSermonYAML fromISO today sermonData) (str "radar_score")
  = VObj (spread (spread [] (VObj YamlHeader.defaultRadarScore))
                 (or_else (get sermonData (str "radar_score")) (VObj []))).
Proof.
  unfold YamlHeader.generateSermonYAML.
  destruct (truthy (get sermonData (str "radar_justifications")));
    [rewrite get_set_other by text_neq|]; reflexivity.
Qed.

Lemma default_score (field : text) :
  In field scoreFields -> lookup field YamlHeader.defaultRadarScore = Some (num 0).
Proof.
  intros H. unfold scoreFields in H. simpl in H.
  repeat (destruct H as [<-|H]; [reflexivity|]). contradiction.
Qed.

(** X18.  The header that [generateSermonYAML] completes, as the [fix] command
    writes it, is valid exactly when every value the given data holds under
    one of the nine names is [undefined], [NaN] or a number from 0 to 10: a
    missing title and missing scores are filled in, while a score out of
    range, or one that is not a number, is carried over and keeps the header
    invalid. *)
Theorem completed_header_validity (sermonData : object) :
  valid (validateSermonYAML (YamlHeader.generateSermonYAML fromISO today sermonData)) = true
  <-> forall field v,
        In field scoreFields ->
        lookup field (ownProps (or_else (get sermonData (str "radar_score")) (VObj [])))
        = Some v ->
        v = VUndef \/ v = VNum NaN
        \/ exists q, v = VNum (Fin q) /\ (0 <= q /\ q <= 10)%Q.
Proof.
  rewrite valid_iff, completed_title, completed_scores.
  cbn [truthy getv].
  assert (T : truthy (or_else (get sermonData (str "sermon_title"))
                              (VStr (str "Untitled Sermon"))) = true).
  { unfold or_else. destruct (truthy (get sermonData (str "sermon_title"))) eqn:E;
      [exact E | reflexivity]. }
  split.
  - intros [_ S] field v F L. specialize (S eq_refl field F).
    rewrite get_spread, L in S. apply score_passes. exact S.
  - intros H. split; [exact T|]. intros _ field F. rewrite get_spread.
    destruct (lookup field (ownProps (or_else (get sermonData (str "radar_score")) (VObj []))))
      as [v|] eqn:L.
    + apply score_passes. apply (H field v F L).
    + rewrite get_spread. cbn [ownProps]. rewrite (default_score F). right. reflexivity.
Qed.

End Completion.

(** *** The directory scan of yaml-generator.js *)

Lemma titleFromFilename_nonempty (filename : text) :
  truthy (VStr (YamlHeader.titleFromFilename filename)) = true.
Proof.
  unfold YamlHeader.titleFromFilename.
  match goal with |- context [trim ?x] => destruct (trim x) end; reflexivity.
Qed.

(** X19.  An entry of the scan keeps the validation of the header as it was read,
    while its data always has a title: the header's own if that is truthy,
    otherwise one made from the file name.  So the default "Untitled Sermon"
    of [generateSermonYAML] is never what [fix] writes for a scanned file. *)
Theorem scanned_entry_has_a_title (fromISO : value -> number * number * number)
    (today : text) (basename : text -> text) (relative : text -> text -> text)
    (yamlData : object) (directoryPath filePath : text) :
  let entry := YamlHeader.sermonEntry basename relative yamlData directoryPath filePath in
  YamlHeader.validation entry = validateSermonYAML yamlData
  /\ get (YamlHeader.data entry) (str "sermon_title")
     = (if truthy (get yamlData (str "sermon_title"))
        then get yamlData (str "sermon_title")
        else VStr (YamlHeader.titleFromFilename (basename filePath)))
  /\ truthy (get (YamlHeader.data entry) (str "sermon_title")) = true
  /\ get (YamlHeader.generateSermonYAML fromISO today (YamlHeader.data entry))
         (str "sermon_title")
     = get (YamlHeader.data entry) (str "sermon_title").
Proof.
  intros entry.
  assert (D : get (YamlHeader.data entry) (str "sermon_title")
              = (if truthy (get yamlData (str "sermon_title"))
                 then get yamlData (str "sermon_title")
                 else VStr (YamlHeader.titleFromFilename (basename filePath)))).
  { subst entry. unfold YamlHeader.sermonEntry. cbn [YamlHeader.data].
    rewrite get_set_other by text_neq.
    destruct (truthy (get yamlData (str "sermon_title"))) eqn:T.
    - rewrite andb_false_r. reflexivity.
    - assert (V : valid (validateSermonYAML yamlData) = false).
      { destruct (valid (validateSermonYAML yamlData)) eqn:V; [|reflexivity].
        apply valid_iff in V. destruct V as [V _]. congruence. }
      rewrite V. cbn [negb andb]. apply get_set_same. }
  assert (T : truthy (get (YamlHeader.data entry) (str "sermon_title")) = true).
  { rewrite D. destruct (truthy (get yamlData (str "sermon_title"))) eqn:E;
      [exact E | apply titleFromFilename_nonempty]. }
  split; [reflexivity|]. split; [exact D|]. split; [exact T|].
  rewrite completed_title. unfold or_else. rewrite T. reflexivity.
Qed.

(** *** The plain header rewrite *)

Lemma dropWhile_suffix (p : code_unit -> bool) (l : text) :
  exists w, l = w ++ dropWhile p l.
Proof.
  induction l as [|x l [w IH]]; simpl.
  - exists []. reflexivity.
  - destruct (p x).
    + exists (x :: w). simpl. rewrite <- IH. reflexivity.
    + exists []. reflexivity.
Qed.

Lemma trimEnd_prefix (s : text) : exists w, s = trimEnd s ++ w.
Proof.
  unfold trimEnd. destruct (dropWhile_suffix isWhiteSpace (rev s)) as [w E].
  exists (rev w). rewrite <- rev_app_distr, <- E, rev_involutive. reflexivity.
Qed.

Lemma trimStart_head (s : text) :
  match trimStart s with [] => True | c :: _ => isWhiteSpace c = false end.
Proof.
  unfold trimStart. induction s as [|x s IH]; simpl; [exact I|].
  destruct (isWhiteSpace x) eqn:W; [exact IH | exact W].
Qed.

Lemma trimStart_trim (s : text) : trimStart (trim s) = trim s.
Proof.
  unfold trim. pose proof (trimStart_head s) as H.
  destruct (trimStart s) as [|c r]; [reflexivity|].
  destruct (trimEnd_prefix (c :: r)) as [w E].
  pose proof (@RewriteProperties.trimEnd_keeps_head c r H) as N.
  destruct (trimEnd (c :: r)) as [|c' r']; [contradiction N; reflexivity|].
  injection E as <- _. unfold trimStart. cbn [dropWhile]. rewrite H. reflexivity.
Qed.

(** A trimmed body behind the line break that the header's closing line
    leaves is trimmed back to itself. *)
Lemma trim_rewritten_body (content : text) : trim (10 :: trim content) = trim content.
Proof.
  unfold trim at 1. change (trimStart (10 :: trim content)) with (trimStart (trim content)).
  rewrite trimStart_trim. unfold trim. apply RewriteProperties.trimEnd_idempotent.
Qed.

(** X20.  [updateFileWithYAML] with the same header data is stable: when the
    document it has written is read back with the written body behind the
    header, a second call writes the same document again.  (The Radar
    Analysis rewrite does not have this property.) *)
Theorem plain_rewrite_is_stable (load : text -> completion object)
    (dump : object -> completion (list N)) (filePath : text) (yamlData : object)
    (fs : filesystem) (document content newYaml : text) (data data' : object) :
  fs filePath = Some document ->
  matter load document = Normal (data, content) ->
  dump yamlData = Normal newYaml ->
  matter load (YamlHeader.yamlContent newYaml content)
  = Normal (data', 10 :: trim content) ->
  let once := YamlHeader.updateFileWithYAML load dump filePath yamlData fs in
  let twice := YamlHeader.updateFileWithYAML load dump filePath yamlData (snd once) in
  fst once = true /\ fst twice = true
  /\ snd once filePath = Some (YamlHeader.yamlContent newYaml content)
  /\ forall p, snd twice p = snd once p.
Proof.
  intros F M D M' once twice.
  assert (O : once = (true, writeFileSync filePath (YamlHeader.yamlContent newYaml content) fs)).
  { subst once. unfold YamlHeader.updateFileWithYAML, readFileSync. rewrite F, M, D.
    reflexivity. }
  assert (W : writeFileSync filePath (YamlHeader.yamlContent newYaml content) fs filePath
              = Some (YamlHeader.yamlContent newYaml content)).
  { unfold writeFileSync. rewrite text_eqb_refl. reflexivity. }
  assert (T : twice
              = (true, writeFileSync filePath (YamlHeader.yamlContent newYaml content)
                         (snd once))).
  { subst twice. unfold YamlHeader.updateFileWithYAML, readFileSync.
    rewrite O. cbn [snd]. rewrite W, M', D.
    unfold YamlHeader.yamlContent. rewrite trim_rewritten_body. reflexivity. }
  rewrite T, O. cbn [fst snd]. repeat split; [exact W|].
  intros p. unfold writeFileSync. destruct (text_eqb p filePath); reflexivity.
Qed.

Lemma plain_rewrite_is_stable_witness :
  let once :=
    YamlHeader.updateFileWithYAML yamlEngine dumpBlock sermonPath sermonHeader
      (storeWith originalDocument) in
  let twice :=
    YamlHeader.updateFileWithYAML yamlEngine dumpBlock sermonPath sermonHeader (snd once) in
  fst once = true /\ fst twice = true
  /\ snd once sermonPath
     = Some (YamlHeader.yamlContent (str "sermon_title: Grace" ++ [10])
               (10 :: str "# Grace" ++ 10 :: str "Text."))
  /\ forall p, snd twice p = snd once p.
Proof.
  apply (@plain_rewrite_is_stable yamlEngine dumpBlock sermonPath sermonHeader
           (storeWith originalDocument) originalDocument
           (10 :: str "# Grace" ++ 10 :: str "Text.")
           (str "sermon_title: Grace" ++ [10]) sermonHeader sermonHeader);
    vm_compute; reflexivity.
Defined.

(** *** Manuscript paths *)

Lemma showNumber_natural (n : N) : showNumber (Fin (inject_Z (Z.of_N n))) = N_to_text n.
Proof.
  unfold showNumber, showQ. rewrite ScoreProperties.Qred_integer.
  cbn [Qnum Qden inject_Z].
  assert (S : (Z.of_N n <? 0)%Z = false) by (apply Z.ltb_ge; apply N2Z.is_nonneg).
  rewrite S, Z.abs_eq, N2Z.id by apply N2Z.is_nonneg.
  rewrite N.div_1_r, N.mod_1_r. cbn [N.eqb app]. apply app_nil_r.
Qed.

Lemma two_digits_below_hundred :
  forallb (fun k => match YamlHeader.padStart2 (N_to_text (N.of_nat k)) with
                    | [a; b] => isDigit a && isDigit b
                    | _ => false
                    end) (seq 0 100) = true.
Proof. vm_compute. reflexivity. Qed.

Lemma padStart2_digits (m : N) :
  m < 100 ->
  exists a b, YamlHeader.padStart2 (N_to_text m) = [a; b]
              /\ isDigit a = true /\ isDigit b = true.
Proof.
  intros H. pose proof two_digits_below_hundred as T.
  rewrite forallb_forall in T. specialize (T (N.to_nat m)).
  rewrite N2Nat.id in T.
  assert (I : In (N.to_nat m) (seq 0 100)) by (apply in_seq; lia).
  specialize (T I).
  destruct (YamlHeader.padStart2 (N_to_text m)) as [|a [|b [|c r]]]; try discriminate T.
  apply andb_true_iff in T. exists a, b. split; [reflexivity | exact T].
Qed.

Lemma sliceLast2_digits (y : N) :
  10 <= y ->
  exists e f, YamlHeader.sliceLast2 (N_to_text y) = [e; f]
              /\ isDigit e = true /\ isDigit f = true.
Proof.
  intros H. destruct (DigitFacts.N_to_text_spec y) as [Hne [Hd Hv]].
  assert (L : (2 <= List.length (N_to_text y))%nat).
  { destruct (N_to_text y) as [|d [|d' r]]; [contradiction Hne; reflexivity | | simpl; lia].
    exfalso. unfold digitsValue in Hv. cbn [fold_left] in Hv.
    pose proof (proj1 (DigitFacts.isDigit_range d) (Forall_inv Hd)). lia. }
  unfold YamlHeader.sliceLast2.
  pose proof (firstn_skipn (List.length (N_to_text y) - 2) (N_to_text y)) as E.
  pose proof (length_skipn (List.length (N_to_text y) - 2) (N_to_text y)) as K.
  destruct (skipn (List.length (N_to_text y) - 2) (N_to_text y)) as [|e [|f [|g r]]];
    simpl in K; try lia.
  exists e, f. split; [reflexivity|].
  rewrite <- E in Hd. apply Forall_app in Hd. destruct Hd as [_ Hd].
  split; [exact (Forall_inv Hd) | exact (Forall_inv (Forall_inv_tail Hd))].
Qed.

(** X21.  The file name that [generateManuscriptPath] makes for a date (year at
    least 10) is all date stamp: the title that the directory scan derives
    from such a name, for a file without a title, is "Untitled". *)
Theorem dated_file_name_gives_untitled (fromISO : value -> number * number * number)
    (dateStr : value) (year month day : N) :
  fromISO dateStr
  = (Fin (inject_Z (Z.of_N year)), Fin (inject_Z (Z.of_N month)),
     Fin (inject_Z (Z.of_N day))) ->
  10 <= year -> month < 100 -> day < 100 ->
  exists name,
    YamlHeader.generateManuscriptPath fromISO dateStr
    = str "/" ++ N_to_text year ++ str "/" ++ name ++ str ".md"
    /\ YamlHeader.titleFromFilename name = str "Untitled".
Proof.
  intros F Hy Hm Hd. unfold YamlHeader.generateManuscriptPath. rewrite F.
  rewrite !showNumber_natural.
  destruct (padStart2_digits Hm) as [a [b [-> [Da Db]]]].
  destruct (padStart2_digits Hd) as [c [d [-> [Dc Dd]]]].
  destruct (sliceLast2_digits Hy) as [e [f [-> [De Df]]]].
  exists (str "Sermon " ++ [a; b] ++ str "." ++ [c; d] ++ str "." ++ [e; f]).
  split.
  - reflexivity.
  - unfold YamlHeader.titleFromFilename.
    rewrite (@search_here _ YamlHeader.datedName None _ []); [reflexivity|].
    unfold YamlHeader.datedName.
    change (startsWith (str "Sermon ")
              (str "Sermon " ++ [a; b] ++ str "." ++ [c; d] ++ str "." ++ [e; f]))
      with (Some [a; b; 46; c; d; 46; e; f]).
    cbv iota. rewrite Da, Db, Dc, Dd, De, Df. reflexivity.
Qed.

Lemma dated_file_name_gives_untitled_witness :
  exists name,
    YamlHeader.generateManuscriptPath isoDateOfPalmSunday (VStr (str "2025-04-13"))
    = str "/" ++ N_to_text 2025 ++ str "/" ++ name ++ str ".md"
    /\ YamlHeader.titleFromFilename name = str "Untitled".
Proof.
  apply (@dated_file_name_gives_untitled isoDateOfPalmSunday (VStr (str "2025-04-13"))
           2025 4 13); [reflexivity | | | ]; apply N.leb_le || apply N.ltb_lt; reflexivity.
Defined.

End HeaderProperties.

(* ===================================================================== *)
(** ** Runs on one document and on a directory: what is read, asked and written *)
(* ===================================================================== *)

Module RunProperties.

(** X22.  A body in which the text "## Radar Analysis" does not occur goes through
    the removal unchanged, so the rewrite keeps it whole, trimmed, below the
    new section. *)
Theorem rewrite_keeps_body_without_heading (timestamp modelName newYaml : text)
    (yamlData justifications : object) (content : text) :
  includes heading content = false ->
  removeRadar content = content
  /\ newContent timestamp modelName newYaml yamlData justifications content
     = str "---" ++ [10] ++ newYaml ++ str "---" ++ [10; 10]
         ++ radarSection timestamp modelName yamlData justifications ++ trim content.
Proof.
  intros H.
  assert (R : removeRadar content = content).
  { unfold removeRadar. rewrite (@search_refines _ _ (fun _ t => startsWith heading t)
                                   radarPattern); [reflexivity | |].
    - intros p t E. unfold radarPattern. rewrite E. destruct (lineStart p); reflexivity.
    - unfold includes, splitAt in H.
      destruct (search (fun _ t => startsWith heading t) None content); [discriminate|].
      reflexivity. }
  split; [exact R|]. unfold newContent. rewrite R. reflexivity.
Qed.

Lemma rewrite_keeps_body_without_heading_witness :
  removeRadar (10 :: str "# Grace" ++ 10 :: str "Text.")
  = 10 :: str "# Grace" ++ 10 :: str "Text."
  /\ newContent clockReading (str "gpt-4") (str "sermon_title: Grace" ++ [10])
       scoredHeader sermonJustifications (10 :: str "# Grace" ++ 10 :: str "Text.")
     = str "---" ++ [10] ++ (str "sermon_title: Grace" ++ [10]) ++ str "---" ++ [10; 10]
         ++ radarSection clockReading (str "gpt-4") scoredHeader sermonJustifications
         ++ trim (10 :: str "# Grace" ++ 10 :: str "Text.").
Proof.
  apply (@rewrite_keeps_body_without_heading clockReading (str "gpt-4")
           (str "sermon_title: Grace" ++ [10]) scoredHeader sermonJustifications
           (10 :: str "# Grace" ++ 10 :: str "Text.")).
  reflexivity.
Defined.

Section Runs.

Variable load : text -> completion object.
Variable dump : object -> completion (list N).
Variable JSON_parse : text -> completion value.
Variable llm : request -> list request -> completion (list N).
Variable now : text.

Lemma generateSermonMetadata_calls (content : text) (existingMetadata : object)
    (options : llmOptions) (w : world) :
  exists rqs,
    calls (snd (generateSermonMetadata dump JSON_parse llm content existingMetadata options w))
    = calls w ++ rqs
    /\ (rqs = [] \/ exists rq, rqs = [rq] /\ req_task rq = MetadataTask /\ withinShare rq).
Proof.
  unfold generateSermonMetadata, call. cbv zeta.
  destruct (dump existingMetadata).
  2:{ exists []. rewrite app_nil_r. split; [reflexivity | left; reflexivity]. }
  match goal with
  | |- context [llm ?rq (calls w)] => exists [rq]; split; [destruct (llm rq (calls w))|]
  end.
  - repeat (break_match; cbn [fst snd calls]); reflexivity.
  - reflexivity.
  - right. eexists. split; [reflexivity|]. split; [reflexivity|].
    unfold withinShare. cbn [req_content req_task]. apply firstn_le_length.
Qed.

Lemma generateRadarScores_calls (content : text) (existingMetadata : object)
    (options : llmOptions) (w : world) :
  exists rqs,
    calls (snd (generateRadarScores llm content existingMetadata options w))
    = calls w ++ rqs
    /\ (rqs = [] \/ exists rq, rqs = [rq] /\ req_task rq = RadarTask /\ withinShare rq).
Proof.
  unfold generateRadarScores, call. cbv zeta.
  destruct (truthy (get existingMetadata (str "texts"))
            && negb (isArray (get existingMetadata (str "texts")))).
  { exists []. rewrite app_nil_r. split; [reflexivity | left; reflexivity]. }
  match goal with
  | |- context [llm ?rq (calls w)] => exists [rq]; split; [destruct (llm rq (calls w))|]
  end.
  - repeat (break_match; cbn [fst snd calls]); reflexivity.
  - reflexivity.
  - right. eexists. split; [reflexivity|]. split; [reflexivity|].
    unfold withinShare. cbn [req_content req_task]. apply firstn_le_length.
Qed.

(** X23.  With [dryRun] set, a run on a document writes nothing: the store it
    leaves is the store it was given, whatever the provider answers. *)
Theorem dry_run_never_writes (filePath : text) (options : fileOptions) (w : world) :
  dryRun options = true ->
  files (snd (processSermonFile load dump JSON_parse llm now filePath options w))
  = files w.
Proof.
  intros D. unfold processSermonFile, processSermonFile_body.
  destruct (readFileSync filePath (files w)) as [fileContent|]; [|reflexivity].
  destruct (matter load fileContent) as [[existingMetadata content]|]; [|reflexivity].
  cbv zeta. rewrite D. cbn [negb andb].
  match goal with
  | |- context [if ?c then generateSermonMetadata ?d ?j ?l ?ct ?em ?o ?w0 else ?z] =>
      assert (F1 : files (snd (if c then generateSermonMetadata d j l ct em o w0 else z))
                   = files w)
        by (destruct c; [apply PipelineProperties.generateSermonMetadata_files
                        | reflexivity]);
      destruct (if c then generateSermonMetadata d j l ct em o w0 else z) as [nm w1]
  end.
  cbn [snd] in F1.
  match goal with
  | |- context [if ?c then _ else (Normal (nm, []), w1)] => destruct c
  end; [|cbn [snd]; exact F1].
  match goal with
  | |- context [generateRadarScores llm ?ct ?em ?o ?w0] =>
      pose proof (PipelineProperties.generateRadarScores_files llm ct em o w0) as F2;
      destruct (PipelineProperties.generateRadarScores_returns llm ct em o w0) as [res R];
      destruct (generateRadarScores llm ct em o w0) as [r w2];
      cbn [fst snd] in R, F2; subst r
  end.
  cbn [snd]. congruence.
Qed.

(** X24.  A document that cannot be read gives the failure record of its path;
    the provider is not asked and nothing is written. *)
Theorem unreadable_document_is_reported (filePath : text) (options : fileOptions)
    (w : world) :
  files w filePath = None ->
  let out := processSermonFile load dump JSON_parse llm now filePath options w in
  isFailed (fst out) = true /\ resultPath (fst out) = filePath /\ snd out = w.
Proof.
  intros H out. subst out. unfold processSermonFile, processSermonFile_body, readFileSync.
  rewrite H. repeat split.
Qed.

(** X25.  A document whose header has a title, a bolt, themes, metaphors and a
    score map with a key is left alone by a run without [updateExisting]:
    the provider is not asked, nothing is written, and the record returned
    carries a copy of the header with [updated] false. *)
Theorem complete_document_is_left_alone (filePath : text) (options : fileOptions)
    (w : world) (document content : text) (existingMetadata : object) :
  files w filePath = Some document ->
  matter load document = Normal (existingMetadata, content) ->
  completeHeader existingMetadata = true ->
  updateExisting options = false ->
  processSermonFile load dump JSON_parse llm now filePath options w
  = (Processed filePath (spread [] (VObj existingMetadata)) []
       (validateSermonYAML (spread [] (VObj existingMetadata))) false,
     w).
Proof.
  intros F M C U. unfold processSermonFile, processSermonFile_body, readFileSync.
  rewrite F, M. cbv zeta. rewrite U.
  unfold completeHeader in C. cbv zeta in C.
  repeat match goal with
         | H : _ && _ = true |- _ => apply andb_true_iff in H; destruct H
         end.
  repeat match goal with
         | H : negb _ = true |- _ => apply negb_true_iff in H
         end.
  repeat match goal with
         | H : truthy _ = true |- _ => rewrite H; clear H
         | H : emptyList _ = false |- _ => rewrite H; clear H
         end.
  destruct (ownProps (or_else (get existingMetadata (str "radar_score")) (VObj [])));
    [discriminate|].
  cbn [negb orb]. rewrite !andb_false_r. reflexivity.
Qed.

(** X26.  A run on one document calls a retry wrapper at most twice: at most
    once for metadata, then at most once for scores; a call carries no more
    of the sermon text than its task's share.  (What is counted is the calls
    of [callClaudeWithRetry] and [callOpenAIWithRetry]; one such call sends
    the provider up to [maxRetries + 1] requests.) *)
Theorem at_most_two_wrapper_calls (filePath : text) (options : fileOptions) (w : world) :
  exists rqs,
    calls (snd (processSermonFile load dump JSON_parse llm now filePath options w))
    = calls w ++ rqs
    /\ Forall withinShare rqs
    /\ (List.map req_task rqs = []
        \/ List.map req_task rqs = [MetadataTask]
        \/ List.map req_task rqs = [RadarTask]
        \/ List.map req_task rqs = [MetadataTask; RadarTask]).
Proof.
  assert (Z : exists rqs : list request,
            calls w = calls w ++ rqs /\ Forall withinShare rqs
            /\ (List.map req_task rqs = []
                \/ List.map req_task rqs = [MetadataTask]
                \/ List.map req_task rqs = [RadarTask]
                \/ List.map req_task rqs = [MetadataTask; RadarTask])).
  { exists []. rewrite app_nil_r. split; [reflexivity|]. split; [constructor|].
    left. reflexivity. }
  unfold processSermonFile, processSermonFile_body.
  destruct (readFileSync filePath (files w)) as [fileContent|]; [|exact Z].
  destruct (matter load fileContent) as [[existingMetadata content]|]; [|exact Z].
  clear Z. cbv zeta.
  match goal with
  | |- context [if ?c then generateSermonMetadata ?d ?j ?l ?ct ?em ?o ?w0 else ?z] =>
      assert (M : exists rqs,
                calls (snd (if c then generateSermonMetadata d j l ct em o w0 else z))
                = calls w ++ rqs
                /\ (rqs = [] \/ exists rq, rqs = [rq] /\ req_task rq = MetadataTask
                                            /\ withinShare rq))
        by (destruct c;
            [ apply generateSermonMetadata_calls
            | exists []; rewrite app_nil_r; split; [reflexivity | left; reflexivity] ]);
      destruct (if c then generateSermonMetadata d j l ct em o w0 else z) as [nm w1]
  end.
  cbn [snd] in M. destruct M as [rqs1 [M1 M2]].
  assert (Fin2 : forall rqs2 (w2 : world),
            calls w2 = calls w1 ++ rqs2 ->
            (rqs2 = [] \/ exists rq, rqs2 = [rq] /\ req_task rq = RadarTask
                                       /\ withinShare rq) ->
            exists rqs,
              calls w2 = calls w ++ rqs /\ Forall withinShare rqs
              /\ (List.map req_task rqs = []
                  \/ List.map req_task rqs = [MetadataTask]
                  \/ List.map req_task rqs = [RadarTask]
                  \/ List.map req_task rqs = [MetadataTask; RadarTask])).
  { intros rqs2 w2 E2 S2. exists (rqs1 ++ rqs2).
    rewrite E2, M1, app_assoc. split; [reflexivity|].
    destruct M2 as [->|[rq1 [-> [T1 B1]]]], S2 as [->|[rq2 [-> [T2 B2]]]];
      cbn [app List.map]; rewrite ?T1, ?T2;
      (split; [repeat constructor; assumption | tauto]). }
  match goal with
  | |- context [if ?c then _ else (Normal (nm, []), w1)] => destruct c
  end.
  - match goal with
    | |- context [generateRadarScores llm ?ct ?em ?o ?w0] =>
        destruct (generateRadarScores_calls ct em o w0) as [rqs2 [E2 S2]];
        destruct (PipelineProperties.generateRadarScores_returns llm ct em o w0) as [res R];
        destruct (generateRadarScores llm ct em o w0) as [r w2];
        cbn [fst snd] in R, E2; subst r
    end.
    match goal with
    | |- context [if ?c then _ else _] => destruct c
    end; [|cbn [snd]; apply (Fin2 rqs2 w2 E2 S2)].
    match goal with
    | |- context [updateFileWithRadarSection load dump now filePath ?y ?j ?m ?fs] =>
        destruct (updateFileWithRadarSection load dump now filePath y j m fs)
          as [[ok y'] fs']
    end.
    cbn [snd calls]. apply (Fin2 rqs2 w2 E2 S2).
  - assert (E2 : calls w1 = calls w1 ++ []) by (rewrite app_nil_r; reflexivity).
    match goal with
    | |- context [if ?c then _ else _] => destruct c
    end; [|cbn [snd]; apply (Fin2 [] w1 E2 (or_introl eq_refl))].
    match goal with
    | |- context [updateFileWithRadarSection load dump now filePath ?y ?j ?m ?fs] =>
        destruct (updateFileWithRadarSection load dump now filePath y j m fs)
          as [[ok y'] fs']
    end.
    cbn [snd calls]. apply (Fin2 [] w1 E2 (or_introl eq_refl)).
Qed.

(** X27.  A directory run leaves every file outside the list it was given as it
    was. *)
Theorem directory_run_leaves_other_files (found : list text) (options : fileOptions)
    (w : world) (other : text) :
  ~ In other found ->
  files (snd (processSermonDirectory load dump JSON_parse llm now found options w)) other
  = files w other.
Proof.
  intros H. unfold processSermonDirectory.
  rewrite PipelineProperties.processGroups_batch.
  apply PipelineProperties.processBatch_frame. exact H.
Qed.


Lemma updated_header_keys (filePath : text) (yamlData justifications : object)
    (modelName : text) (fs : filesystem) (k : text) :
  k <> str "radar_info" ->
  get (snd (fst (updateFileWithRadarSection load dump now filePath yamlData
                   justifications modelName fs))) k
  = get yamlData k.
Proof.
  intros H. unfold updateFileWithRadarSection.
  repeat (break_match; cbn [fst snd]); rewrite ?get_set_other by exact H; reflexivity.
Qed.

(** X29.  A run with [updateExisting] and [scoreOnly] both set, or with neither
    [updateExisting] nor [generateMissing], asks for no metadata, and the
    header it returns differs from the one it read in [radar_score] and
    [radar_info] at most.  ([scoreOnly] alone, with [generateMissing] left at
    its default, is not such a run.) *)
Theorem score_only_keeps_the_header (filePath : text) (options : fileOptions)
    (w : world) (document content : text) (existingMetadata : object) :
  files w filePath = Some document ->
  matter load document = Normal (existingMetadata, content) ->
  (updateExisting options = true /\ scoreOnly options = true)
  \/ (updateExisting options = false /\ generateMissing options = false) ->
  let out := processSermonFile load dump JSON_parse llm now filePath options w in
  (exists metadata justifications validation updated,
     fst out = Processed filePath metadata justifications validation updated
     /\ forall k, k <> str "radar_score" -> k <> str "radar_info" ->
                  get metadata k = get existingMetadata k)
  /\ forall rq, In rq (calls (snd out)) -> In rq (calls w) \/ req_task rq = RadarTask.
Proof.
  intros F M H out. subst out.
  assert (K : forall k, get (spread [] (VObj existingMetadata)) k = get existingMetadata k).
  { intros k. rewrite get_spread. cbn [ownProps]. unfold get.
    destruct (lookup k existingMetadata); reflexivity. }
  unfold processSermonFile, processSermonFile_body, readFileSync.
  rewrite F, M. cbv zeta.
  assert (Radar : forall ct em o,
            let '(r, w2) := generateRadarScores llm ct em o w in
            exists res, r = Normal res
              /\ forall rq, In rq (calls w2) -> In rq (calls w) \/ req_task rq = RadarTask).
  { intros ct em o.
    destruct (generateRadarScores_calls ct em o w) as [rqs2 [E2 S2]].
    destruct (PipelineProperties.generateRadarScores_returns llm ct em o w) as [res R].
    destruct (generateRadarScores llm ct em o w) as [r w2].
    cbn [fst snd] in R, E2. exists res. split; [exact R|].
    intros rq H'. rewrite E2 in H'. apply in_app_or in H'.
    destruct H' as [H'|H']; [left; exact H'|].
    destruct S2 as [->|[rq2 [-> [T2 _]]]]; [destruct H'|].
    destruct H' as [<-|[]]. right. exact T2. }
  destruct H as [[U S]|[U G]]; rewrite U, ?S, ?G; cbn [andb orb negb];
    repeat match goal with
           | |- context [if ?c then _ else (Normal (?nm, []), w)] => destruct c
           end;
    try match goal with
        | |- context [generateRadarScores llm ?ct ?em ?o w] =>
            pose proof (Radar ct em o) as Q;
            destruct (generateRadarScores llm ct em o w) as [r w2];
            destruct Q as [res [-> Q]]
        end;
    match goal with
    | |- context [if ?c then _ else _] => destruct c
    end;
    try match goal with
        | |- context [updateFileWithRadarSection load dump now filePath ?y ?j ?m ?fs] =>
            pose proof (@updated_header_keys filePath y j m fs) as V;
            destruct (updateFileWithRadarSection load dump now filePath y j m fs)
              as [[ok y'] fs']
        end;
    cbn [fst snd calls] in *;
    (split; [|first [exact Q | intros rq H'; left; exact H']]);
    do 4 eexists; (split; [reflexivity|]);
    intros k K1 K2; rewrite ?V by exact K2; rewrite ?get_set_other by assumption;
    apply K.
Qed.

End Runs.


Lemma score_only_keeps_the_header_witness :
  let out :=
    processSermonFile yamlEngine dumpBlock (parseFrom []) scoringProvider clockReading
      sermonPath scoreOnlyOptions (mkWorld (storeWith originalDocument) []) in
  (exists metadata justifications validation updated,
     fst out = Processed sermonPath metadata justifications validation updated
     /\ forall k, k <> str "radar_score" -> k <> str "radar_info" ->
                  get metadata k = get sermonHeader k)
  /\ forall rq, In rq (calls (snd out)) -> In rq [] \/ req_task rq = RadarTask.
Proof.
  apply (@score_only_keeps_the_header yamlEngine dumpBlock (parseFrom [])
           scoringProvider clockReading sermonPath scoreOnlyOptions
           (mkWorld (storeWith originalDocument) []) originalDocument
           (10 :: str "# Grace" ++ 10 :: str "Text.") sermonHeader);
    [vm_compute; reflexivity | vm_compute; reflexivity | right; split; reflexivity].
Defined.

Lemma dry_run_never_writes_witness :
  files (snd (processSermonFile yamlEngine dumpBlock (parseFrom []) scoringProvider
                clockReading sermonPath dryRunOptions
                (mkWorld (storeWith originalDocument) [])))
  = storeWith originalDocument.
Proof.
  apply (@dry_run_never_writes yamlEngine dumpBlock (parseFrom []) scoringProvider
           clockReading sermonPath dryRunOptions
           (mkWorld (storeWith originalDocument) [])).
  reflexivity.
Defined.

Lemma directory_run_leaves_other_files_witness :
  files (snd (processSermonDirectory directoryEngine dumpBlock (parseFrom [])
                scoringProvider clockReading [str "a.md"; str "b.md"] scoreOnlyOptions
                (mkWorld directoryStore []))) (str "d.md")
  = directoryStore (str "d.md").
Proof.
  apply (@directory_run_leaves_other_files directoryEngine dumpBlock (parseFrom [])
           scoringProvider clockReading [str "a.md"; str "b.md"] scoreOnlyOptions
           (mkWorld directoryStore []) (str "d.md")).
  intros [H|[H|[]]]; apply text_eqb_eq in H; vm_compute in H; discriminate H.
Defined.

Lemma unreadable_document_is_reported_witness :
  let out :=
    processSermonFile yamlEngine dumpBlock (parseFrom []) scoringProvider clockReading
      (str "missing.md") defaultOptions (mkWorld (storeWith originalDocument) []) in
  isFailed (fst out) = true /\ resultPath (fst out) = str "missing.md"
  /\ snd out = mkWorld (storeWith originalDocument) [].
Proof.
  apply (@unreadable_document_is_reported yamlEngine dumpBlock (parseFrom [])
           scoringProvider clockReading (str "missing.md") defaultOptions
           (mkWorld (storeWith originalDocument) [])).
  reflexivity.
Defined.

Lemma complete_document_is_left_alone_witness :
  processSermonFile fullEngine dumpBlock (parseFrom []) scoringProvider clockReading
    sermonPath defaultOptions (mkWorld (storeWith fullDocument) [])
  = (Processed sermonPath (spread [] (VObj fullHeader)) []
       (validateSermonYAML (spread [] (VObj fullHeader))) false,
     mkWorld (storeWith fullDocument) []).
Proof.
  apply (@complete_document_is_left_alone fullEngine dumpBlock (parseFrom [])
           scoringProvider clockReading sermonPath defaultOptions
           (mkWorld (storeWith fullDocument) []) fullDocument
           (10 :: str "# Grace" ++ 10 :: str "Text.") fullHeader);
    vm_compute; reflexivity.
Defined.

End RunProperties.
